(** * Medical-Chatbot: the nearest-store ranking and route annotation
      pipeline of [map_agent_auto.py]

    A shallow embedding of [get_stores_with_location], [calculate_distance],
    [get_route_info], [find_nearest_stores], [create_map] and the part of
    [main] that lists the nearest stores, followed by the properties of the
    specification that can be settled on it; then the button "Find Nearest
    Store", the two tools of [sql_tool.py], and [image_to_base64] and the
    script of [medicalbot.py], with further properties of the code.

    Conventions.
    - In the ranking a Python [float] is modelled by the rational it
      denotes ([Q]), and [round(d, 2)] by the multiple of 1/100 it stands
      for. In [get_route_info] the quotients are binary64 values
      ([pyfloat]): the exact result rounded to nearest, ties to even.
    - A call that may raise returns an [outcome]; a function that talks to
      the routing service runs in the monad [M], which threads the log of
      the HTTP requests issued so far.
    - The third-party routines ([geodesic] of geopy, [ask_db] of the SQL
      agent, [polyline.decode], the routing service itself, the formatting
      of a float inside an f-string) are Section variables. *)

From Stdlib Require Import Reals.
From Stdlib Require Import ZArith QArith Qabs Qround Qpower List String Bool Lia Lqa.
From Stdlib Require Import DecimalString.
From Stdlib Require Import NArith Ascii Strings.Byte.
From Stdlib Require Import Sorting.Sorted Sorting.Permutation.
Import ListNotations.
Open Scope string_scope.
Open Scope Z_scope.

Set Implicit Arguments.
Set Warnings "-register-all".

(* ------------------------------------------------------------------ *)
(** ** Exceptions and outcomes *)

(** The exception classes that the modelled code can meet. The program does
    not define a class of its own; [OtherError] carries the name of any
    other class. *)
Inductive exn : Type :=
| TypeError
| KeyError
| IndexError
| ValueError
| OtherError (name : string).

Inductive outcome (A : Type) : Type :=
| Ret (a : A)
| Raise (e : exn).

Arguments Ret {A} a.
Arguments Raise {A} e.

Definition obind {A B} (c : outcome A) (k : A -> outcome B) : outcome B :=
  match c with
  | Ret a => k a
  | Raise e => Raise e
  end.

Declare Scope outcome_scope.
Delimit Scope outcome_scope with out.
Notation "x <- c ;; k" := (obind c (fun x => k))
  (at level 61, c at next level, right associativity) : outcome_scope.

(** A [for] loop that builds one result per element and stops at the first
    exception. *)
Fixpoint omap {A B} (f : A -> outcome B) (l : list A) : outcome (list B) :=
  match l with
  | [] => Ret []
  | a :: l' =>
      (b <- f a ;; bs <- omap f l' ;; Ret (b :: bs))%out
  end.

(* ------------------------------------------------------------------ *)
(** ** Python numerics on exact values *)

Definition Qlt_bool (x y : Q) : bool := negb (Qle_bool y x).

(** [int(x)]: truncation toward zero. *)
Definition py_int (x : Q) : Z :=
  if Qlt_bool x 0 then Qceiling x else Qfloor x.

(** Nearest integer, ties to the even one. *)
Definition round_half_even (x : Q) : Z :=
  let f := Qfloor x in
  let r := (x - inject_Z f)%Q in
  match (r ?= 1 # 2)%Q with
  | Lt => f
  | Gt => f + 1
  | Eq => if Z.even f then f else f + 1
  end.

(** [round(x, ndigits)] for [ndigits = 2]: the multiple of 1/100 nearest
    to [x]. *)
Definition py_round2 (x : Q) : Q :=
  Qred (round_half_even (x * 100) # 100).

(** *** Floats

    A Python [float] that the arithmetic of [get_route_info] produces: a
    finite non-zero binary64 value, a signed zero, an infinity or NaN. *)
Inductive pyfloat : Type :=
| FNum (q : Q)
| FZero (negative : bool)
| FInf (negative : bool)
| FNaN.

Definition pow2 (e : Z) : Q := (2 ^ e)%Q.

(** [floor(log2 |q|)] for a non-zero [q]. *)
Definition ilog2 (q : Q) : Z :=
  let e := Z.log2 (Z.abs (Qnum q)) - Z.log2 (Zpos (Qden q)) in
  if Qle_bool (pow2 e) (Qabs q) then e else e - 1.

(** The distance between neighbouring binary64 values around [q]: 53
    significant bits, and [2^-1074] at the bottom of the range. *)
Definition binary64_unit (q : Q) : Q := pow2 (Z.max (ilog2 q - 52) (-1074)).

(** The multiple of the unit nearest to [q], ties to the even multiple. *)
Definition nearest_binary64 (q : Q) : Q :=
  (inject_Z (round_half_even (q / binary64_unit q)) * binary64_unit q)%Q.

(** The binary64 value of an exact result [q]: round to nearest, ties to
    even; a zero keeps the sign of [q]; beyond the range it is an
    infinity. *)
Definition fround (q : Q) : pyfloat :=
  if Qeq_bool q 0 then FZero false
  else
    let r := nearest_binary64 q in
    if Qeq_bool r 0 then FZero (Qlt_bool q 0)
    else if Qle_bool (pow2 1024) (Qabs r) then FInf (Qlt_bool q 0)
    else FNum (Qred r).

(** [int(x)] for a float [x]. *)
Definition py_int_float (x : pyfloat) : outcome Z :=
  match x with
  | FNum q => Ret (py_int q)
  | FZero _ => Ret 0
  | FInf _ => Raise (OtherError "OverflowError")
  | FNaN => Raise ValueError
  end.

(** [round(x, 2)] for a float [x]: the exact value of [x] is rounded to a
    multiple of 1/100, ties to even, and the float nearest to that multiple
    is returned. *)
Definition py_round2_float (x : pyfloat) : pyfloat :=
  match x with
  | FNum q =>
      let k := round_half_even (q * 100) in
      if k =? 0 then FZero (Qlt_bool q 0) else fround (k # 100)
  | _ => x
  end.

(** [a / d] for two [int]s, [d] positive: the exact quotient rounded to
    binary64, [OverflowError] when it is out of range. *)
Definition int_truediv (a d : Z) : outcome pyfloat :=
  match fround (inject_Z a / inject_Z d) with
  | FInf _ => Raise (OtherError "OverflowError")
  | f => Ret f
  end.

(** [l[:limit]] for a Python integer [limit]: a negative [limit] counts
    from the end of the list. *)
Definition py_slice_to {A} (l : list A) (limit : Z) : list A :=
  if limit <? 0
  then firstn (Z.to_nat (Z.max 0 (Z.of_nat (List.length l) + limit))) l
  else firstn (Z.to_nat limit) l.

(* ------------------------------------------------------------------ *)
(** ** Stores *)

(** The dictionary of one store. The key ['distance_km'] is absent in the
    catalog and added by the ranking. *)
Record store : Type := mkStore {
  store_id : Z;
  store_name : string;
  address : string;
  latitude : Q;
  longitude : Q;
  phone_number : string;
  distance_km : option Q
}.

(** [store['distance_km'] = d] *)
Definition set_distance_km (s : store) (d : Q) : store :=
  {| store_id := store_id s;
     store_name := store_name s;
     address := address s;
     latitude := latitude s;
     longitude := longitude s;
     phone_number := phone_number s;
     distance_km := Some d |}.

(** [store['distance_km']] *)
Definition get_distance_km (s : store) : outcome Q :=
  match distance_km s with
  | Some d => Ret d
  | None => Raise KeyError
  end.

Definition sample_stores : list store :=
  [ {| store_id := 1;
       store_name := "MedPlus Regency Orion Baner Street";
       address := "Shop No.15 Ground, Regency Orion, Soc, Mohan Nagar Co-Op Society, Baner, Pune";
       latitude := 18551666 # 1000000;
       longitude := 73768846 # 1000000;
       phone_number := "9226011653";
       distance_km := None |};
    {| store_id := 2;
       store_name := "MedPlus Baner Rd Baner";
       address := "Milkat No.O/A/01, Green Hills Apartment, Shop No.2, Baner Rd, opp. Pantaloons";
       latitude := 18558091 # 1000000;
       longitude := 73793439 # 1000000;
       phone_number := "4067006700";
       distance_km := None |} ].

Definition stores_query : string :=
  "Get all medical stores with their store_id, store_name, address, latitude, longitude, and phone_number in a structured format".

(* ------------------------------------------------------------------ *)
(** ** A stable sort on a key, as [list.sort(key=...)] *)

(** [list.sort] computes the key of every element first, then sorts the
    decorated list with [<] alone, keeping elements of equal key in their
    original order. *)
Fixpoint insert_keyed {A} (x : Q * A) (l : list (Q * A)) : list (Q * A) :=
  match l with
  | [] => [x]
  | y :: l' =>
      if Qlt_bool (fst y) (fst x) then y :: insert_keyed x l' else x :: y :: l'
  end.

Fixpoint sort_keyed {A} (l : list (Q * A)) : list (Q * A) :=
  match l with
  | [] => []
  | x :: l' => insert_keyed x (sort_keyed l')
  end.

Definition py_sort {A} (key : A -> outcome Q) (l : list A) : outcome (list A) :=
  (keys <- omap key l ;;
   Ret (map snd (sort_keyed (combine keys l))))%out.

(* ------------------------------------------------------------------ *)
(** ** Catalog, distance and ranking *)

(** [calculate_distance(lat1, lon1, lat2, lon2)]:
    [geodesic((lat1, lon1), (lat2, lon2)).kilometers], for the routine
    [geodesic] in use and whatever numbers the coordinates are. *)
Definition calculate_distance (C D : Type) (geodesic : C * C -> C * C -> D)
  (lat1 lon1 lat2 lon2 : C) : D :=
  geodesic (lat1, lon1) (lat2, lon2).

Arguments calculate_distance {C D} geodesic (lat1 lon1 lat2 lon2)%_Q_scope.

Section Ranking.

(** [sql_agent.ask_db]: the answer of the SQL agent to a request. *)
Variable ask_db : string -> outcome string.

(** [geodesic((lat1, lon1), (lat2, lon2)).kilometers] of geopy. *)
Variable geodesic : Q * Q -> Q * Q -> outcome Q.

Definition get_stores_with_location : outcome (list store) :=
  (response <- ask_db stores_query ;;
   Ret sample_stores)%out.

(** The loop that adds ['distance_km'] to every store. *)
Definition add_distances (user_lat user_lon : Q) (stores : list store)
  : outcome (list store) :=
  omap (fun s =>
          (distance <- calculate_distance geodesic user_lat user_lon
                         (latitude s) (longitude s) ;;
           Ret (set_distance_km s (py_round2 distance)))%out)
       stores.

(** The body of [find_nearest_stores] after the catalog has been read. *)
Definition rank_stores (user_lat user_lon : Q) (stores : list store)
  (limit : Z) : outcome (list store) :=
  (stores1 <- add_distances user_lat user_lon stores ;;
   stores2 <- py_sort get_distance_km stores1 ;;
   Ret (py_slice_to stores2 limit))%out.

(** [find_nearest_stores(user_lat, user_lon, limit)]; every call site
    passes [limit], the default 5 is never used. *)
Definition find_nearest_stores (user_lat user_lon : Q) (limit : Z)
  : outcome (list store) :=
  (stores <- get_stores_with_location ;;
   rank_stores user_lat user_lon stores limit)%out.

End Ranking.

(* ------------------------------------------------------------------ *)
(** ** JSON values as Python sees them *)

(** The value that [response.json()] builds. A number is an [int] or a
    [float]; [JObj] is a dictionary whose keys are strings. *)
Inductive json : Type :=
| JNull
| JBool (b : bool)
| JInt (z : Z)
| JFloat (f : pyfloat)
| JStr (s : string)
| JArr (items : list json)
| JObj (fields : list (string * json)).

Fixpoint lookup_field (key : string) (fields : list (string * json))
  : option json :=
  match fields with
  | [] => None
  | (k, v) :: rest => if String.eqb k key then Some v else lookup_field key rest
  end.

Definition is_substring (needle hay : string) : bool :=
  match String.index 0 needle hay with
  | Some _ => true
  | None => false
  end.

(** [key in data] for a string [key]. *)
Definition py_contains (key : string) (data : json) : outcome bool :=
  match data with
  | JObj fields =>
      Ret (match lookup_field key fields with Some _ => true | None => false end)
  | JArr items =>
      Ret (existsb (fun v => match v with
                             | JStr s => String.eqb s key
                             | _ => false
                             end) items)
  | JStr s => Ret (is_substring key s)
  | _ => Raise TypeError
  end.

(** [data[key]] for a string [key]. *)
Definition py_getitem (data : json) (key : string) : outcome json :=
  match data with
  | JObj fields =>
      match lookup_field key fields with
      | Some v => Ret v
      | None => Raise KeyError
      end
  | _ => Raise TypeError
  end.

(** [len(data)] *)
Definition py_len (data : json) : outcome Z :=
  match data with
  | JArr items => Ret (Z.of_nat (List.length items))
  | JObj fields => Ret (Z.of_nat (List.length fields))
  | JStr s => Ret (Z.of_nat (String.length s))
  | _ => Raise TypeError
  end.

(** [data[0]] *)
Definition py_first (data : json) : outcome json :=
  match data with
  | JArr (v :: _) => Ret v
  | JArr [] => Raise IndexError
  | JStr (String c _) => Ret (JStr (String c EmptyString))
  | JStr EmptyString => Raise IndexError
  | JObj _ => Raise KeyError
  | _ => Raise TypeError
  end.

(** [x / d] for a positive [int] constant [d]. An [int] (a boolean counts
    as 0 or 1) is divided as an [int]; a [float] is divided by the float
    [d], which changes neither a zero, an infinity nor NaN. *)
Definition py_truediv (x : json) (d : Z) : outcome pyfloat :=
  match x with
  | JInt z => int_truediv z d
  | JBool b => int_truediv (if b then 1 else 0) d
  | JFloat (FNum q) => Ret (fround (q / inject_Z d))
  | JFloat f => Ret f
  | _ => Raise TypeError
  end.

(* ------------------------------------------------------------------ *)
(** ** Requests to the routing service *)

Record request : Type := mkRequest {
  req_method : string;
  req_url : string;
  req_timeout : Z
}.

(** What [requests.get] followed by [response.json()] can give: no response
    at all (connection error, timeout), or a response whose body parses to a
    JSON value or does not parse. *)
Inductive http_outcome : Type :=
| NetworkError
| Response (body : option json).

(** Computations that issue requests: the log of the requests made so far is
    threaded through, and survives an exception. *)
Definition M (A : Type) : Type := list request -> outcome A * list request.

Definition mret {A} (a : A) : M A := fun log => (Ret a, log).

Definition mbind {A B} (c : M A) (k : A -> M B) : M B :=
  fun log =>
    match c log with
    | (Ret a, log') => k a log'
    | (Raise e, log') => (Raise e, log')
    end.

Definition lift {A} (c : outcome A) : M A := fun log => (c, log).

(** [try: body / except: pass]: every exception is swallowed. *)
Definition try_except_pass {A} (body : M A) : M (option A) :=
  fun log =>
    match body log with
    | (Ret a, log') => (Ret (Some a), log')
    | (Raise _, log') => (Ret None, log')
    end.

Declare Scope req_scope.
Delimit Scope req_scope with req.
Notation "x <- c ;; k" := (mbind c (fun x => k))
  (at level 61, c at next level, right associativity) : req_scope.

(** The dictionary that [get_route_info] returns. *)
Inductive route_data : Type :=
| RouteFailure
| RouteSuccess (duration_minutes : Z) (route_km : pyfloat)
               (route_points : list (Q * Q)).

(** [route_data["success"]] *)
Definition success (r : route_data) : bool :=
  match r with
  | RouteSuccess _ _ _ => true
  | RouteFailure => false
  end.

Definition default_mode : string := "driving".

Section Routing.

(** The routing service: its answer to a request, given the requests that
    came before. *)
Variable http_get : list request -> request -> http_outcome.

(** [polyline.decode] *)
Variable polyline_decode : json -> outcome (list (Q * Q)).

(** The text of a float inside an f-string. *)
Variable str_float : Q -> string.

Definition osrm_url (user_lat user_lon store_lat store_lon : Q)
  (mode : string) : string :=
  "http://router.project-osrm.org/route/v1/" ++ mode ++ "/"
    ++ str_float user_lon ++ "," ++ str_float user_lat ++ ";"
    ++ str_float store_lon ++ "," ++ str_float store_lat
    ++ "?overview=full".

(** [requests.get(url, timeout=10)] followed by [response.json()] *)
Definition requests_get_json (url : string) : M json :=
  fun log =>
    let req := {| req_method := "GET"; req_url := url; req_timeout := 10 |} in
    match http_get log req with
    | NetworkError => (Raise (OtherError "RequestException"), (log ++ [req])%list)
    | Response None => (Raise ValueError, (log ++ [req])%list)
    | Response (Some data) => (Ret data, (log ++ [req])%list)
    end.

(** The [if] of the [try] block; [None] when its condition is false. *)
Definition read_route (data : json) : outcome (option route_data) :=
  (has_routes <- py_contains "routes" data ;;
   if has_routes then
     routes <- py_getitem data "routes" ;;
     n <- py_len routes ;;
     if 0 <? n then
       route <- py_first routes ;;
       duration_seconds <- py_getitem route "duration" ;;
       distance_meters <- py_getitem route "distance" ;;
       geometry <- py_getitem route "geometry" ;;
       minutes <- py_truediv duration_seconds 60 ;;
       duration_minutes <- py_int_float minutes ;;
       kilometers <- py_truediv distance_meters 1000 ;;
       route_points <- polyline_decode geometry ;;
       Ret (Some (RouteSuccess duration_minutes (py_round2_float kilometers)
                               route_points))
     else Ret None
   else Ret None)%out.

(** [get_route_info(user_lat, user_lon, store_lat, store_lon, mode)];
    [mode = None] stands for a call that leaves [mode] out. *)
Definition get_route_info (user_lat user_lon store_lat store_lon : Q)
  (mode : option string) : M route_data :=
  (r <- try_except_pass
          (data <- requests_get_json
                     (osrm_url user_lat user_lon store_lat store_lon
                        (match mode with Some m => m | None => default_mode end)) ;;
           lift (read_route data)) ;;
   match r with
   | Some (Some info) => mret info
   | _ => mret RouteFailure
   end)%req.

End Routing.

(* ------------------------------------------------------------------ *)
(** ** The map and the list of nearest stores *)

(** The text of a popup, kept as its parts. [popup_route] is the travel
    time and route length that [route_info] shows, when it is not empty. *)
Inductive popup : Type :=
| PlainPopup (text : string)
| StorePopup (name addr phone : string) (distance : option Q)
             (popup_route : option (Z * pyfloat)).

Inductive map_item : Type :=
| Marker (location : Q * Q) (content : popup) (tooltip : string)
         (icon_color icon : string)
| PolyLine (points : list (Q * Q)) (weight : Z) (color : string)
           (opacity : Q) (tooltip : string).

Record folium_map : Type := mkMap {
  map_location : Q * Q;
  zoom_start : Z;
  children : list map_item
}.

Definition colors : list string :=
  ["green"; "blue"; "purple"; "orange"; "darkred"; "lightred"; "beige";
   "darkblue"; "darkgreen"; "cadetblue"].

(** [colors[i % len(colors)]] *)
Definition color_of (i : nat) : string :=
  nth (i mod List.length colors) colors "".

(** One line of the list of nearest stores. *)
Record listing_entry : Type := mkEntry {
  entry_index : nat;
  entry_store : store;
  entry_distance : Q;
  entry_route : route_data
}.

(** [folium.PolyLine(locations, weight=..., color=..., opacity=...,
    tooltip=...)]: folium validates the locations and raises [ValueError]
    when there are none. *)
Definition folium_PolyLine (locations : list (Q * Q)) (weight : Z)
  (color : string) (opacity : Q) (tooltip : string) : outcome map_item :=
  match locations with
  | [] => Raise ValueError
  | _ :: _ => Ret (PolyLine locations weight color opacity tooltip)
  end.

Section Presentation.

Variable ask_db : string -> outcome string.
Variable geodesic : Q * Q -> Q * Q -> outcome Q.
Variable http_get : list request -> request -> http_outcome.
Variable polyline_decode : json -> outcome (list (Q * Q)).
Variable str_float : Q -> string.

(** The loop [for i, store in enumerate(stores)] of [create_map]. *)
Fixpoint create_map_loop (user_lat user_lon : Q) (show_routes : bool)
  (i : nat) (stores : list store) (m : list map_item) : M (list map_item) :=
  match stores with
  | [] => mret m
  | store :: rest =>
      let store_lat := latitude store in
      let store_lon := longitude store in
      (r <- (if show_routes && (i <? 3)%nat then
               route_data <- get_route_info http_get polyline_decode str_float
                               user_lat user_lon store_lat store_lon None ;;
               match route_data with
               | RouteSuccess minutes km points =>
                   line <- lift (folium_PolyLine points 4 (color_of i)
                                   (8 # 10)
                                   ("Route to " ++ store_name store)) ;;
                   mret (Some (minutes, km), (m ++ [line])%list)
               | RouteFailure => mret (None, m)
               end
             else mret (None, m)) ;;
       create_map_loop user_lat user_lon show_routes (S i) rest
         (snd r ++ [Marker (store_lat, store_lon)
                      (StorePopup (store_name store) (address store)
                         (phone_number store) (distance_km store) (fst r))
                      (store_name store) (color_of i) "plus"])%list)%req
  end.

(** [create_map(user_lat, user_lon, stores, zoom, show_routes)] *)
Definition create_map (user_lat user_lon : Q) (stores : option (list store))
  (zoom : Z) (show_routes : bool) : M folium_map :=
  (stores1 <- match stores with
              | Some l => mret l
              | None => lift (get_stores_with_location ask_db)
              end ;;
   items <- create_map_loop user_lat user_lon show_routes 0 stores1
              [Marker (user_lat, user_lon) (PlainPopup "Your Location")
                 "You are here" "red" "user"] ;;
   mret {| map_location := (user_lat, user_lon);
           zoom_start := zoom;
           children := items |})%req.

(** The loop [for i, store in enumerate(nearest_stores, 1)] of [main]. *)
Fixpoint nearest_listing (user_lat user_lon : Q) (i : nat)
  (nearest_stores : list store) : M (list listing_entry) :=
  match nearest_stores with
  | [] => mret []
  | store :: rest =>
      (route_data <- get_route_info http_get polyline_decode str_float
                       user_lat user_lon (latitude store) (longitude store)
                       None ;;
       d <- lift (get_distance_km store) ;;
       entries <- nearest_listing user_lat user_lon (S i) rest ;;
       mret ({| entry_index := i; entry_store := store;
                entry_distance := d; entry_route := route_data |}
             :: entries))%req
  end.

(** What one run of [main] shows for a known user location: the map of the
    left column and the list of the right column. The three buttons under
    them are left out. *)
Definition main (user_lat user_lon : Q) (show_all show_routes : bool)
  (nearest_count : Z) : M (folium_map * list listing_entry) :=
  (map_obj <- (if show_all then
                 stores <- lift (get_stores_with_location ask_db) ;;
                 stores1 <- lift (add_distances geodesic user_lat user_lon stores) ;;
                 stores2 <- lift (py_sort get_distance_km stores1) ;;
                 create_map user_lat user_lon (Some stores2) 12 show_routes
               else
                 nearest_stores <- lift (find_nearest_stores ask_db geodesic
                                           user_lat user_lon nearest_count) ;;
                 create_map user_lat user_lon (Some nearest_stores) 12
                   show_routes) ;;
   nearest_stores <- lift (find_nearest_stores ask_db geodesic
                             user_lat user_lon nearest_count) ;;
   entries <- nearest_listing user_lat user_lon 1 nearest_stores ;;
   mret (map_obj, entries))%req.

End Presentation.

(* ------------------------------------------------------------------ *)
(** ** Vocabulary of the statements *)

(** Order and classes of the decorated elements of a sort. *)
Definition key_le {A} (a b : Q * A) : Prop := (fst a <= fst b)%Q.

Definition key_is {A} (d : Q) (a : Q * A) : bool := Qeq_bool (fst a) d.

(** The distance a ranked store carries (0 when the key is absent). *)
Definition km (s : store) : Q :=
  match distance_km s with
  | Some d => d
  | None => 0
  end.

Definition by_distance (a b : store) : Prop := (km a <= km b)%Q.

Definition same_km (d : Q) (s : store) : bool := Qeq_bool (km s) d.

(** [geodesic] returns a distance from the origin to every store. *)
Definition distances_defined (geodesic : Q * Q -> Q * Q -> outcome Q)
  (user_lat user_lon : Q) (stores : list store) : Prop :=
  Forall (fun s => exists d,
            geodesic (user_lat, user_lon) (latitude s, longitude s) = Ret d)
         stores.

(** [s'] is [s] with the rounded distance from the origin added. *)
Definition annotated (geodesic : Q * Q -> Q * Q -> outcome Q)
  (user_lat user_lon : Q) (s s' : store) : Prop :=
  exists d, geodesic (user_lat, user_lon) (latitude s, longitude s) = Ret d
            /\ s' = set_distance_km s (py_round2 d).

(** The degree ranges of a coordinate. *)
Definition valid_coordinate (lat lon : Q) : Prop :=
  (-(90) <= lat /\ lat <= 90 /\ -(180) <= lon /\ lon <= 180)%Q.

(** Of two stores at the same distance the one with the smaller
    [store_id] comes first. *)
Definition ties_by_store_id (ranked : list store) : Prop :=
  forall (i j : nat) (a b : store),
    nth_error ranked i = Some a -> nth_error ranked j = Some b ->
    (km a == km b)%Q -> store_id a < store_id b -> (i < j)%nat.

(** A response of the shape
    [{"routes": [{"duration": d, "distance": m, "geometry": g}, ...]}]. *)
Definition well_formed_response (data : json)
  (duration distance geometry : json) : Prop :=
  exists fields route_fields rest,
    data = JObj fields
    /\ lookup_field "routes" fields = Some (JArr (JObj route_fields :: rest))
    /\ lookup_field "duration" route_fields = Some duration
    /\ lookup_field "distance" route_fields = Some distance
    /\ lookup_field "geometry" route_fields = Some geometry.

(** A JSON number and its value: an [int], a finite non-zero [float] (a
    binary64 value), or the float zero. *)
Inductive json_number : json -> Q -> Prop :=
| number_int (z : Z) : json_number (JInt z) (inject_Z z)
| number_float (v : Q) :
    fround v = FNum v -> json_number (JFloat (FNum v)) v
| number_zero : json_number (JFloat (FZero false)) 0.

(** A body without a usable ["routes"] entry: not an object, or an object
    in which ["routes"] is absent or the empty list. *)
Definition lacks_routes (data : json) : bool :=
  match data with
  | JObj fields =>
      match lookup_field "routes" fields with
      | None => true
      | Some (JArr []) => true
      | Some _ => false
      end
  | _ => true
  end.

(** The routing service gave nothing that can be read as a route. *)
Definition route_unavailable (r : http_outcome) : bool :=
  match r with
  | NetworkError => true
  | Response None => true
  | Response (Some data) => lacks_routes data
  end.

(** The route shown in the popup of every store marker, in map order. *)
Fixpoint marker_routes (items : list map_item)
  : list (option (Z * pyfloat)) :=
  match items with
  | [] => []
  | Marker _ (StorePopup _ _ _ _ r) _ _ _ :: rest => r :: marker_routes rest
  | _ :: rest => marker_routes rest
  end.

(** The number of stores, from the one at index [i] on, for which
    [create_map] asks for a route. *)
Definition routed (show_routes : bool) (i : nat) : nat :=
  if show_routes then 3 - i else 0.

(** The request of [get_route_info] for the route to a store, in the
    default mode. *)
Definition route_request (str_float : Q -> string) (user_lat user_lon : Q)
  (s : store) : request :=
  {| req_method := "GET";
     req_url := osrm_url str_float user_lat user_lon
                  (latitude s) (longitude s) default_mode;
     req_timeout := 10 |}.

(** The service answers the request with a route whose path decodes to no
    point at all. *)
Definition empty_route (http_get : list request -> request -> http_outcome)
  (polyline_decode : json -> outcome (list (Q * Q)))
  (log : list request) (req : request) : Prop :=
  exists data minutes route_km,
    http_get log req = Response (Some data)
    /\ read_route polyline_decode data
       = Ret (Some (RouteSuccess minutes route_km [])).

(** No answer of the service is a route without points. *)
Definition routes_have_points
  (http_get : list request -> request -> http_outcome)
  (polyline_decode : json -> outcome (list (Q * Q))) : Prop :=
  forall log req, ~ empty_route http_get polyline_decode log req.

(* ------------------------------------------------------------------ *)
(** ** The great-circle distance of the specification

    [geopy.distance.geodesic] is not code of this repository. The
    specification asks of the distance "a standard great-circle (geodesic)
    distance formula", the "shortest distance between two points on a
    sphere approximating the Earth"; the definitions below follow these
    words, on real numbers, with the radius of the sphere left open. *)

(** Modelled from the spec: degrees as radians. *)
Definition radians (degrees : R) : R := (degrees * PI / 180)%R.

(** Modelled from the spec: the haversine of an angle,
    [sin(x / 2) ^ 2]. *)
Definition haversine (x : R) : R := Rsqr (sin (x / 2)).

(** Modelled from the spec: the great-circle distance, by the haversine
    formula, between two points given by latitude and longitude in
    degrees, on a sphere of the given radius; in the unit of the radius. *)
Definition great_circle (radius : R) (a b : R * R) : outcome R :=
  let lat1 := radians (fst a) in
  let lon1 := radians (snd a) in
  let lat2 := radians (fst b) in
  let lon2 := radians (snd b) in
  Ret (2 * radius
       * asin (sqrt (haversine (lat2 - lat1)
                     + cos lat1 * cos lat2 * haversine (lon2 - lon1))))%R.

(* ------------------------------------------------------------------ *)
(** ** Stand-ins for the third-party routines

    Concrete functions on which the model runs; they fix one possible
    behaviour of each routine and are used in examples only. *)

Definition Qabs_diff (x y : Q) : Q :=
  if Qle_bool x y then (y - x)%Q else (x - y)%Q.

(** Rejects a latitude outside [-90, 90], accepts every longitude, and
    measures 111 km per degree along both axes. *)
Definition flat_geodesic (a b : Q * Q) : outcome Q :=
  if Qle_bool (-(90)) (fst a) && Qle_bool (fst a) 90
     && Qle_bool (-(90)) (fst b) && Qle_bool (fst b) 90
  then Ret (111 * (Qabs_diff (fst a) (fst b) + Qabs_diff (snd a) (snd b)))%Q
  else Raise ValueError.

Definition silent_agent (request : string) : outcome string := Ret "".

Definition verbose_agent (request : string) : outcome string :=
  Ret "[(3, 'Apollo Pharmacy', 'Aundh', 18.56, 73.81, '0000000000')]".

(** Accepts every string as an encoded path of no points. *)
Definition empty_polyline (geometry : json) : outcome (list (Q * Q)) :=
  match geometry with
  | JStr _ => Ret []
  | _ => Raise TypeError
  end.

(** Reads every string as a path of two points. *)
Definition two_point_polyline (geometry : json) : outcome (list (Q * Q)) :=
  match geometry with
  | JStr _ => Ret [(385 # 10, -1202 # 10); (407 # 10, -12095 # 100)]
  | _ => Raise TypeError
  end.

(** Writes a float with six decimals, as ["73.793400"]. *)
Definition fixed_text (x : Q) : string :=
  let n := Qfloor (Qabs x * 1000000) in
  let frac := NilZero.string_of_uint (N.to_uint (Z.to_N (1000000 + n mod 1000000))) in
  (if Qlt_bool x 0 then "-" else "")
    ++ NilZero.string_of_uint (N.to_uint (Z.to_N (n / 1000000))) ++ "."
    ++ String.substring 1 6 frac.

(** The synthetic response of the specification, for an encoded path. *)
Definition synthetic_response (encoded_path : string) : json :=
  JObj [("routes",
         JArr [JObj [("duration", JInt 600);
                     ("distance", JInt 5000);
                     ("geometry", JStr encoded_path)]])].

Definition service_up (log : list request) (req : request) : http_outcome :=
  Response (Some (synthetic_response "_p~iF~ps|U_ulLnnqC_mqNvxq`@")).

Definition service_down (log : list request) (req : request) : http_outcome :=
  NetworkError.

(** Answers with a route of 1015 meters and a very long duration. *)
Definition service_odd_numbers (log : list request) (req : request)
  : http_outcome :=
  Response (Some (JObj [("routes",
     JArr [JObj [("duration", JInt 17681883392849879);
                 ("distance", JInt 1015);
                 ("geometry", JStr "_p~iF~ps|U_ulLnnqC_mqNvxq`@")]])])).

(** Answers with float numbers. *)
Definition service_floats (log : list request) (req : request)
  : http_outcome :=
  Response (Some (JObj [("code", JStr "Ok");
     ("routes",
      JArr [JObj [("geometry", JStr "_p~iF~ps|U_ulLnnqC_mqNvxq`@");
                  ("duration", JFloat (FNum (2401 # 2)));
                  ("distance", JFloat (FNum (20305 # 4)))]])])).

(** Answers with a body that is not JSON. *)
Definition service_garbled (log : list request) (req : request)
  : http_outcome :=
  Response None.

Definition service_no_route (log : list request) (req : request)
  : http_outcome :=
  Response (Some (JObj [("code", JStr "NoRoute"); ("routes", JArr [])])).

(** A ranked list of ten stores, 1 km apart. *)
Definition ten_stores : list store :=
  map (fun n : nat =>
         {| store_id := Z.of_nat n;
            store_name := "Store";
            address := "Baner, Pune";
            latitude := 18558091 # 1000000;
            longitude := 73793439 # 1000000;
            phone_number := "0000000000";
            distance_km := Some (inject_Z (Z.of_nat n)) |})
      (seq 1 10).

(** Two stores at one place, the larger [store_id] listed first. *)
Definition twin_stores : list store :=
  [ {| store_id := 2; store_name := "B"; address := "Baner Rd";
       latitude := 18558091 # 1000000; longitude := 73793439 # 1000000;
       phone_number := "2"; distance_km := None |};
    {| store_id := 1; store_name := "A"; address := "Baner Rd";
       latitude := 18558091 # 1000000; longitude := 73793439 # 1000000;
       phone_number := "1"; distance_km := None |} ].

(* ------------------------------------------------------------------ *)
(** ** The rest of [map_agent_auto.py] *)

(** [l[0]] *)
Definition py_index0 {A} (l : list A) : outcome A :=
  match l with
  | a :: _ => Ret a
  | [] => Raise IndexError
  end.

(** The handler of the button "Find Nearest Store" of [main]:
    [nearest = find_nearest_stores(user_lat, user_lon, 1)[0]], of which the
    name and the distance are shown. *)
Definition find_nearest_button (ask_db : string -> outcome string)
  (geodesic : Q * Q -> Q * Q -> outcome Q) (user_lat user_lon : Q)
  : outcome (string * Q) :=
  (ranked <- find_nearest_stores ask_db geodesic user_lat user_lon 1 ;;
   nearest <- py_index0 ranked ;;
   d <- get_distance_km nearest ;;
   Ret (store_name nearest, d))%out.

(** The marker of the user. *)
Definition user_marker (user_lat user_lon : Q) : map_item :=
  Marker (user_lat, user_lon) (PlainPopup "Your Location") "You are here"
    "red" "user".

(** The markers of stores drawn without a route, from index [i] on. *)
Fixpoint plain_markers (i : nat) (stores : list store) : list map_item :=
  match stores with
  | [] => []
  | s :: rest =>
      Marker (latitude s, longitude s)
        (StorePopup (store_name s) (address s) (phone_number s)
           (distance_km s) None)
        (store_name s) (color_of i) "plus"
      :: plain_markers (S i) rest
  end.

Fixpoint polyline_count (items : list map_item) : nat :=
  match items with
  | [] => 0
  | PolyLine _ _ _ _ _ :: rest => S (polyline_count rest)
  | _ :: rest => polyline_count rest
  end.

Fixpoint marker_count (items : list map_item) : nat :=
  match items with
  | [] => 0
  | Marker _ _ _ _ _ :: rest => S (marker_count rest)
  | _ :: rest => marker_count rest
  end.

(** The number of popups that show a route. *)
Fixpoint routes_shown (routes : list (option (Z * pyfloat))) : nat :=
  match routes with
  | [] => 0
  | Some _ :: rest => S (routes_shown rest)
  | None :: rest => routes_shown rest
  end.

(* ------------------------------------------------------------------ *)
(** ** [sql_tool.py] *)

(** What the database does with a statement inside the [with] block: it
    completes, raises an exception of the [Exception] hierarchy whose text
    [str(e)] is [message], or raises one outside that hierarchy
    ([KeyboardInterrupt], [SystemExit]). *)
Inductive db_outcome (A : Type) : Type :=
| Completed (a : A)
| Failed (message : string)
| Aborted (e : exn).

Arguments Completed {A} a.
Arguments Failed {A} message.
Arguments Aborted {A} e.

(** [str] of a list whose elements have the given [repr]. *)
Definition py_str_list (items : list string) : string :=
  "[" ++ String.concat ", " items ++ "]".

Section SqlTool.

(** A row of a result, and its [repr]. *)
Variable row : Type.
Variable repr_row : row -> string.

(** [engine.connect()], [conn.execute(text(query))], [result.fetchall()] *)
Variable fetch_rows : string -> db_outcome (list row).

(** [engine.begin()], [conn.execute(text(query))] and the end of the
    transaction. *)
Variable execute_in_transaction : string -> db_outcome unit.

Definition sql_query (query : string) : outcome string :=
  match fetch_rows query with
  | Completed rows => Ret (py_str_list (map repr_row rows))
  | Failed message => Ret ("SQL Error: " ++ message)
  | Aborted e => Raise e
  end.

Definition sql_execute (query : string) : outcome string :=
  match execute_in_transaction query with
  | Completed _ => Ret "Query executed successfully."
  | Failed message => Ret ("Execution Error: " ++ message)
  | Aborted e => Raise e
  end.

End SqlTool.

(* ------------------------------------------------------------------ *)
(** ** [medicalbot.py]: the image as base64 text *)

Definition base64_alphabet : string :=
  "ABCDEFGHIJKLMNOPQRSTUVWXYZabcdefghijklmnopqrstuvwxyz0123456789+/".

Definition pad_char : ascii := "="%char.

(** The character of a 6-bit value. *)
Definition sextet_char (k : N) : ascii :=
  match String.get (N.to_nat k) base64_alphabet with
  | Some c => c
  | None => pad_char
  end.

(** [base64.b64encode]: three bytes become four characters; a last group
    of one or two bytes is padded with [=]. *)
Fixpoint b64encode (data : list byte) : string :=
  match data with
  | [] => ""
  | [b0] =>
      let n0 := Byte.to_N b0 in
      String (sextet_char (n0 / 4))
        (String (sextet_char (n0 mod 4 * 16))
           (String pad_char (String pad_char "")))
  | [b0; b1] =>
      let n0 := Byte.to_N b0 in
      let n1 := Byte.to_N b1 in
      String (sextet_char (n0 / 4))
        (String (sextet_char (n0 mod 4 * 16 + n1 / 16))
           (String (sextet_char (n1 mod 16 * 4))
              (String pad_char "")))
  | b0 :: b1 :: b2 :: rest =>
      let n0 := Byte.to_N b0 in
      let n1 := Byte.to_N b1 in
      let n2 := Byte.to_N b2 in
      String (sextet_char (n0 / 4))
        (String (sextet_char (n0 mod 4 * 16 + n1 / 16))
           (String (sextet_char (n1 mod 16 * 4 + n2 / 64))
              (String (sextet_char (n2 mod 64)) (b64encode rest))))
  end.

Section ImageText.

(** [bytes.decode("utf-8")] *)
Variable decode_utf8 : string -> outcome string.

(** [image_to_base64(upload)]; [upload] is the content that
    [upload.read()] gives, or [None]. *)
Definition image_to_base64 (upload : option (list byte))
  : outcome (option string) :=
  match upload with
  | None => Ret None
  | Some data =>
      (text <- decode_utf8 (b64encode data) ;; Ret (Some text))%out
  end.

End ImageText.

(* ------------------------------------------------------------------ *)
(** ** [medicalbot.py]: one run of the script *)

Inductive part : Type :=
| InputText (text : string)
| InputImage (image_url : string).

Inductive message_content : Type :=
| Text (text : string)
| Parts (parts : list part).

Record message : Type := mkMessage {
  role : string;
  content : message_content
}.

(** [st.session_state] and the inputs the agent has been invoked with. *)
Record session : Type := mkSession {
  messages : list message;
  extracted_text : option string;
  invocations : list (list message)
}.

Definition Script (A : Type) : Type := session -> outcome A * session.

(** The truth value of a string. *)
Definition truthy (s : string) : bool := negb (String.eqb s "").

(** [l[-1]] *)
Definition py_last {A} (l : list A) : outcome A :=
  match rev l with
  | a :: _ => Ret a
  | [] => Raise IndexError
  end.

(** The text of a value inside an f-string. *)
Definition fmt_optional (v : option string) : string :=
  match v with
  | Some s => s
  | None => "None"
  end.

Definition user_message (text : string) : message :=
  {| role := "user"; content := Text text |}.

Definition assistant_message (text : string) : message :=
  {| role := "assistant"; content := Text text |}.

Definition system_message (extracted : string) : message :=
  {| role := "system";
     content := Text ("Use this extracted prescription/medicine info for reasoning:"
                        ++ String (ascii_of_nat 10) extracted) |}.

Definition vision_prompt (img_b64 : option string) : list message :=
  [ user_message "Extract and understand this medical image.";
    {| role := "user";
       content := Parts [InputText "Analyze this image.";
                         InputImage ("data:image/jpeg;base64,"
                                       ++ fmt_optional img_b64)] |} ].

Definition initial_session : session :=
  {| messages := []; extracted_text := None; invocations := [] |}.

Section Chatbot.

Variable decode_utf8 : string -> outcome string.

(** [agent.invoke(input, config)]: the texts of the messages of the result,
    given the inputs of the earlier invocations (the agent keeps its own
    memory of the thread). *)
Variable agent_invoke : list (list message) -> list message
                        -> outcome (list string).

(** [agent.invoke(...)["messages"][-1].content] *)
Definition agent_reply (input : list message) : Script string :=
  fun w =>
    ((replies <- agent_invoke (invocations w) input ;; py_last replies)%out,
     {| messages := messages w;
        extracted_text := extracted_text w;
        invocations := (invocations w ++ [input])%list |}).

(** Section 5 of the script: the uploaded image. *)
Definition process_upload (uploaded_img : option (list byte)) : Script unit :=
  fun w =>
    match uploaded_img with
    | None => (Ret tt, w)
    | Some data =>
        match image_to_base64 decode_utf8 (Some data) with
        | Raise e => (Raise e, w)
        | Ret img_b64 =>
            match extracted_text w with
            | Some _ => (Ret tt, w)
            | None =>
                match agent_reply (vision_prompt img_b64) w with
                | (Ret text, w') =>
                    (Ret tt,
                     {| messages := messages w';
                        extracted_text := Some text;
                        invocations := invocations w' |})
                | (Raise e, w') => (Raise e, w')
                end
            end
        end
    end.

(** The messages sent for a prompt: the extracted text, when there is one,
    then the history. *)
Definition final_input (w : session) : list message :=
  ((match extracted_text w with
    | Some extracted => if truthy extracted then [system_message extracted]
                        else []
    | None => []
    end) ++ messages w)%list.

(** Section 6 of the script: the chat. *)
Definition process_prompt (prompt : option string) : Script unit :=
  fun w =>
    match prompt with
    | None => (Ret tt, w)
    | Some p =>
        if truthy p then
          let w1 := {| messages := (messages w ++ [user_message p])%list;
                       extracted_text := extracted_text w;
                       invocations := invocations w |} in
          match agent_reply (final_input w1) w1 with
          | (Ret answer, w2) =>
              (Ret tt,
               {| messages := (messages w2 ++ [assistant_message answer])%list;
                  extracted_text := extracted_text w2;
                  invocations := invocations w2 |})
          | (Raise e, w2) => (Raise e, w2)
          end
        else (Ret tt, w)
    end.

(** One run of the script, for the image and the prompt of that run. *)
Definition script (uploaded_img : option (list byte))
  (prompt : option string) : Script unit :=
  fun w =>
    match process_upload uploaded_img w with
    | (Ret _, w1) => process_prompt prompt w1
    | (Raise e, w1) => (Raise e, w1)
    end.

(** The session after a sequence of runs; the state survives a run that
    ends in an exception. *)
Definition run_session (events : list (option (list byte) * option string))
  (w : session) : session :=
  fold_left (fun w ev => snd (script (fst ev) (snd ev) w)) events w.

End Chatbot.

(* ------------------------------------------------------------------ *)
(** ** Vocabulary of the further statements *)

Fixpoint index_of (c : ascii) (s : string) (i : N) : option N :=
  match s with
  | EmptyString => None
  | String c' s' => if Ascii.eqb c c' then Some i else index_of c s' (i + 1)
  end.

(** The 6-bit value of a character of the alphabet. *)
Definition char_sextet (c : ascii) : option N := index_of c base64_alphabet 0.

(** The inverse of [b64encode]: the bytes of a padded base64 text. *)
Fixpoint b64decode (s : string) : option (list byte) :=
  match s with
  | EmptyString => Some []
  | String c0 (String c1 (String c2 (String c3 rest))) =>
      match char_sextet c0, char_sextet c1 with
      | Some k0, Some k1 =>
          match Byte.of_N (k0 * 4 + k1 / 16) with
          | None => None
          | Some b0 =>
              if Ascii.eqb c2 pad_char then
                if Ascii.eqb c3 pad_char
                then match rest with EmptyString => Some [b0] | _ => None end
                else None
              else
                match char_sextet c2 with
                | None => None
                | Some k2 =>
                    match Byte.of_N (k1 mod 16 * 16 + k2 / 4) with
                    | None => None
                    | Some b1 =>
                        if Ascii.eqb c3 pad_char then
                          match rest with
                          | EmptyString => Some [b0; b1]
                          | _ => None
                          end
                        else
                          match char_sextet c3 with
                          | None => None
                          | Some k3 =>
                              match Byte.of_N (k2 mod 4 * 64 + k3),
                                    b64decode rest with
                              | Some b2, Some bs => Some (b0 :: b1 :: b2 :: bs)
                              | _, _ => None
                              end
                          end
                    end
                end
          end
      | _, _ => None
      end
  | _ => None
  end.

Fixpoint string_forallb (p : ascii -> bool) (s : string) : bool :=
  match s with
  | EmptyString => true
  | String c s' => p c && string_forallb p s'
  end.

Definition is_ascii_char (c : ascii) : bool := N.ltb (N_of_ascii c) 128.

(** A text of 7-bit characters only. *)
Definition is_ascii_text (s : string) : bool := string_forallb is_ascii_char s.

Definition sextets : list N := map N.of_nat (seq 0 64).

(** A history of complete turns: each prompt followed by its answer. *)
Fixpoint turns (pairs : list (string * string)) : list message :=
  match pairs with
  | [] => []
  | (p, a) :: rest => user_message p :: assistant_message a :: turns rest
  end.

(** A message as the chat stores it: from the user or the assistant, with a
    text. *)
Definition chat_message (m : message) : Prop :=
  (role m = "user" \/ role m = "assistant") /\ exists t, content m = Text t.

(** The prompts of a sequence of runs that start a turn. *)
Fixpoint prompts_of (events : list (option (list byte) * option string))
  : list string :=
  match events with
  | [] => []
  | (_, Some p) :: rest =>
      if truthy p then p :: prompts_of rest else prompts_of rest
  | (_, None) :: rest => prompts_of rest
  end.

(** What the chat stores: a prompt that was typed, as a message of the
    user, or an answer, as a message of the assistant. *)
Definition stored_by_chat (prompts : list string) (m : message) : Prop :=
  (exists p, In p prompts /\ m = user_message p)
  \/ (exists answer, m = assistant_message answer).

(** Stand-ins: a decoder that accepts 7-bit text and rejects the rest, an
    agent that answers with one fixed text, an agent that fails, and a
    database with one table of numbers. *)
Definition ascii_decoder (s : string) : outcome string :=
  if is_ascii_text s then Ret s else Raise ValueError.

Definition echo_agent (history : list (list message)) (input : list message)
  : outcome (list string) :=
  Ret ["Paracetamol 500 mg"].

Definition failing_agent (history : list (list message))
  (input : list message) : outcome (list string) :=
  Raise (OtherError "APIConnectionError").

Definition number_table (query : string) : db_outcome (list Z) :=
  if String.eqb query "SELECT price FROM medicines"
  then Completed [120; 45]
  else Failed "(1064) You have an error in your SQL syntax".

Definition read_only_database (query : string) : db_outcome unit :=
  Failed "(1142) INSERT command denied".

Definition repr_Z (z : Z) : string := NilZero.string_of_int (Z.to_int z).

(* ================================================================== *)
(** * Properties *)

(** ** Outcomes and loops *)

Lemma omap_Forall2 {A B} (f : A -> outcome B) (R : A -> B -> Prop) :
  forall l : list A,
    Forall (fun a => exists b, f a = Ret b /\ R a b) l ->
    exists bs, omap f l = Ret bs /\ Forall2 R l bs.
Proof.
  induction l as [|a l IH]; intros H.
  - exists []. split; [reflexivity | constructor].
  - inversion H as [|? ? [b [Hb HR]] Hl]; subst.
    destruct (IH Hl) as [bs [Hbs HF]].
    exists (b :: bs). simpl. rewrite Hb. simpl. rewrite Hbs. simpl.
    split; [reflexivity | constructor; assumption].
Qed.

Lemma omap_total {A B} (f : A -> outcome B) (g : A -> B) :
  forall l : list A,
    Forall (fun a => f a = Ret (g a)) l -> omap f l = Ret (map g l).
Proof.
  induction l as [|a l IH]; intros H; simpl.
  - reflexivity.
  - inversion H; subst. rewrite H2. simpl. rewrite IH by assumption.
    reflexivity.
Qed.

Lemma omap_raises {A B} (f : A -> outcome B) :
  forall (l : list A) (e : exn),
    omap f l = Raise e -> exists a, In a l /\ f a = Raise e.
Proof.
  induction l as [|a l IH]; intros e H; simpl in H.
  - discriminate.
  - destruct (f a) as [b|e'] eqn:Ha; simpl in H.
    + destruct (omap f l) as [bs|e''] eqn:Hl; simpl in H; try discriminate.
      inversion H; subst. destruct (IH e eq_refl) as [a' [Hin Hf]].
      exists a'. split; [right; assumption | assumption].
    + inversion H; subst. exists a. split; [left; reflexivity | assumption].
Qed.

(** ** Comparison of distances *)

Lemma Qlt_bool_true (x y : Q) : Qlt_bool x y = true -> (x < y)%Q.
Proof.
  unfold Qlt_bool. intros H. apply negb_true_iff in H.
  apply Qnot_le_lt. intros Hle. apply Qle_bool_iff in Hle. congruence.
Qed.

Lemma Qlt_bool_false (x y : Q) : Qlt_bool x y = false -> (y <= x)%Q.
Proof.
  unfold Qlt_bool. intros H. apply negb_false_iff in H.
  apply Qle_bool_iff. assumption.
Qed.

(** ** The stable sort *)

Section SortKeyed.

Variable A : Type.

Lemma insert_keyed_perm (x : Q * A) :
  forall l, Permutation (x :: l) (insert_keyed x l).
Proof.
  induction l as [|y l IH]; simpl.
  - apply Permutation_refl.
  - destruct (Qlt_bool (fst y) (fst x)).
    + eapply perm_trans; [apply perm_swap|]. apply perm_skip. exact IH.
    + apply Permutation_refl.
Qed.

Lemma sort_keyed_perm : forall l : list (Q * A), Permutation l (sort_keyed l).
Proof.
  induction l as [|x l IH]; simpl.
  - constructor.
  - eapply perm_trans; [apply perm_skip; exact IH|]. apply insert_keyed_perm.
Qed.

Lemma insert_keyed_sorted (x : Q * A) :
  forall l, StronglySorted key_le l -> StronglySorted key_le (insert_keyed x l).
Proof.
  induction l as [|y l IH]; intros Hs; simpl.
  - repeat constructor.
  - inversion Hs as [|? ? Hl Hy]; subst.
    destruct (Qlt_bool (fst y) (fst x)) eqn:Hc.
    + constructor; [apply IH; assumption|].
      eapply Permutation_Forall; [apply insert_keyed_perm|].
      constructor; [|assumption].
      unfold key_le. apply Qlt_le_weak. apply Qlt_bool_true. assumption.
    + apply Qlt_bool_false in Hc.
      constructor; [assumption|].
      constructor; [exact Hc|].
      eapply Forall_impl; [|exact Hy].
      intros z Hz. unfold key_le in *. eapply Qle_trans; eassumption.
Qed.

Lemma sort_keyed_sorted : forall l : list (Q * A), StronglySorted key_le (sort_keyed l).
Proof.
  induction l as [|x l IH]; simpl.
  - constructor.
  - apply insert_keyed_sorted. assumption.
Qed.

(** Insertion never moves an element past one of the same key. *)
Lemma insert_keyed_stable (d : Q) (x : Q * A) :
  forall l, filter (key_is d) (insert_keyed x l) = filter (key_is d) (x :: l).
Proof.
  induction l as [|y l IH]; simpl.
  - reflexivity.
  - destruct (Qlt_bool (fst y) (fst x)) eqn:Hc; [|reflexivity].
    simpl. rewrite IH. simpl.
    destruct (key_is d x) eqn:Hx; [|reflexivity].
    destruct (key_is d y) eqn:Hy; [|reflexivity].
    exfalso. unfold key_is in *.
    apply Qeq_bool_iff in Hx. apply Qeq_bool_iff in Hy.
    apply Qlt_bool_true in Hc. rewrite Hx, Hy in Hc.
    exact (Qlt_irrefl _ Hc).
Qed.

Lemma sort_keyed_stable (d : Q) :
  forall l : list (Q * A), filter (key_is d) (sort_keyed l) = filter (key_is d) l.
Proof.
  induction l as [|x l IH]; simpl.
  - reflexivity.
  - rewrite insert_keyed_stable. simpl. rewrite IH. reflexivity.
Qed.

End SortKeyed.

(** ** Sorting the stores on their distance *)

Lemma StronglySorted_map {A B} (R : A -> A -> Prop) (R' : B -> B -> Prop)
  (f : A -> B) :
  (forall a b, R a b -> R' (f a) (f b)) ->
  forall l, StronglySorted R l -> StronglySorted R' (map f l).
Proof.
  intros HR. induction 1 as [|a l Hs IH Ha]; simpl; constructor.
  - assumption.
  - apply Forall_map. eapply Forall_impl; [|exact Ha]. intros b. apply HR.
Qed.

Lemma StronglySorted_firstn {A} (R : A -> A -> Prop) :
  forall (n : nat) (l : list A),
    StronglySorted R l -> StronglySorted R (firstn n l).
Proof.
  induction n as [|n IH]; intros l Hs; simpl.
  - constructor.
  - destruct l as [|a l]; [constructor|].
    inversion Hs; subst. constructor; [apply IH; assumption|].
    apply Forall_forall. intros b Hb.
    match goal with H : Forall _ l |- _ =>
      rewrite Forall_forall in H; apply H end.
    rewrite <- (firstn_skipn n l). apply in_or_app. left. assumption.
Qed.

Lemma map_snd_combine_keys {A} (key : A -> Q) :
  forall l : list A, map snd (combine (map key l) l) = l.
Proof.
  induction l as [|a l IH]; simpl; [reflexivity | rewrite IH; reflexivity].
Qed.

Lemma combine_keys_agree {A} (key : A -> Q) :
  forall l : list A,
    Forall (fun p => fst p = key (snd p)) (combine (map key l) l).
Proof.
  induction l as [|a l IH]; simpl; constructor; [reflexivity | assumption].
Qed.

Lemma filter_map_snd_keys {A} (key : A -> Q) (d : Q) :
  forall l : list (Q * A),
    Forall (fun p => fst p = key (snd p)) l ->
    filter (fun a => Qeq_bool (key a) d) (map snd l)
    = map snd (filter (key_is d) l).
Proof.
  induction l as [|p l IH]; intros H; simpl.
  - reflexivity.
  - inversion H as [|? ? Hp Hl]; subst. unfold key_is at 1. rewrite <- Hp.
    destruct (Qeq_bool (fst p) d); simpl; rewrite IH by assumption; reflexivity.
Qed.

Lemma get_distance_km_Some (s : store) :
  (exists d, distance_km s = Some d) -> get_distance_km s = Ret (km s).
Proof.
  intros [d Hd]. unfold get_distance_km, km. rewrite Hd. reflexivity.
Qed.

(** [stores.sort(key=lambda x: x['distance_km'])] on stores that all carry
    a distance: a stable sort. *)
Lemma py_sort_distance_spec (l : list store) :
  Forall (fun s => exists d, distance_km s = Some d) l ->
  exists sorted,
    py_sort get_distance_km l = Ret sorted
    /\ Permutation l sorted
    /\ StronglySorted by_distance sorted
    /\ (forall d, filter (same_km d) sorted = filter (same_km d) l).
Proof.
  intros Hl.
  exists (map snd (sort_keyed (combine (map km l) l))).
  assert (Hagree : Forall (fun p => fst p = km (snd p))
                     (sort_keyed (combine (map km l) l))).
  { eapply Permutation_Forall; [apply sort_keyed_perm|].
    apply combine_keys_agree. }
  split; [|split; [|split]].
  - unfold py_sort. rewrite (omap_total get_distance_km km).
    + reflexivity.
    + eapply Forall_impl; [|exact Hl]. intros s. apply get_distance_km_Some.
  - rewrite <- (map_snd_combine_keys km l) at 1.
    apply Permutation_map. apply sort_keyed_perm.
  - pose proof (sort_keyed_sorted (combine (map km l) l)) as Hs.
    revert Hagree Hs.
    generalize (sort_keyed (combine (map km l) l)) as ps.
    induction ps as [|p ps IH]; intros Hagree Hs; simpl; constructor.
    + inversion Hagree; inversion Hs; subst. apply IH; assumption.
    + inversion Hagree as [|? ? Hp Hps]; inversion Hs as [|? ? _ Hle]; subst.
      apply Forall_map. rewrite Forall_forall in *.
      intros q Hq. unfold by_distance.
      rewrite <- Hp, <- (Hps q Hq). apply Hle. assumption.
  - intros d. unfold same_km.
    rewrite (filter_map_snd_keys km d) by assumption.
    rewrite sort_keyed_stable.
    rewrite <- (filter_map_snd_keys km d) by apply combine_keys_agree.
    rewrite map_snd_combine_keys. reflexivity.
Qed.

(** ** The ranking *)

Section RankingFacts.

Variable geodesic : Q * Q -> Q * Q -> outcome Q.
Variables user_lat user_lon : Q.

Lemma add_distances_spec (stores : list store) :
  distances_defined geodesic user_lat user_lon stores ->
  exists stores1,
    add_distances geodesic user_lat user_lon stores = Ret stores1
    /\ Forall2 (annotated geodesic user_lat user_lon) stores stores1.
Proof.
  intros H. unfold add_distances. apply omap_Forall2.
  eapply Forall_impl; [|exact H].
  intros s [d Hd]. exists (set_distance_km s (py_round2 d)).
  unfold calculate_distance. rewrite Hd. simpl.
  split; [reflexivity | exists d; split; [assumption | reflexivity]].
Qed.

Lemma annotated_store_ids (stores stores1 : list store) :
  Forall2 (annotated geodesic user_lat user_lon) stores stores1 ->
  map store_id stores1 = map store_id stores.
Proof.
  induction 1 as [|s s' l l' [d [_ Hs]] _ IH]; simpl.
  - reflexivity.
  - rewrite IH, Hs. reflexivity.
Qed.

Lemma annotated_has_distance (stores stores1 : list store) :
  Forall2 (annotated geodesic user_lat user_lon) stores stores1 ->
  Forall (fun s => exists d, distance_km s = Some d) stores1.
Proof.
  induction 1 as [|s s' l l' [d [_ Hs]] _ IH]; constructor.
  - rewrite Hs. simpl. eexists. reflexivity.
  - assumption.
Qed.

(** The three steps of the ranking, when every distance can be computed. *)
Lemma rank_stores_spec (stores : list store) (limit : Z) :
  distances_defined geodesic user_lat user_lon stores ->
  exists stores1 sorted,
    add_distances geodesic user_lat user_lon stores = Ret stores1
    /\ Forall2 (annotated geodesic user_lat user_lon) stores stores1
    /\ Permutation stores1 sorted
    /\ StronglySorted by_distance sorted
    /\ (forall d, filter (same_km d) sorted = filter (same_km d) stores1)
    /\ rank_stores geodesic user_lat user_lon stores limit
       = Ret (py_slice_to sorted limit).
Proof.
  intros H.
  destruct (add_distances_spec H) as [stores1 [H1 HF]].
  destruct (py_sort_distance_spec (annotated_has_distance HF))
    as [sorted [Hsort [Hperm [Hsorted Hstable]]]].
  exists stores1, sorted. repeat split; try assumption.
  unfold rank_stores. rewrite H1. simpl. rewrite Hsort. reflexivity.
Qed.

End RankingFacts.

(** ** Slices *)

Lemma py_slice_to_positive {A} (l : list A) (limit : Z) :
  0 <= limit -> py_slice_to l limit = firstn (Z.to_nat limit) l.
Proof.
  intros H. unfold py_slice_to.
  destruct (limit <? 0) eqn:E; [apply Z.ltb_lt in E; lia | reflexivity].
Qed.

Lemma py_slice_to_prefix {A} (l : list A) (limit : Z) :
  exists n, py_slice_to l limit = firstn n l.
Proof.
  unfold py_slice_to. destruct (limit <? 0); eexists; reflexivity.
Qed.

Lemma NoDup_firstn_map {A B} (f : A -> B) (n : nat) (l : list A) :
  NoDup (map f l) -> NoDup (map f (firstn n l)).
Proof.
  intros H. rewrite <- (firstn_skipn n l), map_app in H.
  eapply NoDup_app_remove_r. exact H.
Qed.

Lemma Forall2_preimage {A B} (R : A -> B -> Prop) (l : list A) (l' : list B) :
  Forall2 R l l' -> Forall (fun b => exists a, In a l /\ R a b) l'.
Proof.
  induction 1 as [|a b l l' Hab _ IH]; constructor.
  - exists a. split; [left; reflexivity | assumption].
  - eapply Forall_impl; [|exact IH].
    intros b' [a' [Hin HR]]. exists a'. split; [right; assumption | assumption].
Qed.

Lemma Forall_firstn {A} (P : A -> Prop) (n : nat) (l : list A) :
  Forall P l -> Forall P (firstn n l).
Proof.
  intros H. rewrite <- (firstn_skipn n l) in H.
  apply Forall_app in H. apply H.
Qed.

(* ------------------------------------------------------------------ *)
(** ** Claims on the ranking *)

(** The ranking of a store list with distinct [store_id]s, for a positive
    [limit]. *)
Lemma rank_stores_ranked :
  forall (geodesic : Q * Q -> Q * Q -> outcome Q) (user_lat user_lon : Q)
         (stores : list store) (limit : Z),
    1 <= limit ->
    distances_defined geodesic user_lat user_lon stores ->
    NoDup (map store_id stores) ->
    exists ranked,
      rank_stores geodesic user_lat user_lon stores limit = Ret ranked
      /\ StronglySorted by_distance ranked
      /\ List.length ranked = Nat.min (Z.to_nat limit) (List.length stores)
      /\ NoDup (map store_id ranked)
      /\ Forall (fun r => exists s, In s stores
                   /\ annotated geodesic user_lat user_lon s r) ranked
      /\ (stores = [] -> ranked = []).
Proof.
  intros geodesic user_lat user_lon stores limit Hlimit Hdef Hids.
  destruct (rank_stores_spec limit Hdef)
    as [stores1 [sorted [_ [Hann [Hperm [Hsorted [_ Hrank]]]]]]].
  rewrite py_slice_to_positive in Hrank by lia.
  exists (firstn (Z.to_nat limit) sorted).
  assert (Hlen : List.length sorted = List.length stores).
  { rewrite <- (Permutation_length Hperm). symmetry.
    eapply Forall2_length. exact Hann. }
  split; [exact Hrank|].
  split; [apply StronglySorted_firstn; assumption|].
  split; [rewrite length_firstn, Hlen; reflexivity|].
  split.
  { apply NoDup_firstn_map.
    eapply Permutation_NoDup; [apply Permutation_map; exact Hperm|].
    rewrite (annotated_store_ids Hann). assumption. }
  split.
  { apply Forall_firstn.
    eapply Permutation_Forall; [exact Hperm|].
    apply Forall2_preimage. assumption. }
  intros ->. simpl in Hlen.
  destruct sorted; [apply firstn_nil | discriminate].
Qed.

Lemma sample_stores_distinct : NoDup (map store_id sample_stores).
Proof.
  simpl. repeat constructor; simpl; intuition discriminate.
Qed.

(** C1. For every origin, every store list whose distances can be computed
    and whose [store_id]s are distinct, and every [limit >= 1], the ranking
    returns a list sorted non-decreasingly on [distance_km], of length
    [min(limit, |stores|)], without duplicate [store_id], every entry being
    a store of the input with its rounded distance; for the empty store
    list the result is the empty list, not an error. In particular
    [find_nearest_stores], which ranks the shipped catalog, returns such a
    list for every origin and every [limit >= 1]: sorted, of length
    [min(limit, 2)], without duplicate [store_id], every entry being a store
    of the catalog that carries the rounded distance from the origin that
    [geodesic] gives for it. *)
Theorem rank_sorted_truncated_distinct :
  (forall (geodesic : Q * Q -> Q * Q -> outcome Q) (user_lat user_lon : Q)
          (stores : list store) (limit : Z),
      1 <= limit ->
      distances_defined geodesic user_lat user_lon stores ->
      NoDup (map store_id stores) ->
      exists ranked,
        rank_stores geodesic user_lat user_lon stores limit = Ret ranked
        /\ StronglySorted by_distance ranked
        /\ List.length ranked = Nat.min (Z.to_nat limit) (List.length stores)
        /\ NoDup (map store_id ranked)
        /\ Forall (fun r => exists s, In s stores
                     /\ annotated geodesic user_lat user_lon s r) ranked
        /\ (stores = [] -> ranked = []))
  /\ (forall (ask_db : string -> outcome string) (response : string)
             (geodesic : Q * Q -> Q * Q -> outcome Q) (user_lat user_lon : Q)
             (limit : Z),
         ask_db stores_query = Ret response ->
         1 <= limit ->
         distances_defined geodesic user_lat user_lon sample_stores ->
         exists ranked,
           find_nearest_stores ask_db geodesic user_lat user_lon limit
           = Ret ranked
           /\ StronglySorted by_distance ranked
           /\ List.length ranked = Nat.min (Z.to_nat limit) 2
           /\ NoDup (map store_id ranked)
           /\ Forall (fun r => exists s d,
                        In s sample_stores
                        /\ geodesic (user_lat, user_lon)
                             (latitude s, longitude s) = Ret d
                        /\ r = set_distance_km s (py_round2 d)
                        /\ distance_km r = Some (py_round2 d)) ranked).
Proof.
  split; [exact rank_stores_ranked|].
  intros ask_db response geodesic user_lat user_lon limit Hdb Hlimit Hdef.
  destruct (rank_stores_ranked Hlimit Hdef sample_stores_distinct)
    as [ranked [Hrank [Hsorted [Hlen [Hids [Hann _]]]]]].
  exists ranked. unfold find_nearest_stores, get_stores_with_location.
  rewrite Hdb. simpl. repeat split; try assumption.
  eapply Forall_impl; [|exact Hann].
  intros r [s [Hin [d [Hd ->]]]]. exists s, d.
  repeat split; try assumption; reflexivity.
Qed.

Lemma rank_sorted_truncated_distinct_witness :
  (exists ranked,
      rank_stores flat_geodesic (185581 # 10000) (737934 # 10000)
        twin_stores 1 = Ret ranked
      /\ StronglySorted by_distance ranked
      /\ List.length ranked = Nat.min (Z.to_nat 1) (List.length twin_stores)
      /\ NoDup (map store_id ranked)
      /\ Forall (fun r => exists s, In s twin_stores
                   /\ annotated flat_geodesic (185581 # 10000)
                        (737934 # 10000) s r) ranked
      /\ (twin_stores = [] -> ranked = []))
  /\ (exists ranked,
         find_nearest_stores silent_agent flat_geodesic
           (185581 # 10000) (737934 # 10000) 5 = Ret ranked
         /\ StronglySorted by_distance ranked
         /\ List.length ranked = Nat.min (Z.to_nat 5) 2
         /\ NoDup (map store_id ranked)
         /\ Forall (fun r => exists s d,
                      In s sample_stores
                      /\ flat_geodesic (185581 # 10000, 737934 # 10000)
                           (latitude s, longitude s) = Ret d
                      /\ r = set_distance_km s (py_round2 d)
                      /\ distance_km r = Some (py_round2 d)) ranked).
Proof.
  split.
  - apply (proj1 rank_sorted_truncated_distinct flat_geodesic
             (185581 # 10000) (737934 # 10000) twin_stores 1).
    + lia.
    + repeat constructor; eexists; vm_compute; reflexivity.
    + simpl. repeat constructor; simpl; intuition discriminate.
  - apply (proj2 rank_sorted_truncated_distinct silent_agent ""
             flat_geodesic (185581 # 10000) (737934 # 10000) 5).
    + reflexivity.
    + lia.
    + repeat constructor; eexists; vm_compute; reflexivity.
Defined.

(** C3, the claim as stated fails: with [limit = 0] the shipped
    [find_nearest_stores] returns the empty list and raises nothing. *)
Lemma find_nearest_stores_limit_zero_returns :
  find_nearest_stores silent_agent flat_geodesic
    (185581 # 10000) (737934 # 10000) 0 = Ret []
  /\ ~ (exists e, find_nearest_stores silent_agent flat_geodesic
                    (185581 # 10000) (737934 # 10000) 0 = Raise e).
Proof.
  split.
  - vm_compute. reflexivity.
  - intros [e H]. vm_compute in H. discriminate.
Qed.

(** C3, amended. For every origin and every store list whose distances can
    be computed, a [limit <= 0] raises nothing: the ranking returns the
    slice [stores[:limit]] of the full ranking, which is empty for
    [limit = 0] and the full ranking without its last [-limit] entries for
    [limit < 0]. *)
Theorem rank_nonpositive_limit_slices :
  forall (geodesic : Q * Q -> Q * Q -> outcome Q) (user_lat user_lon : Q)
         (stores : list store) (limit : Z),
    limit <= 0 ->
    distances_defined geodesic user_lat user_lon stores ->
    exists full,
      rank_stores geodesic user_lat user_lon stores
        (Z.of_nat (List.length stores)) = Ret full
      /\ rank_stores geodesic user_lat user_lon stores limit
         = Ret (if limit =? 0 then []
                else firstn (List.length stores - Z.to_nat (- limit)) full).
Proof.
  intros geodesic user_lat user_lon stores limit Hlimit Hdef.
  destruct (add_distances_spec Hdef) as [stores1 [H1 Hann]].
  destruct (py_sort_distance_spec (annotated_has_distance Hann))
    as [sorted [Hsort [Hperm _]]].
  assert (Hlen : List.length sorted = List.length stores).
  { rewrite <- (Permutation_length Hperm). symmetry.
    eapply Forall2_length. exact Hann. }
  exists sorted. unfold rank_stores. rewrite H1. simpl. rewrite Hsort. simpl.
  split.
  - rewrite py_slice_to_positive by lia.
    rewrite Nat2Z.id, <- Hlen, firstn_all. reflexivity.
  - unfold py_slice_to. destruct (limit =? 0) eqn:E0.
    + apply Z.eqb_eq in E0. subst. reflexivity.
    + apply Z.eqb_neq in E0.
      destruct (limit <? 0) eqn:E; [|apply Z.ltb_ge in E; lia].
      rewrite Hlen. do 2 f_equal. lia.
Qed.

Lemma rank_nonpositive_limit_slices_witness :
  exists full,
    rank_stores flat_geodesic (185581 # 10000) (737934 # 10000) sample_stores
      (Z.of_nat (List.length sample_stores)) = Ret full
    /\ rank_stores flat_geodesic (185581 # 10000) (737934 # 10000)
         sample_stores (-1)
       = Ret (if -1 =? 0 then []
              else firstn (List.length sample_stores - Z.to_nat (- -1)) full).
Proof.
  apply (@rank_nonpositive_limit_slices flat_geodesic
           (185581 # 10000) (737934 # 10000) sample_stores (-1)).
  - lia.
  - repeat constructor; eexists; vm_compute; reflexivity.
Defined.

(** ** Ties *)

Lemma ties_by_store_id_firstn (n : nat) (l : list store) :
  ties_by_store_id l -> ties_by_store_id (firstn n l).
Proof.
  intros H i j a b Ha Hb. rewrite nth_error_firstn in Ha, Hb.
  destruct (i <? n)%nat; [|discriminate].
  destruct (j <? n)%nat; [|discriminate].
  eapply H; eassumption.
Qed.

Lemma ties_by_store_id_pair (a b : store) :
  (store_id a < store_id b \/ (km a < km b)%Q) ->
  ties_by_store_id [a; b].
Proof.
  intros Hab i j x y Hx Hy Hkm Hid.
  destruct i as [|[|i]]; destruct j as [|[|j]]; simpl in Hx, Hy;
    try discriminate; try lia;
    try (destruct i; discriminate); try (destruct j; discriminate).
  - inversion Hx; inversion Hy; subst. lia.
  - inversion Hx; inversion Hy; subst.
    destruct Hab as [Hab | Hab]; [lia|].
    rewrite Hkm in Hab. exfalso. exact (Qlt_irrefl _ Hab).
  - inversion Hx; inversion Hy; subst. lia.
Qed.

(** The sort compares the distance only. On a list that has two stores at
    one place with the larger [store_id] first, which is not the order of
    the catalog, the body of the ranking keeps the order of the list. *)
Example rank_stores_keeps_list_order :
  exists ranked,
    rank_stores flat_geodesic (185581 # 10000) (737934 # 10000)
      twin_stores 5 = Ret ranked
    /\ map store_id ranked = [2; 1].
Proof.
  eexists. split; [vm_compute; reflexivity | reflexivity].
Qed.

(** Whatever [find_nearest_stores] returns has its ties in [store_id]
    order: the catalog lists store 1 before store 2 and the sort is
    stable. *)
Lemma find_nearest_stores_ties :
  forall (ask_db : string -> outcome string)
         (geodesic : Q * Q -> Q * Q -> outcome Q) (user_lat user_lon : Q)
         (limit : Z) (ranked : list store),
    find_nearest_stores ask_db geodesic user_lat user_lon limit
    = Ret ranked ->
    ties_by_store_id ranked.
Proof.
  intros ask_db geodesic user_lat user_lon limit ranked.
  unfold find_nearest_stores, get_stores_with_location.
  destruct (ask_db stores_query) as [response|e]; simpl; [|discriminate].
  unfold rank_stores, add_distances, calculate_distance, sample_stores.
  cbn [omap latitude longitude].
  destruct (geodesic _ _) as [d1|e1]; cbn [obind]; [|discriminate].
  destruct (geodesic _ _) as [d2|e2]; cbn [obind]; [|discriminate].
  unfold py_sort. cbn [omap obind get_distance_km set_distance_km
                       distance_km combine sort_keyed insert_keyed fst snd].
  intros Hr. inversion Hr; subst ranked. clear Hr.
  match goal with
  | |- ties_by_store_id (py_slice_to ?l ?k) =>
      destruct (py_slice_to_prefix l k) as [n Hn]; rewrite Hn; clear Hn
  end.
  apply ties_by_store_id_firstn.
  destruct (Qlt_bool (py_round2 d2) (py_round2 d1)) eqn:Hc; cbn [map snd].
  + apply ties_by_store_id_pair. right. unfold km. simpl.
    apply Qlt_bool_true. assumption.
  + apply ties_by_store_id_pair. left. simpl. lia.
Qed.

(** C4. The ranking computes the rounded distance of every store, sorts the
    stores ascending on [distance_km] with a stable sort, and slices the
    result to [limit]. For [find_nearest_stores], which ranks the catalog:
    whenever the agent answers and the distances can be computed there is
    one full ranking, fixed by the origin, of which every call returns the
    slice [[:limit]], the first [limit] entries for [limit >= 0]; and in the
    full ranking and in every result, of two stores at the same distance
    the one with the smaller [store_id] comes first. *)
Theorem rank_is_stable_sort_then_slice :
  (forall (geodesic : Q * Q -> Q * Q -> outcome Q) (user_lat user_lon : Q)
          (stores : list store) (limit : Z),
      distances_defined geodesic user_lat user_lon stores ->
      exists stores1 sorted,
        Forall2 (annotated geodesic user_lat user_lon) stores stores1
        /\ Permutation stores1 sorted
        /\ StronglySorted by_distance sorted
        /\ (forall d, filter (same_km d) sorted = filter (same_km d) stores1)
        /\ rank_stores geodesic user_lat user_lon stores limit
           = Ret (py_slice_to sorted limit))
  /\ (forall (geodesic : Q * Q -> Q * Q -> outcome Q) (user_lat user_lon : Q),
         distances_defined geodesic user_lat user_lon sample_stores ->
         exists stores1 sorted,
           Forall2 (annotated geodesic user_lat user_lon)
             sample_stores stores1
           /\ Permutation stores1 sorted
           /\ StronglySorted by_distance sorted
           /\ (forall d,
                  filter (same_km d) sorted = filter (same_km d) stores1)
           /\ ties_by_store_id sorted
           /\ forall (ask_db : string -> outcome string) (response : string)
                     (limit : Z),
               ask_db stores_query = Ret response ->
               find_nearest_stores ask_db geodesic user_lat user_lon limit
               = Ret (py_slice_to sorted limit)
               /\ (0 <= limit ->
                   py_slice_to sorted limit = firstn (Z.to_nat limit) sorted)
               /\ ties_by_store_id (py_slice_to sorted limit)).
Proof.
  split.
  - intros geodesic user_lat user_lon stores limit Hdef.
    destruct (rank_stores_spec limit Hdef)
      as [stores1 [sorted [_ [Hann [Hperm [Hsorted [Hstable Hrank]]]]]]].
    exists stores1, sorted. repeat split; assumption.
  - intros geodesic user_lat user_lon Hdef.
    destruct (add_distances_spec Hdef) as [stores1 [H1 Hann]].
    destruct (py_sort_distance_spec (annotated_has_distance Hann))
      as [sorted [Hsort [Hperm [Hsorted Hstable]]]].
    assert (Hfind : forall ask_db response limit,
               ask_db stores_query = Ret response ->
               find_nearest_stores ask_db geodesic user_lat user_lon limit
               = Ret (py_slice_to sorted limit)).
    { intros ask_db response limit Hdb.
      unfold find_nearest_stores, get_stores_with_location, rank_stores.
      rewrite Hdb. cbn [obind]. rewrite H1. cbn [obind]. rewrite Hsort.
      reflexivity. }
    assert (Hlen : List.length sorted = 2%nat).
    { rewrite <- (Permutation_length Hperm), <- (Forall2_length Hann).
      reflexivity. }
    exists stores1, sorted.
    split; [exact Hann|]. split; [exact Hperm|]. split; [exact Hsorted|].
    split; [exact Hstable|]. split.
    + pose proof (Hfind (fun _ => Ret "") "" 2 eq_refl) as H2.
      apply find_nearest_stores_ties in H2.
      rewrite py_slice_to_positive in H2 by lia.
      change (Z.to_nat 2) with 2%nat in H2.
      rewrite <- Hlen, firstn_all in H2. exact H2.
    + intros ask_db response limit Hdb.
      split; [exact (Hfind ask_db response limit Hdb)|].
      split; [apply py_slice_to_positive|].
      exact (find_nearest_stores_ties _ _ _ _ _
               (Hfind ask_db response limit Hdb)).
Qed.

Lemma rank_is_stable_sort_then_slice_witness :
  (exists stores1 sorted,
      Forall2 (annotated flat_geodesic (185581 # 10000) (737934 # 10000))
        twin_stores stores1
      /\ Permutation stores1 sorted
      /\ StronglySorted by_distance sorted
      /\ (forall d, filter (same_km d) sorted = filter (same_km d) stores1)
      /\ rank_stores flat_geodesic (185581 # 10000) (737934 # 10000)
           twin_stores 5 = Ret (py_slice_to sorted 5))
  /\ (exists stores1 sorted,
         Forall2 (annotated flat_geodesic (185548785 # 10000000)
                    (737811425 # 10000000))
           sample_stores stores1
         /\ Permutation stores1 sorted
         /\ StronglySorted by_distance sorted
         /\ (forall d,
                filter (same_km d) sorted = filter (same_km d) stores1)
         /\ ties_by_store_id sorted
         /\ forall (ask_db : string -> outcome string) (response : string)
                   (limit : Z),
             ask_db stores_query = Ret response ->
             find_nearest_stores ask_db flat_geodesic
               (185548785 # 10000000) (737811425 # 10000000) limit
             = Ret (py_slice_to sorted limit)
             /\ (0 <= limit ->
                 py_slice_to sorted limit = firstn (Z.to_nat limit) sorted)
             /\ ties_by_store_id (py_slice_to sorted limit)).
Proof.
  split.
  - apply (proj1 rank_is_stable_sort_then_slice flat_geodesic
             (185581 # 10000) (737934 # 10000) twin_stores 5).
    repeat constructor; eexists; vm_compute; reflexivity.
  - apply (proj2 rank_is_stable_sort_then_slice flat_geodesic
             (185548785 # 10000000) (737811425 # 10000000)).
    repeat constructor; eexists; vm_compute; reflexivity.
Defined.

(** An origin at the same rounded distance, 1.72 km, from both stores of
    the catalog: the tie comes out as store 1, then store 2. *)
Example find_nearest_stores_tie :
  exists a b,
    find_nearest_stores silent_agent flat_geodesic
      (185548785 # 10000000) (737811425 # 10000000) 5 = Ret [a; b]
    /\ store_id a = 1 /\ store_id b = 2
    /\ km a = 43 # 25 /\ km b = 43 # 25.
Proof.
  eexists. eexists. split; [vm_compute; reflexivity|].
  repeat split; reflexivity.
Qed.

(* ------------------------------------------------------------------ *)
(** ** Claims on coordinates and on the catalog *)

(** C7, the claim as stated fails: a longitude of 200 degrees is outside
    the range, and both the distance and the ranking are computed for it
    when the geodesic routine accepts it. *)
Lemma out_of_range_longitude_is_ranked :
  ~ valid_coordinate (185581 # 10000) 200
  /\ (exists d, calculate_distance flat_geodesic (185581 # 10000) 200
                  (18558091 # 1000000) (73793439 # 1000000) = Ret d)
  /\ (exists ranked, find_nearest_stores silent_agent flat_geodesic
                       (185581 # 10000) 200 5 = Ret ranked).
Proof.
  split; [|split].
  - unfold valid_coordinate. intros [_ [_ [_ H]]].
    apply Qle_bool_iff in H. vm_compute in H. discriminate.
  - eexists. vm_compute. reflexivity.
  - eexists. vm_compute. reflexivity.
Qed.

(** C7, amended. [calculate_distance] and [find_nearest_stores] check no
    range themselves: [calculate_distance] hands its four arguments to the
    geodesic routine and returns what that returns, for every coordinate;
    [find_nearest_stores] returns a ranking whenever the routine returns a
    distance for every store, and raises only what the routine raised for
    some store. *)
Theorem coordinates_go_unchecked_to_geodesic :
  forall (ask_db : string -> outcome string)
         (geodesic : Q * Q -> Q * Q -> outcome Q)
         (user_lat user_lon : Q) (limit : Z) (response : string),
    ask_db stores_query = Ret response ->
    (forall lat2 lon2,
        calculate_distance geodesic user_lat user_lon lat2 lon2
        = geodesic (user_lat, user_lon) (lat2, lon2))
    /\ (distances_defined geodesic user_lat user_lon sample_stores ->
        exists ranked,
          find_nearest_stores ask_db geodesic user_lat user_lon limit
          = Ret ranked)
    /\ (forall e,
           find_nearest_stores ask_db geodesic user_lat user_lon limit
           = Raise e ->
           exists s, In s sample_stores
                     /\ geodesic (user_lat, user_lon)
                          (latitude s, longitude s) = Raise e).
Proof.
  intros ask_db geodesic user_lat user_lon limit response Hdb.
  split; [reflexivity|]. split.
  - intros Hdef.
    destruct (rank_stores_spec limit Hdef)
      as [stores1 [sorted [_ [_ [_ [_ [_ Hrank]]]]]]].
    exists (py_slice_to sorted limit).
    unfold find_nearest_stores, get_stores_with_location.
    rewrite Hdb. simpl. exact Hrank.
  - intros e. unfold find_nearest_stores, get_stores_with_location.
    rewrite Hdb. simpl. unfold rank_stores.
    destruct (add_distances geodesic user_lat user_lon sample_stores)
      as [stores1|e1] eqn:Hadd; simpl.
    + destruct (py_sort get_distance_km stores1) as [stores2|e2] eqn:Hsort;
        simpl; [discriminate|].
      exfalso.
      assert (Hann : Forall2 (annotated geodesic user_lat user_lon)
                       sample_stores stores1).
      { assert (Hdef : distances_defined geodesic user_lat user_lon
                         sample_stores).
        { unfold distances_defined. apply Forall_forall. intros s Hs.
          unfold add_distances, calculate_distance in Hadd.
          destruct (geodesic (user_lat, user_lon) (latitude s, longitude s))
            as [d|e'] eqn:Hg; [exists d; reflexivity|].
          exfalso. simpl in Hs, Hadd.
          destruct Hs as [<-|[<-|[]]]; simpl in Hg.
          - rewrite Hg in Hadd. discriminate.
          - rewrite Hg in Hadd.
            destruct (geodesic _ _) in Hadd; discriminate. }
        destruct (add_distances_spec Hdef) as [l [Hl HF]].
        rewrite Hl in Hadd. inversion Hadd; subst. exact HF. }
      destruct (py_sort_distance_spec (annotated_has_distance Hann))
        as [sorted [Hs _]].
      rewrite Hs in Hsort. discriminate.
    + intros He. inversion He; subst e1.
      unfold add_distances in Hadd. apply omap_raises in Hadd.
      destruct Hadd as [s [Hin Hs]]. exists s. split; [assumption|].
      unfold calculate_distance in Hs. cbv beta in Hs.
      destruct (geodesic (user_lat, user_lon) (latitude s, longitude s));
        simpl in Hs; congruence.
Qed.

Lemma coordinates_go_unchecked_to_geodesic_witness :
  (forall lat2 lon2,
      calculate_distance flat_geodesic (185581 # 10000) 200 lat2 lon2
      = flat_geodesic (185581 # 10000, 200%Q) (lat2, lon2))
  /\ (distances_defined flat_geodesic (185581 # 10000) 200 sample_stores ->
      exists ranked,
        find_nearest_stores silent_agent flat_geodesic (185581 # 10000) 200 5
        = Ret ranked)
  /\ (forall e,
         find_nearest_stores silent_agent flat_geodesic (185581 # 10000) 200 5
         = Raise e ->
         exists s, In s sample_stores
                   /\ flat_geodesic (185581 # 10000, 200%Q)
                        (latitude s, longitude s) = Raise e).
Proof.
  apply (@coordinates_go_unchecked_to_geodesic silent_agent flat_geodesic
           (185581 # 10000) 200 5 "").
  reflexivity.
Defined.

(** C9. With the great-circle distance of the specification in the place
    of [geodesic], on a sphere of any radius, [calculate_distance] is
    symmetric, [distance(a, b) = distance(b, a)] for every two coordinates
    [a] and [b], and [distance(a, a) = 0] for every coordinate [a]; both
    hold exactly, on real numbers, and for every coordinate, in the valid
    range or not. *)
Theorem calculate_distance_symmetric_zero :
  forall radius lat1 lon1 lat2 lon2 : R,
    calculate_distance (great_circle radius) lat1 lon1 lat2 lon2
    = calculate_distance (great_circle radius) lat2 lon2 lat1 lon1
    /\ calculate_distance (great_circle radius) lat1 lon1 lat1 lon1
       = Ret 0%R.
Proof.
  intros radius lat1 lon1 lat2 lon2.
  assert (Hhav : forall x y : R, haversine (x - y) = haversine (y - x)).
  { intros x y. unfold haversine.
    replace ((x - y) / 2)%R with (- ((y - x) / 2))%R by field.
    rewrite sin_neg, <- Rsqr_neg. reflexivity. }
  unfold calculate_distance, great_circle. cbn [fst snd]. split.
  - rewrite (Hhav (radians lat2) (radians lat1)).
    rewrite (Hhav (radians lon2) (radians lon1)).
    rewrite (Rmult_comm (cos (radians lat1)) (cos (radians lat2))).
    reflexivity.
  - assert (H0 : forall x : R, haversine (x - x) = 0%R).
    { intros x. unfold haversine, Rminus, Rdiv.
      rewrite Rplus_opp_r, Rmult_0_l, sin_0. apply Rsqr_0. }
    rewrite !H0, Rmult_0_r, Rplus_0_l, sqrt_0, asin_0, Rmult_0_r.
    reflexivity.
Qed.

(** C10. Whatever the SQL agent answers, the catalog is the same two
    hardcoded stores, with [store_id] 1 and 2; hence the ranking is the
    ranking of that list, a function of the origin and of [limit] alone, and
    two runs against agents with different answers give the same result. *)
Theorem catalog_ignores_agent_response :
  forall (ask_db : string -> outcome string) (response : string),
    ask_db stores_query = Ret response ->
    get_stores_with_location ask_db = Ret sample_stores
    /\ map store_id sample_stores = [1; 2]
    /\ (forall (geodesic : Q * Q -> Q * Q -> outcome Q)
               (user_lat user_lon : Q) (limit : Z),
           find_nearest_stores ask_db geodesic user_lat user_lon limit
           = rank_stores geodesic user_lat user_lon sample_stores limit)
    /\ (forall (ask_db' : string -> outcome string) (response' : string)
               (geodesic : Q * Q -> Q * Q -> outcome Q)
               (user_lat user_lon : Q) (limit : Z),
           ask_db' stores_query = Ret response' ->
           find_nearest_stores ask_db geodesic user_lat user_lon limit
           = find_nearest_stores ask_db' geodesic user_lat user_lon limit).
Proof.
  intros ask_db response Hdb.
  assert (Hcat : get_stores_with_location ask_db = Ret sample_stores).
  { unfold get_stores_with_location. rewrite Hdb. reflexivity. }
  split; [exact Hcat|]. split; [reflexivity|]. split.
  - intros. unfold find_nearest_stores. rewrite Hcat. reflexivity.
  - intros ask_db' response' geodesic user_lat user_lon limit Hdb'.
    unfold find_nearest_stores, get_stores_with_location.
    rewrite Hdb, Hdb'. reflexivity.
Qed.

Lemma catalog_ignores_agent_response_witness :
  get_stores_with_location verbose_agent = Ret sample_stores
  /\ map store_id sample_stores = [1; 2]
  /\ (forall (geodesic : Q * Q -> Q * Q -> outcome Q)
             (user_lat user_lon : Q) (limit : Z),
         find_nearest_stores verbose_agent geodesic user_lat user_lon limit
         = rank_stores geodesic user_lat user_lon sample_stores limit)
  /\ (forall (ask_db' : string -> outcome string) (response' : string)
             (geodesic : Q * Q -> Q * Q -> outcome Q)
             (user_lat user_lon : Q) (limit : Z),
         ask_db' stores_query = Ret response' ->
         find_nearest_stores verbose_agent geodesic user_lat user_lon limit
         = find_nearest_stores ask_db' geodesic user_lat user_lon limit).
Proof.
  apply (@catalog_ignores_agent_response verbose_agent
           "[(3, 'Apollo Pharmacy', 'Aundh', 18.56, 73.81, '0000000000')]").
  reflexivity.
Defined.

(* ------------------------------------------------------------------ *)
(** ** Rounding and truncation *)

Lemma round_half_even_near (y : Q) :
  (Qabs (inject_Z (round_half_even y) - y) <= 1 # 2)%Q.
Proof.
  unfold round_half_even.
  pose proof (Qfloor_le y) as Hlo. pose proof (Qlt_floor y) as Hhi.
  rewrite inject_Z_plus in Hhi. change (inject_Z 1) with 1%Q in Hhi.
  assert (Hup : (inject_Z (Qfloor y + 1) == inject_Z (Qfloor y) + 1)%Q)
    by (rewrite inject_Z_plus; reflexivity).
  apply Qabs_Qle_condition.
  destruct (y - inject_Z (Qfloor y) ?= 1 # 2)%Q eqn:Hc.
  - apply Qeq_alt in Hc.
    destruct (Z.even (Qfloor y)); [|rewrite Hup]; split; lra.
  - apply Qlt_alt in Hc. split; lra.
  - apply Qgt_alt in Hc. rewrite Hup. split; lra.
Qed.

Lemma py_round2_spec (x : Q) :
  exists k : Z, (py_round2 x == inject_Z k / 100)%Q
                /\ (Qabs (py_round2 x - x) <= 1 # 200)%Q.
Proof.
  exists (round_half_even (x * 100)). unfold py_round2.
  pose proof (round_half_even_near (x * 100)) as H.
  generalize dependent (round_half_even (x * 100)). intros k H.
  assert (E : (Qred (k # 100) == inject_Z k / 100)%Q).
  { rewrite Qred_correct. rewrite Qmake_Qdiv. reflexivity. }
  split; [exact E|].
  rewrite E.
  assert (E' : (inject_Z k / 100 == inject_Z k * (1 # 100))%Q) by reflexivity.
  rewrite E'.
  apply Qabs_Qle_condition in H. apply Qabs_Qle_condition.
  split; lra.
Qed.

Lemma py_int_nonneg (x : Q) : (0 <= x)%Q -> py_int x = Qfloor x.
Proof.
  intros H. unfold py_int.
  destruct (Qlt_bool x 0) eqn:E; [|reflexivity].
  apply Qlt_bool_true in E. lra.
Qed.

Lemma py_int_negative (x : Q) : (x < 0)%Q -> py_int x = Qceiling x.
Proof.
  intros H. unfold py_int.
  destruct (Qlt_bool x 0) eqn:E; [reflexivity|].
  apply Qlt_bool_false in E. lra.
Qed.

Lemma minutes_nonneg (d : Q) : (0 <= d)%Q -> (0 <= d / 60)%Q.
Proof. intros H. change (d / 60)%Q with (d * (1 # 60))%Q. lra. Qed.

(** ** Binary64 rounding *)

Unset Implicit Arguments.

(** *** Powers of two *)

Lemma pow2_pos (e : Z) : (0 < pow2 e)%Q.
Proof. apply Qpower_0_lt. reflexivity. Qed.

Lemma pow2_plus (a b : Z) : (pow2 (a + b) == pow2 a * pow2 b)%Q.
Proof. apply Qpower_plus. discriminate. Qed.

Lemma pow2_le (a b : Z) : a <= b -> (pow2 a <= pow2 b)%Q.
Proof. intros H. apply Qpower_le_compat_l; [assumption | discriminate]. Qed.

Lemma pow2_Z (n : Z) : 0 <= n -> (pow2 n == inject_Z (2 ^ n))%Q.
Proof. intros H. unfold pow2. rewrite Zpower_Qpower by assumption. reflexivity. Qed.

Lemma pow2_lt_inv (a b : Z) : (pow2 a < pow2 b)%Q -> a < b.
Proof.
  intros H. destruct (Z_lt_le_dec a b) as [Hlt|Hle]; [assumption|].
  apply pow2_le in Hle. lra.
Qed.

(** *** The binary logarithm of a rational *)

Lemma ilog2_spec (q : Q) :
  (0 < q)%Q -> (pow2 (ilog2 q) <= q /\ q < pow2 (ilog2 q + 1))%Q.
Proof.
  intros Hq. destruct q as [a b].
  assert (Ha : 0 < a).
  { unfold Qlt in Hq. simpl in Hq. lia. }
  unfold ilog2. cbn [Qnum Qden]. rewrite (Z.abs_eq a) by lia.
  rewrite (Qabs_pos (a # b)) by (apply Qlt_le_weak; exact Hq).
  destruct (Z.log2_spec a Ha) as [Ha1 Ha2].
  destruct (Z.log2_spec (Zpos b) (Pos2Z.is_pos b)) as [Hb1 Hb2].
  pose proof (Z.log2_nonneg a) as Hla. pose proof (Z.log2_nonneg (Zpos b)) as Hlb.
  set (la := Z.log2 a) in *. set (lb := Z.log2 (Zpos b)) in *.
  assert (Hq' : (a # b == inject_Z a / inject_Z (Zpos b))%Q) by apply Qmake_Qdiv.
  assert (Hbpos : (0 < inject_Z (Zpos b))%Q) by (unfold Qlt; simpl; lia).
  assert (HA1 : (pow2 la <= inject_Z a)%Q).
  { rewrite pow2_Z by assumption. rewrite <- Zle_Qle. assumption. }
  assert (HA2 : (inject_Z a < pow2 (la + 1))%Q).
  { rewrite pow2_Z by lia. rewrite <- Zlt_Qlt. rewrite <- Z.add_1_r in Ha2. assumption. }
  assert (HB1 : (pow2 lb <= inject_Z (Zpos b))%Q).
  { rewrite pow2_Z by assumption. rewrite <- Zle_Qle. assumption. }
  assert (HB2 : (inject_Z (Zpos b) < pow2 (lb + 1))%Q).
  { rewrite pow2_Z by lia. rewrite <- Zlt_Qlt. rewrite <- Z.add_1_r in Hb2. assumption. }
  assert (Hmul : ((a # b) * inject_Z (Zpos b) == inject_Z a)%Q).
  { rewrite Hq'. field. lra. }
  pose proof (pow2_pos lb) as Hplb. pose proof (pow2_pos (la - lb)) as Hp0.
  pose proof (pow2_pos (la - lb - 1)) as Hp1.
  pose proof (pow2_pos (la - lb + 1)) as Hp2.
  assert (E1 : (pow2 (la + 1) == pow2 (la - lb + 1) * pow2 lb)%Q).
  { rewrite <- pow2_plus. replace (la - lb + 1 + lb) with (la + 1) by lia. reflexivity. }
  assert (E2 : (pow2 la == pow2 (la - lb - 1) * pow2 (lb + 1))%Q).
  { rewrite <- pow2_plus. replace (la - lb - 1 + (lb + 1)) with la by lia. reflexivity. }
  assert (Hupper : (a # b < pow2 (la - lb + 1))%Q).
  { apply Qnot_le_lt. intros Hc.
    assert ((pow2 (la - lb + 1) * pow2 lb <= (a # b) * inject_Z (Zpos b))%Q).
    { apply Qle_trans with ((a # b) * pow2 lb)%Q.
      - apply Qmult_le_compat_r; [assumption | lra].
      - rewrite !(Qmult_comm (a # b)). apply Qmult_le_compat_r; [assumption | lra]. }
    lra. }
  assert (Hlower : (pow2 (la - lb - 1) <= a # b)%Q).
  { apply Qnot_lt_le. intros Hc.
    assert (((a # b) * inject_Z (Zpos b) < pow2 (la - lb - 1) * pow2 (lb + 1))%Q).
    { apply Qle_lt_trans with ((a # b) * pow2 (lb + 1))%Q.
      - rewrite !(Qmult_comm (a # b)). apply Qmult_le_compat_r; lra.
      - apply Qmult_lt_compat_r; [apply pow2_pos | assumption]. }
    lra. }
  destruct (Qle_bool (pow2 (la - lb)) (a # b)) eqn:Hc.
  - apply Qle_bool_iff in Hc. split; assumption.
  - assert (Hlt : (a # b < pow2 (la - lb))%Q).
    { apply Qnot_le_lt. intros H. apply Qle_bool_iff in H. congruence. }
    replace (la - lb - 1 + 1) with (la - lb) by lia. split; assumption.
Qed.

(** *** Rounding to nearest *)

Lemma binary64_unit_pos (q : Q) : (0 < binary64_unit q)%Q.
Proof. apply pow2_pos. Qed.

Lemma nearest_binary64_near (q : Q) :
  (Qabs (nearest_binary64 q - q) <= binary64_unit q * (1 # 2))%Q.
Proof.
  unfold nearest_binary64.
  pose proof (binary64_unit_pos q) as Hu.
  pose proof (round_half_even_near (q / binary64_unit q)) as H.
  set (u := binary64_unit q) in *.
  set (k := inject_Z (round_half_even (q / u))) in *.
  apply Qabs_Qle_condition in H. apply Qabs_Qle_condition.
  assert (E : (q == q / u * u)%Q) by (field; lra).
  destruct H as [H1 H2].
  assert (H1' : (- (1 # 2) * u <= (k - q / u) * u)%Q)
    by (apply Qmult_le_compat_r; lra).
  assert (H2' : ((k - q / u) * u <= (1 # 2) * u)%Q)
    by (apply Qmult_le_compat_r; lra).
  split; lra.
Qed.

Lemma binary64_unit_below (q : Q) (k : Z) :
  (0 < q)%Q -> (q < pow2 k)%Q ->
  (binary64_unit q <= pow2 (Z.max (k - 53) (-1074)))%Q.
Proof.
  intros Hq Hk. unfold binary64_unit. apply pow2_le.
  destruct (ilog2_spec q Hq) as [Hlo _].
  assert (ilog2 q < k) by (apply pow2_lt_inv; lra). lia.
Qed.

Lemma binary64_unit_relative (q : Q) :
  (0 < q)%Q -> (binary64_unit q <= q * pow2 (-52) + pow2 (-1074))%Q.
Proof.
  intros Hq. unfold binary64_unit.
  destruct (ilog2_spec q Hq) as [Hlo _].
  pose proof (pow2_pos (-1074)) as H1. pose proof (pow2_pos (-52)) as H2.
  destruct (Z.max_spec (ilog2 q - 52) (-1074)) as [[_ ->] | [_ ->]].
  - assert ((0 <= q * pow2 (-52))%Q) by (apply Qmult_le_0_compat; lra). lra.
  - replace (ilog2 q - 52) with (ilog2 q + -52) by lia. rewrite pow2_plus.
    assert ((pow2 (ilog2 q) * pow2 (-52) <= q * pow2 (-52))%Q)
      by (apply Qmult_le_compat_r; lra).
    lra.
Qed.

(** Below [2^53] the integers are multiples of the unit. *)
Lemma binary64_unit_divides (q : Q) :
  (0 < q)%Q -> (q < pow2 53)%Q ->
  exists j : Z, 0 <= j /\ (binary64_unit q * inject_Z (2 ^ j) == 1)%Q.
Proof.
  intros Hq Hk. unfold binary64_unit.
  destruct (ilog2_spec q Hq) as [Hlo _].
  assert (ilog2 q < 53) by (apply pow2_lt_inv; lra).
  exists (- Z.max (ilog2 q - 52) (-1074)). split; [lia|].
  rewrite <- pow2_Z by lia. rewrite <- pow2_plus.
  replace (Z.max (ilog2 q - 52) (-1074) + - Z.max (ilog2 q - 52) (-1074))
    with 0 by lia.
  reflexivity.
Qed.

Lemma round_half_even_ge (n : Z) (y : Q) :
  (inject_Z n <= y)%Q -> n <= round_half_even y.
Proof.
  intros H. apply Qfloor_resp_le in H. rewrite Qfloor_Z in H.
  unfold round_half_even.
  destruct (y - inject_Z (Qfloor y) ?= 1 # 2)%Q; [destruct (Z.even _)| |]; lia.
Qed.

Lemma Qfloor_between (r : Q) (n : Z) :
  (inject_Z n <= r)%Q -> (r < inject_Z n + 1)%Q -> Qfloor r = n.
Proof.
  intros Hlo Hhi.
  pose proof (Qfloor_le r) as H1. pose proof (Qlt_floor r) as H2.
  rewrite inject_Z_plus in H2. change (inject_Z 1) with 1%Q in H2.
  assert (Ha : (inject_Z (Qfloor r) < inject_Z (n + 1))%Q).
  { rewrite inject_Z_plus. change (inject_Z 1) with 1%Q. lra. }
  assert (Hb : (inject_Z n < inject_Z (Qfloor r + 1))%Q).
  { rewrite inject_Z_plus. change (inject_Z 1) with 1%Q. lra. }
  rewrite <- Zlt_Qlt in Ha, Hb. lia.
Qed.

(** A quotient whose rounding cannot reach the next integer is truncated
    to its floor. *)
Lemma fround_truncates (q : Q) (n : Z) :
  (0 < q)%Q -> (q < pow2 53)%Q ->
  (inject_Z n <= q)%Q ->
  (q + binary64_unit q * (1 # 2) < inject_Z n + 1)%Q ->
  py_int_float (fround q) = Ret n.
Proof.
  intros Hq H53 Hlo Hhi.
  pose proof (nearest_binary64_near q) as Hnear.
  apply Qabs_Qle_condition in Hnear. destruct Hnear as [_ Hnear].
  pose proof (binary64_unit_pos q) as Hu.
  assert (Hge : (inject_Z n <= nearest_binary64 q)%Q).
  { destruct (binary64_unit_divides q Hq H53) as [j [Hj Hinv]].
    unfold nearest_binary64.
    set (u := binary64_unit q) in *.
    assert (Hn : n * 2 ^ j <= round_half_even (q / u)).
    { apply round_half_even_ge. rewrite inject_Z_mult.
      assert (E : (q / u == q * inject_Z (2 ^ j))%Q).
      { rewrite <- (Qmult_1_r (q / u)), <- Hinv. field. lra. }
      rewrite E. apply Qmult_le_compat_r; [assumption|].
      rewrite <- pow2_Z by assumption. apply Qlt_le_weak, pow2_pos. }
    rewrite Zle_Qle, inject_Z_mult in Hn.
    assert (Hn' : (inject_Z n * inject_Z (2 ^ j) * u
                   <= inject_Z (round_half_even (q / u)) * u)%Q)
      by (apply Qmult_le_compat_r; lra).
    assert (E : (inject_Z n * inject_Z (2 ^ j) * u == inject_Z n)%Q).
    { rewrite <- Qmult_assoc, (Qmult_comm (inject_Z (2 ^ j))), Hinv. ring. }
    lra. }
  assert (Hlt : (nearest_binary64 q < inject_Z n + 1)%Q) by lra.
  assert (Hn0 : 0 <= n).
  { assert (Hc : (inject_Z (-1) < inject_Z n)%Q).
    { change (inject_Z (-1)) with (-1)%Q. lra. }
    rewrite <- Zlt_Qlt in Hc. lia. }
  assert (Hn0' : (0 <= inject_Z n)%Q) by (rewrite Zle_Qle in Hn0; exact Hn0).
  unfold fround.
  destruct (Qeq_bool q 0) eqn:E0.
  { apply Qeq_bool_iff in E0. lra. }
  destruct (Qeq_bool (nearest_binary64 q) 0) eqn:E1.
  { apply Qeq_bool_iff in E1. simpl. f_equal.
    assert (Hc : (inject_Z n < inject_Z 1)%Q).
    { change (inject_Z 1) with 1%Q. lra. }
    rewrite <- Zlt_Qlt in Hc. lia. }
  destruct (Qle_bool (pow2 1024) (Qabs (nearest_binary64 q))) eqn:E2.
  { apply Qle_bool_iff in E2. rewrite Qabs_pos in E2 by lra.
    pose proof (pow2_le 54 1024 ltac:(lia)) as H54.
    assert (E54 : (pow2 54 == pow2 53 * 2)%Q).
    { replace 54 with (53 + 1) by lia. rewrite pow2_plus. reflexivity. }
    assert (H1 : (1 <= pow2 53)%Q).
    { change 1%Q with (pow2 0). apply pow2_le. lia. }
    lra. }
  cbn [py_int_float]. f_equal. unfold py_int.
  assert (Hred : (Qred (nearest_binary64 q) == nearest_binary64 q)%Q)
    by apply Qred_correct.
  destruct (Qlt_bool (Qred (nearest_binary64 q)) 0) eqn:E3.
  { apply Qlt_bool_true in E3. lra. }
  apply Qfloor_between; lra.
Qed.

(** True division of a non-negative integer below [2^53] by 60, then
    [int]: the floor of the quotient. *)
Lemma int_div_60 (d : Z) :
  0 <= d <= 2 ^ 53 ->
  py_int_float (fround (inject_Z d / 60)) = Ret (d / 60).
Proof.
  intros Hd.
  destruct (Z.eq_dec d 0) as [->|Hnz]; [reflexivity|].
  assert (Hdq : (0 < inject_Z d)%Q).
  { change 0%Q with (inject_Z 0). rewrite <- Zlt_Qlt. lia. }
  assert (Hq : (0 < inject_Z d / 60)%Q).
  { apply Qlt_shift_div_l; lra. }
  pose proof (Z.div_mod d 60 ltac:(lia)) as Hdm.
  pose proof (Z.mod_pos_bound d 60 ltac:(lia)) as Hmod.
  assert (Hdm' : (inject_Z d == 60 * inject_Z (d / 60) + inject_Z (d mod 60))%Q).
  { rewrite Hdm at 1. rewrite inject_Z_plus, inject_Z_mult. reflexivity. }
  assert (Hm1 : (0 <= inject_Z (d mod 60))%Q).
  { change 0%Q with (inject_Z 0). rewrite <- Zle_Qle. lia. }
  assert (Hm2 : (inject_Z (d mod 60) <= 59)%Q).
  { change 59%Q with (inject_Z 59). rewrite <- Zle_Qle. lia. }
  assert (Hd53 : (inject_Z d <= pow2 53)%Q).
  { rewrite pow2_Z by lia. rewrite <- Zle_Qle. lia. }
  assert (E : (inject_Z d / 60 == inject_Z (d / 60) + inject_Z (d mod 60) / 60)%Q).
  { rewrite Hdm'. field. }
  assert (H48 : (inject_Z d / 60 < pow2 48)%Q).
  { apply Qlt_shift_div_r; [lra|].
    assert (E53 : (pow2 53 == pow2 48 * 32)%Q).
    { replace 53 with (48 + 5) by lia. rewrite pow2_plus. reflexivity. }
    pose proof (pow2_pos 48). lra. }
  pose proof (binary64_unit_below _ 48 Hq H48) as Hu.
  change (pow2 (Z.max (48 - 53) (-1074))) with (1 # 32)%Q in Hu.
  assert (Hf1 : (0 <= inject_Z (d mod 60) / 60)%Q)
    by (apply Qle_shift_div_l; lra).
  assert (Hf2 : (inject_Z (d mod 60) / 60 <= 59 # 60)%Q).
  { apply Qle_shift_div_r; [lra|].
    assert (E' : ((59 # 60) * 60 == 59)%Q) by reflexivity. lra. }
  revert E Hf1 Hf2 Hu H48 Hq.
  generalize (inject_Z (d mod 60) / 60)%Q as f.
  generalize (inject_Z d / 60)%Q as q.
  intros q f E Hf1 Hf2 Hu H48 Hq.
  apply fround_truncates.
  - assumption.
  - eapply Qlt_le_trans; [exact H48 | apply pow2_le; lia].
  - lra.
  - lra.
Qed.

(** A positive binary64 value is a multiple of its unit. *)
Lemma binary64_multiple (v : Q) :
  fround v = FNum v ->
  exists M : Z, (v == inject_Z M * binary64_unit v)%Q.
Proof.
  unfold fround. intros H.
  destruct (Qeq_bool v 0); [discriminate|].
  destruct (Qeq_bool (nearest_binary64 v) 0); [discriminate|].
  destruct (Qle_bool (pow2 1024) (Qabs (nearest_binary64 v))); [discriminate|].
  exists (round_half_even (v / binary64_unit v)).
  inversion H as [Hv]. rewrite Hv.
  rewrite <- (Qred_correct (nearest_binary64 v)). rewrite Hv at 1. reflexivity.
Qed.

(** True division of a non-negative binary64 value below [2^53] by 60,
    then [int]: the floor of the quotient. *)
Lemma float_div_60 (v : Q) :
  fround v = FNum v -> (0 < v)%Q -> (v < pow2 53)%Q ->
  py_int_float (fround (v / 60)) = Ret (Qfloor (v / 60)).
Proof.
  intros Hbin Hv H53.
  assert (Hq : (0 < v / 60)%Q) by (apply Qlt_shift_div_l; lra).
  assert (Hqv : (v == v / 60 * 60)%Q) by (field; lra).
  pose proof (Qfloor_le (v / 60)) as Hfl.
  pose proof (Qlt_floor (v / 60)) as Hfu.
  rewrite inject_Z_plus in Hfu. change (inject_Z 1) with 1%Q in Hfu.
  assert (H53' : (v / 60 < pow2 53)%Q).
  { revert Hq Hqv. generalize (v / 60)%Q. intros q Hq Hqv. lra. }
  apply fround_truncates; try assumption.
  destruct (Qlt_le_dec v 1) as [Hsmall | Hbig].
  - (* the quotient is below 1/60 *)
    assert (Hq1 : (v / 60 < pow2 0)%Q).
    { change (pow2 0) with 1%Q. revert Hq Hqv. generalize (v / 60)%Q.
      intros q Hq Hqv. lra. }
    pose proof (binary64_unit_below _ 0 Hq Hq1) as Hu.
    change (pow2 (Z.max (0 - 53) (-1074))) with (1 # 9007199254740992)%Q in Hu.
    assert (Hn : Qfloor (v / 60) = 0).
    { apply Qfloor_between; change (inject_Z 0) with 0%Q.
      - lra.
      - change (pow2 0) with 1%Q in Hq1. lra. }
    rewrite Hn. change (inject_Z 0) with 0%Q.
    revert Hq Hqv Hu. generalize (binary64_unit (v / 60)).
    generalize (v / 60)%Q. intros q u Hq Hqv Hu. lra.
  - destruct (ilog2_spec v Hv) as [HE1 HE2].
    assert (HE0 : 0 <= ilog2 v).
    { assert (-1 < ilog2 v); [|lia].
      assert (Hc : (pow2 0 < pow2 (ilog2 v + 1))%Q)
        by (change (pow2 0) with 1%Q; lra).
      apply pow2_lt_inv in Hc. lia. }
    assert (HE52 : ilog2 v < 53) by (apply pow2_lt_inv; lra).
    destruct (binary64_multiple v Hbin) as [M HM].
    assert (Hg : binary64_unit v = pow2 (ilog2 v - 52)).
    { unfold binary64_unit. f_equal. lia. }
    rewrite Hg in HM.
    set (E := ilog2 v) in *. set (g := pow2 (E - 52)) in *.
    assert (Hgpos : (0 < g)%Q) by apply pow2_pos.
    assert (Hginv : (g * inject_Z (2 ^ (52 - E)) == 1)%Q).
    { unfold g. rewrite <- pow2_Z by lia. rewrite <- pow2_plus.
      replace (E - 52 + (52 - E)) with 0 by lia. reflexivity. }
    set (n := Qfloor (v / 60)) in *.
    (* the next multiple of 60 is at least one unit above [v] *)
    assert (Hgap : (g <= 60 * (inject_Z n + 1) - v)%Q).
    { set (K := 60 * (n + 1) * 2 ^ (52 - E) + - M).
      assert (HK : (60 * (inject_Z n + 1) - v == inject_Z K * g)%Q).
      { unfold K. rewrite inject_Z_plus, inject_Z_opp, !inject_Z_mult, inject_Z_plus.
        change (inject_Z 60) with 60%Q. change (inject_Z 1) with 1%Q.
        rewrite HM.
        setoid_replace ((60 * (inject_Z n + 1) * inject_Z (2 ^ (52 - E))
                         + - inject_Z M) * g)%Q
          with (60 * (inject_Z n + 1) * (g * inject_Z (2 ^ (52 - E)))
                - inject_Z M * g)%Q by ring.
        rewrite Hginv. ring. }
      assert (HKpos : 0 < K).
      { assert (Hc : (0 < inject_Z K * g)%Q).
        { rewrite <- HK. revert Hfu Hqv. generalize (v / 60)%Q.
          intros q Hfu Hqv. lra. }
        destruct (Z_lt_le_dec 0 K) as [|Hle]; [assumption|].
        exfalso. rewrite Zle_Qle in Hle. change (inject_Z 0) with 0%Q in Hle.
        assert ((inject_Z K * g <= 0 * g)%Q)
          by (apply Qmult_le_compat_r; lra).
        lra. }
      rewrite HK.
      assert (H1 : (1 <= inject_Z K)%Q).
      { change 1%Q with (inject_Z 1). rewrite <- Zle_Qle. lia. }
      assert ((1 * g <= inject_Z K * g)%Q)
        by (apply Qmult_le_compat_r; lra).
      lra. }
    (* the unit of the quotient is at most 1/32 of that unit *)
    assert (Hqk : (v / 60 < pow2 (E - 4))%Q).
    { assert (E4 : (pow2 (E + 1) == pow2 (E - 4) * 32)%Q).
      { replace (E + 1) with (E - 4 + 5) by lia. rewrite pow2_plus.
        reflexivity. }
      pose proof (pow2_pos (E - 4)).
      revert Hq Hqv. generalize (v / 60)%Q. intros q Hq Hqv. lra. }
    pose proof (binary64_unit_below _ (E - 4) Hq Hqk) as Hu.
    replace (Z.max (E - 4 - 53) (-1074)) with (E - 57) in Hu by lia.
    assert (E57 : (g == pow2 (E - 57) * 32)%Q).
    { unfold g. replace (E - 52) with (E - 57 + 5) by lia.
      rewrite pow2_plus. reflexivity. }
    pose proof (pow2_pos (E - 57)).
    revert Hq Hqv Hu Hgap. generalize (binary64_unit (v / 60)).
    generalize (v / 60)%Q. intros q u Hq Hqv Hu Hgap. lra.
Qed.

(** Rounding to two decimals after a division: the result is the binary64
    value of a multiple of 1/100 near the exact quotient. *)
Lemma py_round2_float_near (q : Q) :
  (0 <= q)%Q -> (q < pow2 1023)%Q ->
  exists k : Z,
    py_round2_float (fround q) = fround (k # 100)
    /\ (Qabs ((k # 100) - q) <= (1 # 200) + (q + 1) * pow2 (-53))%Q.
Proof.
  intros Hq0 Hq.
  assert (Htiny : (0 < pow2 (-53))%Q) by apply pow2_pos.
  unfold fround at 1.
  destruct (Qeq_bool q 0) eqn:E0.
  { apply Qeq_bool_iff in E0. exists 0. split; [reflexivity|].
    rewrite E0. apply Qabs_Qle_condition.
    assert (((0 + 1) * pow2 (-53) == pow2 (-53))%Q) by ring.
    split; lra. }
  assert (Hqpos : (0 < q)%Q).
  { destruct (Qlt_le_dec 0 q) as [|Hle]; [assumption|].
    assert (q == 0)%Q by lra. apply Qeq_bool_iff in H. congruence. }
  pose proof (nearest_binary64_near q) as Hnear.
  pose proof (binary64_unit_relative q Hqpos) as Hrel.
  assert (Hu : (binary64_unit q * (1 # 2) <= (q + 1) * pow2 (-53))%Q).
  { assert (E52 : (pow2 (-52) == pow2 (-53) * 2)%Q).
    { replace (-52) with (-53 + 1) by lia. rewrite pow2_plus. reflexivity. }
    pose proof (pow2_le (-1074) (-52) ltac:(lia)) as Hs.
    assert (Hqm : (q * pow2 (-52) == 2 * (q * pow2 (-53)))%Q)
      by (rewrite E52; ring).
    assert (Hqn : ((q + 1) * pow2 (-53) == q * pow2 (-53) + pow2 (-53))%Q)
      by ring.
    revert Hrel Hqm Hqn. generalize (q * pow2 (-52))%Q (q * pow2 (-53))%Q.
    intros a b Hrel Hqm Hqn. lra. }
  apply Qabs_Qle_condition in Hnear. destruct Hnear as [Hn1 Hn2].
  assert (Hr0 : (0 <= nearest_binary64 q)%Q).
  { unfold nearest_binary64. apply Qmult_le_0_compat.
    - change 0%Q with (inject_Z 0). rewrite <- Zle_Qle.
      apply round_half_even_ge. change (inject_Z 0) with 0%Q.
      apply Qle_shift_div_l; [apply binary64_unit_pos|]. lra.
    - apply Qlt_le_weak, binary64_unit_pos. }
  destruct (Qeq_bool (nearest_binary64 q) 0) eqn:E1.
  { apply Qeq_bool_iff in E1. exists 0. split.
    - cbn [py_round2_float].
      destruct (Qlt_bool q 0) eqn:Hs; [apply Qlt_bool_true in Hs; lra|].
      reflexivity.
    - apply Qabs_Qle_condition. split; lra. }
  destruct (Qle_bool (pow2 1024) (Qabs (nearest_binary64 q))) eqn:E2.
  { exfalso. apply Qle_bool_iff in E2. rewrite Qabs_pos in E2 by assumption.
    assert (E24 : (pow2 1024 == pow2 1023 * 2)%Q).
    { replace 1024 with (1023 + 1) by lia. rewrite pow2_plus. reflexivity. }
    pose proof (pow2_le 0 1023 ltac:(lia)) as H1.
    change (pow2 0) with 1%Q in H1.
    pose proof (pow2_le (-53) (-1) ltac:(lia)) as H2.
    change (pow2 (-1)) with (1 # 2)%Q in H2.
    assert (Hb : ((q + 1) * pow2 (-53) <= (q + 1) * (1 # 2))%Q).
    { rewrite !(Qmult_comm (q + 1)). apply Qmult_le_compat_r; lra. }
    lra. }
  cbn [py_round2_float].
  pose proof (Qred_correct (nearest_binary64 q)) as Hred.
  set (x := Qred (nearest_binary64 q)) in *.
  exists (round_half_even (x * 100)). split.
  - destruct (round_half_even (x * 100) =? 0) eqn:Ek; [|reflexivity].
    apply Z.eqb_eq in Ek. rewrite Ek.
    destruct (Qlt_bool x 0) eqn:Hs; [apply Qlt_bool_true in Hs; lra|].
    reflexivity.
  - pose proof (round_half_even_near (x * 100)) as Hk.
    apply Qabs_Qle_condition in Hk. destruct Hk as [Hk1 Hk2].
    assert (Ek : (round_half_even (x * 100) # 100
                  == inject_Z (round_half_even (x * 100)) * (1 # 100))%Q).
    { rewrite Qmake_Qdiv. unfold Qdiv. reflexivity. }
    rewrite Ek. apply Qabs_Qle_condition.
    revert Hk1 Hk2. generalize (inject_Z (round_half_even (x * 100))).
    intros k Hk1 Hk2. split; lra.
Qed.

Lemma Qfloor_int_div_60 (d : Z) : Qfloor (inject_Z d / 60) = d / 60.
Proof.
  pose proof (Z.div_mod d 60 ltac:(lia)) as Hdm.
  pose proof (Z.mod_pos_bound d 60 ltac:(lia)) as Hmod.
  assert (Hdm' : (inject_Z d
                  == 60 * inject_Z (d / 60) + inject_Z (d mod 60))%Q).
  { rewrite Hdm at 1. rewrite inject_Z_plus, inject_Z_mult. reflexivity. }
  assert (Hm1 : (0 <= inject_Z (d mod 60))%Q).
  { change 0%Q with (inject_Z 0). rewrite <- Zle_Qle. lia. }
  assert (Hm2 : (inject_Z (d mod 60) <= 59)%Q).
  { change 59%Q with (inject_Z 59). rewrite <- Zle_Qle. lia. }
  assert (E : (inject_Z d / 60
               == inject_Z (d / 60) + inject_Z (d mod 60) * (1 # 60))%Q).
  { rewrite Hdm'. field. }
  apply Qfloor_between; rewrite E; lra.
Qed.

Lemma fround_finite (q : Q) :
  (0 <= q)%Q -> (q < pow2 1023)%Q -> forall s, fround q <> FInf s.
Proof.
  intros Hq0 Hq s. unfold fround.
  destruct (Qeq_bool q 0) eqn:E0; [discriminate|].
  destruct (Qeq_bool (nearest_binary64 q) 0); [discriminate|].
  destruct (Qle_bool (pow2 1024) (Qabs (nearest_binary64 q))) eqn:E2;
    [|discriminate].
  exfalso.
  assert (Hqpos : (0 < q)%Q).
  { destruct (Qlt_le_dec 0 q) as [|Hle]; [assumption|].
    assert (q == 0)%Q by lra. apply Qeq_bool_iff in H. congruence. }
  pose proof (nearest_binary64_near q) as Hnear.
  apply Qabs_Qle_condition in Hnear. destruct Hnear as [Hn1 Hn2].
  pose proof (binary64_unit_relative q Hqpos) as Hrel.
  apply Qle_bool_iff in E2.
  assert (Hr : (Qabs (nearest_binary64 q) <= q + binary64_unit q * (1 # 2))%Q).
  { apply Qabs_Qle_condition. pose proof (binary64_unit_pos q). split; lra. }
  assert (E24 : (pow2 1024 == pow2 1023 * 2)%Q).
  { replace 1024 with (1023 + 1) by lia. rewrite pow2_plus. reflexivity. }
  pose proof (pow2_le 0 1023 ltac:(lia)) as H1.
  change (pow2 0) with 1%Q in H1.
  pose proof (pow2_le (-52) (-1) ltac:(lia)) as H2.
  change (pow2 (-1)) with (1 # 2)%Q in H2.
  pose proof (pow2_le (-1074) (-1) ltac:(lia)) as H3.
  change (pow2 (-1)) with (1 # 2)%Q in H3.
  pose proof (pow2_pos (-52)) as H4.
  assert (Hb : (q * pow2 (-52) <= q * (1 # 2))%Q).
  { rewrite !(Qmult_comm q). apply Qmult_le_compat_r; lra. }
  revert Hrel Hb. generalize (q * pow2 (-52))%Q. intros a Hrel Hb. lra.
Qed.

(** The division of a number of the response by 60 or by 1000. *)
Lemma py_truediv_number (x : json) (v : Q) (d : Z) :
  json_number x v -> 0 < d ->
  (0 <= v)%Q -> (v / inject_Z d < pow2 1023)%Q ->
  py_truediv x d = Ret (fround (v / inject_Z d)).
Proof.
  intros Hx Hd Hv Hb.
  assert (Hdq : (0 < inject_Z d)%Q).
  { change 0%Q with (inject_Z 0). rewrite <- Zlt_Qlt. assumption. }
  assert (Hq0 : (0 <= v / inject_Z d)%Q)
    by (apply Qle_shift_div_l; [assumption | lra]).
  destruct Hx as [z | v Hbin | ]; cbn [py_truediv].
  - unfold int_truediv.
    pose proof (fround_finite _ Hq0 Hb) as Hfin.
    destruct (fround (inject_Z z / inject_Z d)) as [| | s |];
      try reflexivity.
    exfalso. exact (Hfin s eq_refl).
  - reflexivity.
  - assert (E : (0 / inject_Z d == 0)%Q) by (field; lra).
    unfold fround. apply Qeq_bool_iff in E. rewrite E. reflexivity.
Qed.

(** [int(x / 60)] for a non-negative number of the response below
    [2^53]. *)
Lemma number_div_60 (x : json) (v : Q) :
  json_number x v -> (0 <= v)%Q -> (v < pow2 53)%Q ->
  py_int_float (fround (v / 60)) = Ret (Qfloor (v / 60)).
Proof.
  intros Hx Hv Hb. destruct Hx as [z | v Hbin | ].
  - rewrite Qfloor_int_div_60. apply int_div_60.
    rewrite pow2_Z in Hb by lia. rewrite <- Zlt_Qlt in Hb.
    change 0%Q with (inject_Z 0) in Hv. rewrite <- Zle_Qle in Hv. lia.
  - apply float_div_60; try assumption.
    destruct (Qlt_le_dec 0 v) as [|Hle]; [assumption|].
    exfalso. assert (E : (v == 0)%Q) by lra.
    unfold fround in Hbin. apply Qeq_bool_iff in E. rewrite E in Hbin.
    discriminate.
  - reflexivity.
Qed.

Set Implicit Arguments.

(* ------------------------------------------------------------------ *)
(** ** One call of [get_route_info] *)

Section RoutingFacts.

Variable http_get : list request -> request -> http_outcome.
Variable polyline_decode : json -> outcome (list (Q * Q)).
Variable str_float : Q -> string.

(** Every call returns, after exactly one request; its result is read off
    the answer of the service. *)
Lemma get_route_info_run (user_lat user_lon store_lat store_lon : Q)
  (mode : option string) (log : list request) :
  let req := {| req_method := "GET";
                req_url := osrm_url str_float user_lat user_lon
                             store_lat store_lon
                             (match mode with
                              | Some m => m
                              | None => default_mode
                              end);
                req_timeout := 10 |} in
  get_route_info http_get polyline_decode str_float
    user_lat user_lon store_lat store_lon mode log
  = (Ret (match http_get log req with
          | Response (Some data) =>
              match read_route polyline_decode data with
              | Ret (Some info) => info
              | _ => RouteFailure
              end
          | _ => RouteFailure
          end),
     (log ++ [req])%list).
Proof.
  intros req. unfold get_route_info, mbind, try_except_pass,
    requests_get_json, lift, mret. fold req.
  destruct (http_get log req) as [|[data|]]; try reflexivity.
  destruct (read_route polyline_decode data) as [[info|]|e]; reflexivity.
Qed.

Lemma read_route_lacks_routes (data : json) :
  lacks_routes data = true ->
  forall info, read_route polyline_decode data <> Ret (Some info).
Proof.
  intros H info. unfold read_route.
  destruct data as [| b | z | f | s | items | fields]; simpl;
    try discriminate.
  - destruct (is_substring "routes" s); simpl; discriminate.
  - destruct (existsb _ items); simpl; discriminate.
  - simpl in H. destruct (lookup_field "routes" fields) as [v|] eqn:Hv;
      simpl; [|discriminate].
    destruct v as [| | | | | [|v items] | ]; simpl;
      first [discriminate H | discriminate].
Qed.

Lemma read_route_well_formed (data duration distance geometry : json) :
  well_formed_response data duration distance geometry ->
  read_route polyline_decode data
  = (minutes <- py_truediv duration 60 ;;
     duration_minutes <- py_int_float minutes ;;
     kilometers <- py_truediv distance 1000 ;;
     route_points <- polyline_decode geometry ;;
     Ret (Some (RouteSuccess duration_minutes (py_round2_float kilometers)
                  route_points)))%out.
Proof.
  intros [fields [route_fields [rest [-> [Hr [Hd [Hm Hg]]]]]]].
  unfold read_route. simpl. rewrite Hr. simpl.
  replace (0 <? Z.pos (Pos.of_succ_nat (List.length rest))) with true
    by (symmetry; apply Z.ltb_lt; lia).
  rewrite Hd. simpl. rewrite Hm. simpl. rewrite Hg. reflexivity.
Qed.

End RoutingFacts.

(* ------------------------------------------------------------------ *)
(** ** Claims on the route client *)

(** C2. For every coordinate pair, every mode and every behaviour of the
    routing service, [get_route_info] returns and raises nothing; when the
    service gives no response (network error, timeout), a body that is not
    JSON, or a body without a non-empty ["routes"] list, the result is the
    failure value [{"success": False}]. *)
Theorem get_route_info_never_raises :
  forall (http_get : list request -> request -> http_outcome)
         (polyline_decode : json -> outcome (list (Q * Q)))
         (str_float : Q -> string)
         (user_lat user_lon store_lat store_lon : Q) (mode : option string)
         (log : list request),
  exists (req : request) (r : route_data),
    get_route_info http_get polyline_decode str_float
      user_lat user_lon store_lat store_lon mode log
    = (Ret r, (log ++ [req])%list)
    /\ (route_unavailable (http_get log req) = true ->
        r = RouteFailure /\ success r = false).
Proof.
  intros. eexists. eexists. split; [apply get_route_info_run|].
  intros H.
  destruct (http_get log _) as [|[data|]]; try (split; reflexivity).
  simpl in H.
  destruct (read_route polyline_decode data) as [[info|]|e] eqn:Hr;
    try (split; reflexivity).
  exfalso. exact (read_route_lacks_routes polyline_decode data H Hr).
Qed.

Lemma get_route_info_never_raises_witness :
  exists (req : request) (r : route_data),
    get_route_info service_no_route empty_polyline fixed_text
      (185581 # 10000) (737934 # 10000)
      (18558091 # 1000000) (73793439 # 1000000) (Some "walking") []
    = (Ret r, ([] ++ [req])%list)
    /\ (route_unavailable (service_no_route [] req) = true ->
        r = RouteFailure /\ success r = false).
Proof.
  apply (get_route_info_never_raises service_no_route empty_polyline
           fixed_text (185581 # 10000) (737934 # 10000)
           (18558091 # 1000000) (73793439 # 1000000) (Some "walking") []).
Defined.

(** C5, the claim as stated fails: the quotients are binary64 floats. For a
    distance of 1015 meters [round(1015 / 1000, 2)] is the float 1.01, where
    1.015 rounded to two decimals is 1.02; and for a duration of
    17681883392849879 seconds [int(duration / 60)] is one more than the
    floor of the quotient. *)
Lemma get_route_info_float_rounding :
  fst (get_route_info service_odd_numbers empty_polyline fixed_text
         (185581 # 10000) (737934 # 10000)
         (18558091 # 1000000) (73793439 # 1000000) None [])
  = Ret (RouteSuccess 294698056547498
           (FNum (4548635623644201 # 4503599627370496)) [])
  /\ Qfloor (17681883392849879 / 60) = 294698056547497
  /\ fround (101 # 100) = FNum (4548635623644201 # 4503599627370496)
  /\ py_round2 (1015 / 1000) = 51 # 50
  /\ fround (51 # 50) <> FNum (4548635623644201 # 4503599627370496).
Proof.
  repeat split; try (vm_compute; reflexivity).
  vm_compute. discriminate.
Qed.

(** C5, amended. When the service answers the request with a well-formed
    response whose duration and distance are numbers from 0 up to, but not
    including, [2^53], and whose geometry decodes, [get_route_info] returns
    success with [duration_minutes] the floor of the seconds divided by 60,
    and [distance_km] the float nearest to a multiple of 0.01 that is
    within 0.005, plus the rounding error of the float division, of the
    meters divided by 1000; for the synthetic response with duration 600
    and distance 5000 this is 10 minutes and 5.0 km. *)
Theorem get_route_info_converts_units :
  (forall (http_get : list request -> request -> http_outcome)
          (polyline_decode : json -> outcome (list (Q * Q)))
          (str_float : Q -> string)
          (user_lat user_lon store_lat store_lon : Q) (mode : option string)
          (log : list request) (req : request) (data : json)
          (duration distance geometry : json) (d m : Q)
          (points : list (Q * Q)),
      snd (get_route_info http_get polyline_decode str_float
             user_lat user_lon store_lat store_lon mode log)
      = (log ++ [req])%list ->
      http_get log req = Response (Some data) ->
      well_formed_response data duration distance geometry ->
      json_number duration d -> json_number distance m ->
      (0 <= d)%Q -> (d < inject_Z (2 ^ 53))%Q ->
      (0 <= m)%Q -> (m < inject_Z (2 ^ 53))%Q ->
      polyline_decode geometry = Ret points ->
      exists (route_km : pyfloat) (k : Z),
        fst (get_route_info http_get polyline_decode str_float
               user_lat user_lon store_lat store_lon mode log)
        = Ret (RouteSuccess (Qfloor (d / 60)) route_km points)
        /\ success (RouteSuccess (Qfloor (d / 60)) route_km points) = true
        /\ route_km = fround (k # 100)
        /\ (Qabs ((k # 100) - m / 1000)
            <= (1 # 200) + (m / 1000 + 1) * pow2 (-53))%Q)
  /\ (forall (http_get : list request -> request -> http_outcome)
             (polyline_decode : json -> outcome (list (Q * Q)))
             (str_float : Q -> string)
             (user_lat user_lon store_lat store_lon : Q)
             (mode : option string) (log : list request) (req : request)
             (encoded_path : string) (points : list (Q * Q)),
         snd (get_route_info http_get polyline_decode str_float
                user_lat user_lon store_lat store_lon mode log)
         = (log ++ [req])%list ->
         http_get log req
         = Response (Some (synthetic_response encoded_path)) ->
         polyline_decode (JStr encoded_path) = Ret points ->
         fst (get_route_info http_get polyline_decode str_float
                user_lat user_lon store_lat store_lon mode log)
         = Ret (RouteSuccess 10 (FNum 5) points)).
Proof.
  assert (Hreq : forall http_get polyline_decode str_float
                        user_lat user_lon store_lat store_lon mode log req data,
             snd (get_route_info http_get polyline_decode str_float
                    user_lat user_lon store_lat store_lon mode log)
             = (log ++ [req])%list ->
             http_get log req = Response (Some data) ->
             fst (get_route_info http_get polyline_decode str_float
                    user_lat user_lon store_lat store_lon mode log)
             = Ret (match read_route polyline_decode data with
                    | Ret (Some info) => info
                    | _ => RouteFailure
                    end)).
  { intros until data. rewrite get_route_info_run. cbn [fst snd].
    intros Hlog Hdata. apply app_inv_head in Hlog.
    inversion Hlog as [Hr]. rewrite Hr, Hdata. reflexivity. }
  assert (H53 : (inject_Z (2 ^ 53) == pow2 53)%Q)
    by (rewrite pow2_Z by lia; reflexivity).
  assert (Hsmall : forall v : Q,
             (0 <= v)%Q -> (v < pow2 53)%Q ->
             (v / 60 < pow2 1023)%Q /\ (v / 1000 < pow2 1023)%Q).
  { intros v Hv Hb.
    pose proof (pow2_le 53 1023 ltac:(lia)) as Hle.
    split; apply Qlt_shift_div_r; try reflexivity.
    - assert ((pow2 1023 * 1 <= pow2 1023 * 60)%Q).
      { rewrite !(Qmult_comm (pow2 1023)).
        apply Qmult_le_compat_r; [discriminate|].
        apply Qlt_le_weak, pow2_pos. }
      lra.
    - assert ((pow2 1023 * 1 <= pow2 1023 * 1000)%Q).
      { rewrite !(Qmult_comm (pow2 1023)).
        apply Qmult_le_compat_r; [discriminate|].
        apply Qlt_le_weak, pow2_pos. }
      lra. }
  split.
  - intros until points.
    intros Hlog Hdata Hwf Hdur Hdist Hd0 Hd Hm0 Hm Hdec.
    rewrite H53 in Hd, Hm.
    destruct (Hsmall d Hd0 Hd) as [Hd60 _].
    destruct (Hsmall m Hm0 Hm) as [_ Hm1000].
    assert (Hm0' : (0 <= m / 1000)%Q)
      by (apply Qle_shift_div_l; [reflexivity | lra]).
    destruct (py_round2_float_near (m / 1000) Hm0' Hm1000) as [k [Hk Hnear]].
    exists (fround (k # 100)), k.
    rewrite (Hreq _ _ _ _ _ _ _ _ _ _ _ Hlog Hdata).
    rewrite (read_route_well_formed polyline_decode Hwf).
    rewrite (py_truediv_number duration d 60 Hdur ltac:(lia) Hd0 Hd60).
    cbn [obind]. change (inject_Z 60) with 60%Q.
    rewrite (number_div_60 duration d Hdur Hd0 Hd). cbn [obind].
    rewrite (py_truediv_number distance m 1000 Hdist ltac:(lia) Hm0 Hm1000).
    cbn [obind]. change (inject_Z 1000) with 1000%Q.
    rewrite Hdec. cbn [obind]. rewrite Hk.
    repeat split; try reflexivity. exact Hnear.
  - intros until points. intros Hlog Hdata Hdec.
    rewrite (Hreq _ _ _ _ _ _ _ _ _ _ _ Hlog Hdata).
    assert (Hwf : well_formed_response (synthetic_response encoded_path)
                    (JInt 600) (JInt 5000) (JStr encoded_path)).
    { eexists. eexists. exists []. repeat split; reflexivity. }
    rewrite (read_route_well_formed polyline_decode Hwf).
    rewrite Hdec. vm_compute. reflexivity.
Qed.

Lemma get_route_info_converts_units_witness :
  (exists (route_km : pyfloat) (k : Z),
      fst (get_route_info service_floats empty_polyline fixed_text
             (185581 # 10000) (737934 # 10000)
             (18558091 # 1000000) (73793439 # 1000000) None [])
      = Ret (RouteSuccess (Qfloor ((2401 # 2) / 60)) route_km [])
      /\ success (RouteSuccess (Qfloor ((2401 # 2) / 60)) route_km []) = true
      /\ route_km = fround (k # 100)
      /\ (Qabs ((k # 100) - (20305 # 4) / 1000)
          <= (1 # 200) + ((20305 # 4) / 1000 + 1) * pow2 (-53))%Q)
  /\ fst (get_route_info service_up two_point_polyline fixed_text
            (185581 # 10000) (737934 # 10000)
            (18558091 # 1000000) (73793439 # 1000000) None [])
     = Ret (RouteSuccess 10 (FNum 5)
              [(385 # 10, -1202 # 10); (407 # 10, -12095 # 100)]).
Proof.
  split.
  - eapply (proj1 get_route_info_converts_units service_floats
              empty_polyline fixed_text (185581 # 10000) (737934 # 10000)
              (18558091 # 1000000) (73793439 # 1000000) None []).
    + vm_compute. reflexivity.
    + reflexivity.
    + exists [("code", JStr "Ok");
              ("routes",
               JArr [JObj [("geometry", JStr "_p~iF~ps|U_ulLnnqC_mqNvxq`@");
                           ("duration", JFloat (FNum (2401 # 2)));
                           ("distance", JFloat (FNum (20305 # 4)))]])].
      eexists. exists []. repeat split; reflexivity.
    + apply number_float. vm_compute. reflexivity.
    + apply number_float. vm_compute. reflexivity.
    + vm_compute. discriminate.
    + vm_compute. reflexivity.
    + vm_compute. discriminate.
    + vm_compute. reflexivity.
    + reflexivity.
  - eapply (proj2 get_route_info_converts_units service_up
              two_point_polyline fixed_text (185581 # 10000)
              (737934 # 10000) (18558091 # 1000000) (73793439 # 1000000)
              None []).
    + vm_compute. reflexivity.
    + reflexivity.
    + reflexivity.
Defined.

(** A quotient beyond the range of a float: [10 ** 400 / 60] raises
    [OverflowError] inside the [try], and the call ends in the failure
    value. *)
Example get_route_info_overflow :
  fst (get_route_info
         (fun _ _ =>
            Response (Some (JObj [("routes",
              JArr [JObj [("duration", JInt (10 ^ 400));
                          ("distance", JInt 5000);
                          ("geometry", JStr "_p~iF~ps|U")]])])))
         two_point_polyline fixed_text
         (185581 # 10000) (737934 # 10000)
         (18558091 # 1000000) (73793439 # 1000000) None [])
  = Ret RouteFailure.
Proof. vm_compute. reflexivity. Qed.

(** C8. [get_route_info] issues exactly one request: an HTTP GET with a
    timeout of 10 seconds to the route URL, in which each coordinate pair is
    written longitude first, the origin before the destination, followed by
    [overview=full], and in which the mode is [driving] when the caller
    gives none. *)
Theorem get_route_info_request :
  forall (http_get : list request -> request -> http_outcome)
         (polyline_decode : json -> outcome (list (Q * Q)))
         (str_float : Q -> string)
         (user_lat user_lon store_lat store_lon : Q) (mode : option string)
         (log : list request),
    snd (get_route_info http_get polyline_decode str_float
           user_lat user_lon store_lat store_lon mode log)
    = (log ++
         [ {| req_method := "GET";
              req_url :=
                "http://router.project-osrm.org/route/v1/"
                  ++ (match mode with Some m => m | None => "driving" end)
                  ++ "/" ++ str_float user_lon ++ "," ++ str_float user_lat
                  ++ ";" ++ str_float store_lon ++ "," ++ str_float store_lat
                  ++ "?overview=full";
              req_timeout := 10 |} ])%list.
Proof.
  intros. rewrite get_route_info_run. reflexivity.
Qed.

(* ------------------------------------------------------------------ *)
(** ** Route requests of the map and of the list *)

Lemma marker_routes_app (a b : list map_item) :
  marker_routes (a ++ b) = (marker_routes a ++ marker_routes b)%list.
Proof.
  induction a as [|x a IH]; simpl; [reflexivity|].
  destruct x as [loc [text | name addr phone d r] tip color icon | ];
    simpl; rewrite IH; reflexivity.
Qed.

Lemma marker_count_app (a b : list map_item) :
  marker_count (a ++ b) = (marker_count a + marker_count b)%nat.
Proof.
  induction a as [|x a IH]; simpl; [reflexivity|].
  destruct x; simpl; rewrite IH; reflexivity.
Qed.

Lemma routes_shown_app (a b : list (option (Z * pyfloat))) :
  routes_shown (a ++ b) = (routes_shown a + routes_shown b)%nat.
Proof.
  induction a as [|[x|] a IH]; simpl; rewrite ?IH; reflexivity.
Qed.

Lemma routes_shown_le_length (l : list (option (Z * pyfloat))) :
  (routes_shown l <= List.length l)%nat.
Proof.
  induction l as [|[x|] l IH]; simpl; lia.
Qed.

Lemma routes_shown_none (n : nat) : routes_shown (repeat None n) = 0%nat.
Proof.
  induction n; simpl; [reflexivity | assumption].
Qed.

Lemma routes_shown_le_3 (routes : list (option (Z * pyfloat))) (n : nat) :
  skipn 3 routes = repeat None n -> (routes_shown routes <= 3)%nat.
Proof.
  intros H. rewrite <- (firstn_skipn 3 routes), routes_shown_app, H,
    routes_shown_none.
  pose proof (routes_shown_le_length (firstn 3 routes)) as Hl.
  rewrite length_firstn in Hl. lia.
Qed.

Section PresentationFacts.

Variable http_get : list request -> request -> http_outcome.
Variable polyline_decode : json -> outcome (list (Q * Q)).
Variable str_float : Q -> string.
Variables user_lat user_lon : Q.

(** One run of the loop of [create_map]. It asks for a route for the
    stores at index below 3 only, and only when [show_routes] is set. Either
    it draws every store, or the service answers one of these requests
    with a route without points, at which [folium.PolyLine] raises. *)
Lemma create_map_loop_run (show_routes : bool) :
  forall (stores : list store) (i : nat) (m : list map_item)
         (log : list request),
    (exists drawn,
        create_map_loop http_get polyline_decode str_float user_lat user_lon
          show_routes i stores m log
        = (Ret (m ++ drawn)%list,
           (log ++ map (route_request str_float user_lat user_lon)
                     (firstn (routed show_routes i) stores))%list)
        /\ marker_count drawn = List.length stores
        /\ polyline_count drawn = routes_shown (marker_routes drawn)
        /\ List.length (marker_routes drawn) = List.length stores
        /\ skipn (routed show_routes i) (marker_routes drawn)
           = repeat None (List.length stores - routed show_routes i)
        /\ (show_routes = false -> drawn = plain_markers i stores)
        /\ ((forall l r, route_unavailable (http_get l r) = true) ->
            drawn = plain_markers i stores))
    \/ (exists (k : nat) (s : store),
           (k < routed show_routes i)%nat
           /\ nth_error stores k = Some s
           /\ create_map_loop http_get polyline_decode str_float
                user_lat user_lon show_routes i stores m log
              = (Raise ValueError,
                 (log ++ map (route_request str_float user_lat user_lon)
                           (firstn (S k) stores))%list)
           /\ empty_route http_get polyline_decode
                (log ++ map (route_request str_float user_lat user_lon)
                          (firstn k stores))%list
                (route_request str_float user_lat user_lon s)).
Proof.
  induction stores as [|store rest IH]; intros i m log.
  - left. exists []. cbn [create_map_loop]. unfold mret.
    rewrite firstn_nil, skipn_nil. cbn [map List.length].
    rewrite !app_nil_r. repeat split; reflexivity.
  - remember (create_map_loop http_get polyline_decode str_float
                user_lat user_lon show_routes i (store :: rest) m log)
      as res eqn:Hres.
    cbn [create_map_loop] in Hres. unfold mbind at 1 in Hres.
    destruct (show_routes && (i <? 3)%nat) eqn:Hc.
    + apply andb_true_iff in Hc. destruct Hc as [-> Hi].
      apply Nat.ltb_lt in Hi.
      assert (Hb : routed true i = S (routed true (S i)))
        by (unfold routed; lia).
      rewrite Hb. clear Hb.
      unfold mbind at 1 in Hres. rewrite get_route_info_run in Hres.
      fold (route_request str_float user_lat user_lon store) in Hres.
      set (req := route_request str_float user_lat user_lon store) in *.
      assert (Hplain :
          create_map_loop http_get polyline_decode str_float
            user_lat user_lon true (S i) rest
            (m ++ [Marker (latitude store, longitude store)
                     (StorePopup (store_name store) (address store)
                        (phone_number store) (distance_km store) None)
                     (store_name store) (color_of i) "plus"])%list
            (log ++ [req])%list = res ->
          (exists drawn,
              res
              = (Ret (m ++ drawn)%list,
                 (log ++ map (route_request str_float user_lat user_lon)
                           (firstn (S (routed true (S i)))
                              (store :: rest)))%list)
              /\ marker_count drawn = List.length (store :: rest)
              /\ polyline_count drawn = routes_shown (marker_routes drawn)
              /\ List.length (marker_routes drawn)
                 = List.length (store :: rest)
              /\ skipn (S (routed true (S i))) (marker_routes drawn)
                 = repeat None (List.length (store :: rest)
                                - S (routed true (S i)))
              /\ (true = false -> drawn = plain_markers i (store :: rest))
              /\ ((forall l r, route_unavailable (http_get l r) = true) ->
                  drawn = plain_markers i (store :: rest)))
          \/ (exists (k : nat) s,
                 (k < S (routed true (S i)))%nat
                 /\ nth_error (store :: rest) k = Some s
                 /\ res
                    = (Raise ValueError,
                       (log ++ map (route_request str_float
                                      user_lat user_lon)
                                 (firstn (S k) (store :: rest)))%list)
                 /\ empty_route http_get polyline_decode
                      (log ++ map (route_request str_float
                                     user_lat user_lon)
                                (firstn k (store :: rest)))%list
                      (route_request str_float user_lat user_lon s))).
      { intros <-.
        match goal with
        | |- context [create_map_loop _ _ _ _ _ _ _ _ ?m' ?l'] =>
            destruct (IH (S i) m' l')
              as [[drawn [Hrun [Hmk [Hpl [Hlen [Hskip [_ Hdown]]]]]]]
                 | [k [s [Hk [Hs [Hrun Hempty]]]]]]
        end; rewrite Hrun.
        - left.
          exists (Marker (latitude store, longitude store)
                    (StorePopup (store_name store) (address store)
                       (phone_number store) (distance_km store) None)
                    (store_name store) (color_of i) "plus" :: drawn).
          rewrite <- !app_assoc. cbn [app firstn map].
          split; [reflexivity|].
          split; [cbn [marker_count List.length]; rewrite Hmk; reflexivity|].
          split; [cbn [polyline_count marker_routes routes_shown];
                  exact Hpl|].
          split; [cbn [marker_routes List.length]; rewrite Hlen; reflexivity|].
          split; [cbn [marker_routes skipn List.length]; exact Hskip|].
          split; [discriminate|].
          intros Hall. cbn [plain_markers]. rewrite (Hdown Hall).
          reflexivity.
        - right. exists (S k), s.
          rewrite <- !app_assoc in *. cbn [app firstn map nth_error] in *.
          split; [lia|]. split; [exact Hs|].
          split; [reflexivity | exact Hempty]. }
      destruct (http_get log req) as [|[data|]] eqn:Hget;
        [| destruct (read_route polyline_decode data)
             as [[[|minutes route_km [|p points]]|]|e] eqn:Hread |];
        unfold mbind, lift, folium_PolyLine, mret in Hres;
        cbn [fst snd] in Hres;
        try (apply Hplain; symmetry; exact Hres).
      * right. exists 0%nat, store. cbn [firstn map nth_error].
        rewrite app_nil_r.
        split; [lia|]. split; [reflexivity|]. split; [exact Hres|].
        exists data, minutes, route_km. split; assumption.
      * clear Hplain.
        match type of Hres with
        | context [create_map_loop _ _ _ _ _ _ _ _ ?m' ?l'] =>
            destruct (IH (S i) m' l')
              as [[drawn [Hrun [Hmk [Hpl [Hlen [Hskip [_ Hdown]]]]]]]
                 | [k [s [Hk [Hs [Hrun Hempty]]]]]]
        end; rewrite Hrun in Hres; rewrite Hres.
        -- left.
           exists (PolyLine (p :: points) 4 (color_of i) (8 # 10)
                     ("Route to " ++ store_name store)
                   :: Marker (latitude store, longitude store)
                        (StorePopup (store_name store) (address store)
                           (phone_number store) (distance_km store)
                           (Some (minutes, route_km)))
                        (store_name store) (color_of i) "plus" :: drawn).
           rewrite <- !app_assoc. cbn [app firstn map].
           split; [reflexivity|].
           split; [cbn [marker_count List.length]; rewrite Hmk; reflexivity|].
           split; [cbn [polyline_count marker_routes routes_shown];
                   rewrite Hpl; reflexivity|].
           split; [cbn [marker_routes List.length]; rewrite Hlen;
                   reflexivity|].
           split; [cbn [marker_routes skipn List.length]; exact Hskip|].
           split; [discriminate|].
           intros Hall. exfalso. specialize (Hall log req).
           rewrite Hget in Hall. cbn [route_unavailable] in Hall.
           exact (read_route_lacks_routes polyline_decode data Hall Hread).
        -- right. exists (S k), s.
           rewrite <- !app_assoc in *. cbn [app firstn map nth_error] in *.
           split; [lia|]. split; [exact Hs|].
           split; [reflexivity | exact Hempty].
    + unfold mret in Hres; cbn [fst snd] in Hres.
      assert (Hb : routed show_routes i = 0%nat
                   /\ routed show_routes (S i) = 0%nat).
      { unfold routed. destruct show_routes; [|split; reflexivity].
        simpl in Hc. apply Nat.ltb_ge in Hc. split; lia. }
      destruct Hb as [Hb Hb']. rewrite Hb.
      match type of Hres with
      | context [create_map_loop _ _ _ _ _ _ _ _ ?m' ?l'] =>
          destruct (IH (S i) m' l')
            as [[drawn [Hrun [Hmk [Hpl [Hlen [Hskip [Hoff Hdown]]]]]]]
               | [k [s [Hk _]]]]
      end; [|rewrite Hb' in Hk; lia].
      rewrite Hb' in Hrun, Hskip. left.
      exists (Marker (latitude store, longitude store)
                (StorePopup (store_name store) (address store)
                   (phone_number store) (distance_km store) None)
                (store_name store) (color_of i) "plus" :: drawn).
      rewrite Hres, Hrun. rewrite <- !app_assoc. cbn [app firstn map].
      split; [reflexivity|].
      split; [cbn [marker_count List.length]; rewrite Hmk; reflexivity|].
      split; [cbn [polyline_count marker_routes]; exact Hpl|].
      split; [cbn [marker_routes List.length]; rewrite Hlen; reflexivity|].
      split.
      { cbn [skipn] in Hskip. rewrite Nat.sub_0_r in Hskip.
        cbn [marker_routes skipn List.length]. rewrite Hskip, Nat.sub_0_r.
        reflexivity. }
      split.
      * intros Hs. cbn [plain_markers]. rewrite (Hoff Hs). reflexivity.
      * intros Hall. cbn [plain_markers]. rewrite (Hdown Hall). reflexivity.
Qed.

(** The loop over the nearest stores asks for a route for every store. *)
Lemma nearest_listing_spec :
  forall (stores : list store) (i : nat) (log : list request),
    Forall (fun s => exists d, distance_km s = Some d) stores ->
    exists entries,
      nearest_listing http_get polyline_decode str_float user_lat user_lon
        i stores log
      = (Ret entries,
         (log ++ map (route_request str_float user_lat user_lon) stores)%list)
      /\ map entry_store entries = stores.
Proof.
  induction stores as [|store rest IH]; intros i log Hd.
  - exists []. simpl. rewrite app_nil_r. split; reflexivity.
  - inversion Hd as [|? ? Hs Hrest]; subst.
    cbn [nearest_listing]. unfold mbind at 1. rewrite get_route_info_run.
    fold (route_request str_float user_lat user_lon store).
    set (req := route_request str_float user_lat user_lon store).
    unfold mbind at 1, lift. rewrite (get_distance_km_Some store Hs).
    unfold mbind at 1.
    destruct (IH (S i) (log ++ [req])%list Hrest) as [entries [Hrun Hst]].
    rewrite Hrun. unfold mret.
    eexists. rewrite <- app_assoc. cbn [app map].
    split; [reflexivity|]. cbn [map entry_store]. rewrite Hst. reflexivity.
Qed.

End PresentationFacts.

Lemma skipn_repeat {A} (x : A) :
  forall k n : nat, skipn k (repeat x n) = repeat x (n - k).
Proof.
  induction k as [|k IH]; intros n.
  - rewrite Nat.sub_0_r. reflexivity.
  - destruct n as [|n]; [reflexivity | simpl; apply IH].
Qed.

Lemma routed_requests_length {A B} (f : A -> B) (show_routes : bool)
  (l : list A) :
  List.length (map f (firstn (routed show_routes 0) l))
  = (if show_routes then Nat.min 3 (List.length l) else 0%nat).
Proof.
  rewrite length_map, length_firstn. destruct show_routes; reflexivity.
Qed.

Section MapFacts.

Variable ask_db : string -> outcome string.
Variable http_get : list request -> request -> http_outcome.
Variable polyline_decode : json -> outcome (list (Q * Q)).
Variable str_float : Q -> string.
Variables user_lat user_lon : Q.

(** A service that gives no usable route gives no route without points. *)
Lemma unavailable_routes_have_points :
  (forall l r, route_unavailable (http_get l r) = true) ->
  routes_have_points http_get polyline_decode.
Proof.
  intros Hall log req [data [minutes [route_km [Hget Hread]]]].
  specialize (Hall log req). rewrite Hget in Hall.
  exact (read_route_lacks_routes polyline_decode data Hall Hread).
Qed.

(** [create_map] on a given list: either it returns the map, after a
    request for each of the first three stores when routes are shown, or
    one of these requests is answered with a route without points and
    [ValueError] leaves the function. *)
Lemma create_map_run (stores : list store) (zoom : Z) (show_routes : bool)
  (log : list request) :
  (exists drawn,
      create_map ask_db http_get polyline_decode str_float user_lat user_lon
        (Some stores) zoom show_routes log
      = (Ret {| map_location := (user_lat, user_lon);
                zoom_start := zoom;
                children := user_marker user_lat user_lon :: drawn |},
         (log ++ map (route_request str_float user_lat user_lon)
                   (firstn (routed show_routes 0) stores))%list)
      /\ marker_count drawn = List.length stores
      /\ polyline_count drawn = routes_shown (marker_routes drawn)
      /\ List.length (marker_routes drawn) = List.length stores
      /\ skipn 3 (marker_routes drawn) = repeat None (List.length stores - 3)
      /\ (routes_shown (marker_routes drawn) <= 3)%nat
      /\ (show_routes = false -> drawn = plain_markers 0 stores)
      /\ ((forall l r, route_unavailable (http_get l r) = true) ->
          drawn = plain_markers 0 stores))
  \/ (exists (k : nat) (s : store),
         show_routes = true /\ (k < 3)%nat
         /\ nth_error stores k = Some s
         /\ create_map ask_db http_get polyline_decode str_float
              user_lat user_lon (Some stores) zoom show_routes log
            = (Raise ValueError,
               (log ++ map (route_request str_float user_lat user_lon)
                         (firstn (S k) stores))%list)
         /\ empty_route http_get polyline_decode
              (log ++ map (route_request str_float user_lat user_lon)
                        (firstn k stores))%list
              (route_request str_float user_lat user_lon s)).
Proof.
  unfold create_map. unfold mbind at 1 3. unfold mret at 1 3.
  unfold mbind. fold (user_marker user_lat user_lon).
  destruct (create_map_loop_run http_get polyline_decode str_float
              user_lat user_lon show_routes stores 0
              [user_marker user_lat user_lon] log)
    as [[drawn [Hrun [Hmk [Hpl [Hlen [Hskip [Hoff Hdown]]]]]]]
       | [k [s [Hk [Hs [Hrun Hempty]]]]]]; rewrite Hrun.
  - left. exists drawn. unfold mret. cbn [app].
    assert (Hskip3 : skipn 3 (marker_routes drawn)
                     = repeat None (List.length stores - 3)).
    { destruct show_routes; [exact Hskip|].
      cbn [routed skipn] in Hskip. rewrite Hskip, Nat.sub_0_r.
      apply skipn_repeat. }
    repeat split; try assumption.
    eapply routes_shown_le_3. exact Hskip3.
  - right. exists k, s.
    assert (Hon : show_routes = true).
    { destruct show_routes; [reflexivity|]. cbn [routed] in Hk. lia. }
    subst show_routes. cbn [routed] in Hk.
    repeat split; try assumption; lia.
Qed.

(** [create_map] returns when no route is asked for, or when the routes
    of the service have points. *)
Lemma create_map_returns (stores : list store) (zoom : Z)
  (show_routes : bool) (log : list request) :
  show_routes = false \/ routes_have_points http_get polyline_decode ->
  exists drawn,
    create_map ask_db http_get polyline_decode str_float user_lat user_lon
      (Some stores) zoom show_routes log
    = (Ret {| map_location := (user_lat, user_lon);
              zoom_start := zoom;
              children := user_marker user_lat user_lon :: drawn |},
       (log ++ map (route_request str_float user_lat user_lon)
                 (firstn (routed show_routes 0) stores))%list)
    /\ marker_count drawn = List.length stores
    /\ polyline_count drawn = routes_shown (marker_routes drawn)
    /\ List.length (marker_routes drawn) = List.length stores
    /\ skipn 3 (marker_routes drawn) = repeat None (List.length stores - 3)
    /\ (routes_shown (marker_routes drawn) <= 3)%nat
    /\ (show_routes = false -> drawn = plain_markers 0 stores)
    /\ ((forall l r, route_unavailable (http_get l r) = true) ->
        drawn = plain_markers 0 stores).
Proof.
  intros H.
  destruct (create_map_run stores zoom show_routes log)
    as [Hret | [k [s [Hon [_ [_ [_ Hempty]]]]]]]; [exact Hret|].
  exfalso. destruct H as [Hoff | Hpoints].
  - congruence.
  - exact (Hpoints _ _ Hempty).
Qed.

End MapFacts.

(** The ranking of the catalog, for every [limit]: at most two stores, each
    with its distance. *)
Lemma find_nearest_stores_listed :
  forall (ask_db : string -> outcome string)
         (geodesic : Q * Q -> Q * Q -> outcome Q) (user_lat user_lon : Q)
         (limit : Z) (nearest_stores : list store),
    find_nearest_stores ask_db geodesic user_lat user_lon limit
    = Ret nearest_stores ->
    (List.length nearest_stores <= 2)%nat
    /\ Forall (fun s => exists d, distance_km s = Some d) nearest_stores.
Proof.
  intros ask_db geodesic user_lat user_lon limit nearest_stores.
  unfold find_nearest_stores, get_stores_with_location.
  destruct (ask_db stores_query) as [response|e]; simpl; [|discriminate].
  unfold rank_stores, add_distances, calculate_distance, sample_stores.
  cbn [omap latitude longitude].
  destruct (geodesic _ _) as [d1|e1]; cbn [obind]; [|discriminate].
  destruct (geodesic _ _) as [d2|e2]; cbn [obind]; [|discriminate].
  unfold py_sort. cbn [omap obind get_distance_km set_distance_km
                       distance_km combine sort_keyed insert_keyed fst snd].
  intros Hr. inversion Hr; subst nearest_stores. clear Hr.
  match goal with
  | |- context [py_slice_to ?l ?k] =>
      destruct (py_slice_to_prefix l k) as [n Hn]; rewrite Hn; clear Hn
  end.
  split.
  - rewrite length_firstn.
    destruct (Qlt_bool (py_round2 d2) (py_round2 d1)); cbn [map List.length];
      lia.
  - apply Forall_firstn.
    destruct (Qlt_bool (py_round2 d2) (py_round2 d1)); cbn [map snd];
      repeat constructor; eexists; reflexivity.
Qed.

(* ------------------------------------------------------------------ *)
(** ** Claim on the bound of route requests *)

(** C6. When routes are requested, [create_map] invokes [get_route_info]
    only for the top-3 prefix of the list it draws: whatever happens, the
    requests of one call are those for the first [k <= 3] stores of the
    list, in order; and when the routes of the service have points the call
    returns the map after exactly the requests for the first three stores,
    [min(3, n)] of them for [n] stores, so 3 for a list of 10, and the
    markers from the fourth on, 7 of 10, carry no route. The list of nearest
    stores of [main], which asks for a route for every store it lists,
    only ever lists the ranking of the catalog, of at most two stores. *)
Theorem route_requests_of_map_and_listing :
  forall (ask_db : string -> outcome string)
         (http_get : list request -> request -> http_outcome)
         (polyline_decode : json -> outcome (list (Q * Q)))
         (str_float : Q -> string) (user_lat user_lon : Q)
         (stores : list store) (zoom : Z) (log : list request),
    (exists k : nat,
        (k <= 3)%nat
        /\ snd (create_map ask_db http_get polyline_decode str_float
                  user_lat user_lon (Some stores) zoom true log)
           = (log ++ map (route_request str_float user_lat user_lon)
                       (firstn k stores))%list)
    /\ (routes_have_points http_get polyline_decode ->
        exists m reqs,
          create_map ask_db http_get polyline_decode str_float
            user_lat user_lon (Some stores) zoom true log
          = (Ret m, (log ++ reqs)%list)
          /\ reqs = map (route_request str_float user_lat user_lon)
                      (firstn 3 stores)
          /\ List.length reqs = Nat.min 3 (List.length stores)
          /\ List.length (marker_routes (children m)) = List.length stores
          /\ skipn 3 (marker_routes (children m))
             = repeat None (List.length stores - 3))
    /\ (forall (geodesic : Q * Q -> Q * Q -> outcome Q) (nearest_count : Z)
               (nearest_stores : list store),
           find_nearest_stores ask_db geodesic user_lat user_lon
             nearest_count = Ret nearest_stores ->
           exists entries reqs,
             nearest_listing http_get polyline_decode str_float
               user_lat user_lon 1 nearest_stores log
             = (Ret entries, (log ++ reqs)%list)
             /\ reqs = map (route_request str_float user_lat user_lon)
                         nearest_stores
             /\ (List.length reqs <= 2)%nat).
Proof.
  intros. split; [|split].
  - destruct (create_map_run ask_db http_get polyline_decode str_float
                user_lat user_lon stores zoom true log)
      as [[drawn [Hrun _]] | [k [s [_ [Hk [_ [Hrun _]]]]]]]; rewrite Hrun.
    + exists 3%nat. split; [lia | reflexivity].
    + exists (S k). split; [lia | reflexivity].
  - intros Hpoints.
    destruct (@create_map_returns ask_db http_get polyline_decode str_float
                user_lat user_lon stores zoom true log (or_intror Hpoints))
      as [drawn [Hrun [_ [_ [Hlen [Hskip _]]]]]].
    rewrite Hrun. eexists. eexists.
    split; [reflexivity|]. cbn [routed Nat.sub children].
    split; [reflexivity|].
    split; [rewrite length_map, length_firstn; reflexivity|].
    unfold user_marker. cbn [marker_routes]. split; assumption.
  - intros geodesic nearest_count nearest_stores Hfind.
    destruct (find_nearest_stores_listed _ _ _ _ _ Hfind) as [Hlen Hdist].
    destruct (nearest_listing_spec http_get polyline_decode str_float
                user_lat user_lon 1 log Hdist) as [entries [Hrun _]].
    exists entries. eexists. split; [exact Hrun|].
    split; [reflexivity|]. rewrite length_map. exact Hlen.
Qed.

Lemma route_requests_of_map_and_listing_witness :
  (exists k : nat,
      (k <= 3)%nat
      /\ snd (create_map silent_agent service_up two_point_polyline
                fixed_text (185581 # 10000) (737934 # 10000)
                (Some ten_stores) 12 true [])
         = ([] ++ map (route_request fixed_text (185581 # 10000)
                         (737934 # 10000))
                    (firstn k ten_stores))%list)
  /\ (exists m reqs,
         create_map silent_agent service_up two_point_polyline fixed_text
           (185581 # 10000) (737934 # 10000) (Some ten_stores) 12 true []
         = (Ret m, ([] ++ reqs)%list)
         /\ reqs = map (route_request fixed_text (185581 # 10000)
                          (737934 # 10000))
                     (firstn 3 ten_stores)
         /\ List.length reqs = Nat.min 3 (List.length ten_stores)
         /\ List.length (marker_routes (children m))
            = List.length ten_stores
         /\ skipn 3 (marker_routes (children m))
            = repeat None (List.length ten_stores - 3))
  /\ (exists nearest_stores,
         find_nearest_stores silent_agent flat_geodesic
           (185581 # 10000) (737934 # 10000) 5 = Ret nearest_stores
         /\ exists entries reqs,
             nearest_listing service_up two_point_polyline fixed_text
               (185581 # 10000) (737934 # 10000) 1 nearest_stores []
             = (Ret entries, ([] ++ reqs)%list)
             /\ reqs = map (route_request fixed_text (185581 # 10000)
                              (737934 # 10000)) nearest_stores
             /\ (List.length reqs <= 2)%nat).
Proof.
  destruct (route_requests_of_map_and_listing silent_agent service_up
              two_point_polyline fixed_text (185581 # 10000)
              (737934 # 10000) ten_stores 12 [])
    as [Hbound [Hmap Hlist]].
  split; [exact Hbound|]. split.
  - apply Hmap.
    intros l r [data [minutes [route_km [Hget Hread]]]].
    inversion Hget; subst data. vm_compute in Hread. discriminate.
  - eexists. split; [vm_compute; reflexivity|].
    apply (Hlist flat_geodesic 5). vm_compute. reflexivity.
Defined.

(* ------------------------------------------------------------------ *)
(** ** Runs of the model *)

(** [int] truncates: below zero it differs from the floor. *)
Example py_int_truncates :
  py_int (-(30) / 60) = 0 /\ Qfloor (-(30) / 60) = -1.
Proof. split; reflexivity. Qed.

(** The scenario of the specification: two stores, [limit = 5], the nearer
    one first. *)
Example find_nearest_stores_scenario :
  exists a b,
    find_nearest_stores silent_agent flat_geodesic
      (185581 # 10000) (737934 # 10000) 5 = Ret [a; b]
    /\ store_id a = 2 /\ store_id b = 1
    /\ (km a < km b)%Q.
Proof.
  eexists. eexists. split; [vm_compute; reflexivity|].
  repeat split; reflexivity.
Qed.

(** One run of [main] on the shipped catalog, with routes shown: two
    requests for the map and two for the list. *)
Example main_requests_on_catalog :
  List.length
    (snd (main silent_agent flat_geodesic service_up two_point_polyline
            fixed_text (185581 # 10000) (737934 # 10000) true true 5 []))
  = 4%nat.
Proof. vm_compute. reflexivity. Qed.

(** A route whose path decodes to no point stops the run at the first route
    line of the map: [folium.PolyLine] raises [ValueError], after one
    request. *)
Example main_stops_on_empty_path :
  fst (main silent_agent flat_geodesic service_up empty_polyline
         fixed_text (185581 # 10000) (737934 # 10000) true true 5 [])
  = Raise ValueError
  /\ List.length
       (snd (main silent_agent flat_geodesic service_up empty_polyline
               fixed_text (185581 # 10000) (737934 # 10000) true true 5 []))
     = 1%nat.
Proof. split; vm_compute; reflexivity. Qed.

(** A timeout and a body that is not JSON both end in the failure value,
    after the one request. *)
Example get_route_info_fails_softly :
  fst (get_route_info service_down empty_polyline fixed_text
         (185581 # 10000) (737934 # 10000)
         (18558091 # 1000000) (73793439 # 1000000) None []) = Ret RouteFailure
  /\ fst (get_route_info service_garbled empty_polyline fixed_text
            (185581 # 10000) (737934 # 10000)
            (18558091 # 1000000) (73793439 # 1000000) None [])
     = Ret RouteFailure
  /\ map req_url
       (snd (get_route_info service_down empty_polyline fixed_text
               (185581 # 10000) (737934 # 10000)
               (18558091 # 1000000) (73793439 # 1000000) None []))
     = ["http://router.project-osrm.org/route/v1/driving/73.793400,18.558100;73.793439,18.558091?overview=full"].
Proof. repeat split; vm_compute; reflexivity. Qed.

(* ================================================================== *)
(** * Further properties of [map_agent_auto.py] *)

(** ** The ranking *)

Lemma Forall2_image {A B} (R : A -> B -> Prop) (l : list A) (l' : list B) :
  Forall2 R l l' -> forall a, In a l -> exists b, In b l' /\ R a b.
Proof.
  induction 1 as [|a b l l' Hab _ IH]; intros x Hx.
  - destruct Hx.
  - destruct Hx as [<-|Hx].
    + exists b. split; [left; reflexivity | assumption].
    + destruct (IH x Hx) as [b' [Hin HR]].
      exists b'. split; [right; assumption | assumption].
Qed.

Lemma annotated_km (geodesic : Q * Q -> Q * Q -> outcome Q)
  (user_lat user_lon : Q) (s s' : store) (d : Q) :
  annotated geodesic user_lat user_lon s s' ->
  geodesic (user_lat, user_lon) (latitude s, longitude s) = Ret d ->
  km s' = py_round2 d
  /\ latitude s' = latitude s /\ longitude s' = longitude s
  /\ store_id s' = store_id s.
Proof.
  intros [d' [Hd' ->]] Hd. rewrite Hd in Hd'. inversion Hd'; subst.
  repeat split; reflexivity.
Qed.

Lemma StronglySorted_nth_error {A} (R : A -> A -> Prop) :
  forall (l : list A) (i j : nat) (a b : A),
    StronglySorted R l -> (i < j)%nat ->
    nth_error l i = Some a -> nth_error l j = Some b -> R a b.
Proof.
  induction l as [|x l IH]; intros i j a b Hs Hij Ha Hb.
  - destruct i; discriminate.
  - inversion Hs as [|? ? Hl Hx]; subst.
    destruct j as [|j]; [lia|]. simpl in Hb.
    destruct i as [|i]; simpl in Ha.
    + inversion Ha; subst. rewrite Forall_forall in Hx. apply Hx.
      eapply nth_error_In. exact Hb.
    + eapply (IH i j); try eassumption. lia.
Qed.

(** The head of the ranking is a store at the least rounded distance. *)
Lemma rank_stores_head_least :
  forall (geodesic : Q * Q -> Q * Q -> outcome Q) (user_lat user_lon : Q)
         (stores : list store),
    stores <> [] ->
    distances_defined geodesic user_lat user_lon stores ->
    exists nearest,
      rank_stores geodesic user_lat user_lon stores 1 = Ret [nearest]
      /\ (exists s, In s stores
                    /\ annotated geodesic user_lat user_lon s nearest)
      /\ (forall s d, In s stores ->
            geodesic (user_lat, user_lon) (latitude s, longitude s) = Ret d ->
            (km nearest <= py_round2 d)%Q).
Proof.
  intros geodesic user_lat user_lon stores Hne Hdef.
  destruct (rank_stores_spec 1 Hdef)
    as [stores1 [sorted [_ [Hann [Hperm [Hsorted [_ Hrank]]]]]]].
  assert (Hlen : List.length sorted = List.length stores).
  { rewrite <- (Permutation_length Hperm). symmetry.
    eapply Forall2_length. exact Hann. }
  destruct sorted as [|nearest rest].
  { destruct stores; [congruence | discriminate]. }
  exists nearest. split; [exact Hrank|].
  assert (Hpre : Forall (fun b => exists a, In a stores
                           /\ annotated geodesic user_lat user_lon a b)
                   (nearest :: rest)).
  { eapply Permutation_Forall; [exact Hperm|].
    apply Forall2_preimage. assumption. }
  split; [inversion Hpre; assumption|].
  intros s d Hs Hd.
  destruct (Forall2_image Hann s Hs) as [s' [Hs' Hss']].
  destruct (annotated_km Hss' Hd) as [<- _].
  apply (Permutation_in _ Hperm) in Hs'.
  inversion Hsorted as [|? ? _ Hall]; subst.
  destruct Hs' as [<-|Hs'].
  - apply Qle_refl.
  - rewrite Forall_forall in Hall. apply Hall. assumption.
Qed.

(** X1. The button "Find Nearest Store": whenever the agent answers and the
    distances of the catalog can be computed, the button finds a store (the
    index [0] never fails), shows its name with its rounded distance, and no
    store of the catalog has a smaller rounded distance. *)
Theorem find_nearest_button_least :
  forall (ask_db : string -> outcome string) (response : string)
         (geodesic : Q * Q -> Q * Q -> outcome Q) (user_lat user_lon : Q),
    ask_db stores_query = Ret response ->
    distances_defined geodesic user_lat user_lon sample_stores ->
    exists (s : store) (d : Q),
      find_nearest_button ask_db geodesic user_lat user_lon
      = Ret (store_name s, py_round2 d)
      /\ In s sample_stores
      /\ geodesic (user_lat, user_lon) (latitude s, longitude s) = Ret d
      /\ (forall s' d', In s' sample_stores ->
            geodesic (user_lat, user_lon) (latitude s', longitude s') = Ret d' ->
            (py_round2 d <= py_round2 d')%Q).
Proof.
  intros ask_db response geodesic user_lat user_lon Hdb Hdef.
  assert (Hne : sample_stores <> []) by discriminate.
  destruct (rank_stores_head_least Hne Hdef)
    as [nearest [Hrank [[s [Hs Hann]] Hleast]]].
  destruct Hann as [d [Hd ->]].
  exists s, d.
  unfold find_nearest_button, find_nearest_stores, get_stores_with_location.
  rewrite Hdb. simpl obind. rewrite Hrank. simpl.
  repeat split; try assumption.
Qed.

Lemma find_nearest_button_least_witness :
  exists (s : store) (d : Q),
    find_nearest_button silent_agent flat_geodesic
      (185581 # 10000) (737934 # 10000)
    = Ret (store_name s, py_round2 d)
    /\ In s sample_stores
    /\ flat_geodesic (185581 # 10000, 737934 # 10000)
         (latitude s, longitude s) = Ret d
    /\ (forall s' d', In s' sample_stores ->
          flat_geodesic (185581 # 10000, 737934 # 10000)
            (latitude s', longitude s') = Ret d' ->
          (py_round2 d <= py_round2 d')%Q).
Proof.
  apply (@find_nearest_button_least silent_agent "" flat_geodesic
           (185581 # 10000) (737934 # 10000)).
  - reflexivity.
  - repeat constructor; eexists; vm_compute; reflexivity.
Defined.

(** X2. Raising the limit only appends to the ranking: for
    [0 <= k <= k'] the ranking for [k] is the first [k] entries of the
    ranking for [k']. *)
Theorem rank_stores_limit_prefix :
  forall (geodesic : Q * Q -> Q * Q -> outcome Q) (user_lat user_lon : Q)
         (stores : list store) (k k' : Z),
    0 <= k <= k' ->
    distances_defined geodesic user_lat user_lon stores ->
    exists longer,
      rank_stores geodesic user_lat user_lon stores k' = Ret longer
      /\ rank_stores geodesic user_lat user_lon stores k
         = Ret (firstn (Z.to_nat k) longer).
Proof.
  intros geodesic user_lat user_lon stores k k' Hk Hdef.
  destruct (add_distances_spec Hdef) as [stores1 [H1 Hann]].
  destruct (py_sort_distance_spec (annotated_has_distance Hann))
    as [sorted [Hsort _]].
  exists (firstn (Z.to_nat k') sorted).
  unfold rank_stores. rewrite H1. simpl. rewrite Hsort. simpl.
  rewrite !py_slice_to_positive by lia.
  split; [reflexivity|].
  rewrite firstn_firstn. do 2 f_equal. lia.
Qed.

Lemma rank_stores_limit_prefix_witness :
  exists longer,
    rank_stores flat_geodesic (185581 # 10000) (737934 # 10000)
      sample_stores 2 = Ret longer
    /\ rank_stores flat_geodesic (185581 # 10000) (737934 # 10000)
         sample_stores 1
       = Ret (firstn (Z.to_nat 1) longer).
Proof.
  apply (@rank_stores_limit_prefix flat_geodesic
           (185581 # 10000) (737934 # 10000) sample_stores 1 2).
  - lia.
  - repeat constructor; eexists; vm_compute; reflexivity.
Defined.

(** X3. The ranking follows the true distances up to the rounding: a store
    ranked before another one is at most 0.01 km farther from the origin
    than that one. *)
Theorem rank_stores_true_distance :
  forall (geodesic : Q * Q -> Q * Q -> outcome Q) (user_lat user_lon : Q)
         (stores : list store) (limit : Z),
    distances_defined geodesic user_lat user_lon stores ->
    exists ranked,
      rank_stores geodesic user_lat user_lon stores limit = Ret ranked
      /\ (forall (i j : nat) (a b : store) (da db : Q),
             (i < j)%nat ->
             nth_error ranked i = Some a -> nth_error ranked j = Some b ->
             geodesic (user_lat, user_lon) (latitude a, longitude a) = Ret da ->
             geodesic (user_lat, user_lon) (latitude b, longitude b) = Ret db ->
             (da <= db + (1 # 100))%Q).
Proof.
  intros geodesic user_lat user_lon stores limit Hdef.
  destruct (rank_stores_spec limit Hdef)
    as [stores1 [sorted [_ [Hann [Hperm [Hsorted [_ Hrank]]]]]]].
  exists (py_slice_to sorted limit). split; [exact Hrank|].
  destruct (py_slice_to_prefix sorted limit) as [n ->].
  intros i j a b da db Hij Ha Hb Hda Hdb.
  rewrite nth_error_firstn in Ha, Hb.
  destruct (i <? n)%nat; [|discriminate].
  destruct (j <? n)%nat; [|discriminate].
  pose proof (StronglySorted_nth_error Hsorted Hij Ha Hb) as Hkm.
  unfold by_distance in Hkm.
  assert (Hpre : Forall (fun r => exists s, In s stores
                           /\ annotated geodesic user_lat user_lon s r)
                   sorted).
  { eapply Permutation_Forall; [exact Hperm|].
    apply Forall2_preimage. assumption. }
  rewrite Forall_forall in Hpre.
  assert (Hround : forall r d, In r sorted ->
             geodesic (user_lat, user_lon) (latitude r, longitude r) = Ret d ->
             km r = py_round2 d).
  { intros r d Hr Hd. destruct (Hpre r Hr) as [s [_ [d' [Hd' ->]]]].
    simpl in Hd. rewrite Hd in Hd'. inversion Hd'; subst. reflexivity. }
  rewrite (Hround a da (nth_error_In _ _ Ha) Hda) in Hkm.
  rewrite (Hround b db (nth_error_In _ _ Hb) Hdb) in Hkm.
  destruct (py_round2_spec da) as [_ [_ Ha']].
  destruct (py_round2_spec db) as [_ [_ Hb']].
  apply Qabs_Qle_condition in Ha'. apply Qabs_Qle_condition in Hb'.
  lra.
Qed.

Lemma rank_stores_true_distance_witness :
  exists ranked,
    rank_stores flat_geodesic (185581 # 10000) (737934 # 10000)
      sample_stores 5 = Ret ranked
    /\ (forall (i j : nat) (a b : store) (da db : Q),
           (i < j)%nat ->
           nth_error ranked i = Some a -> nth_error ranked j = Some b ->
           flat_geodesic (185581 # 10000, 737934 # 10000)
             (latitude a, longitude a) = Ret da ->
           flat_geodesic (185581 # 10000, 737934 # 10000)
             (latitude b, longitude b) = Ret db ->
           (da <= db + (1 # 100))%Q).
Proof.
  apply (@rank_stores_true_distance flat_geodesic
           (185581 # 10000) (737934 # 10000) sample_stores 5).
  repeat constructor; eexists; vm_compute; reflexivity.
Defined.

(** ** The map *)

Section MapClaims.

Variable ask_db : string -> outcome string.
Variable http_get : list request -> request -> http_outcome.
Variable polyline_decode : json -> outcome (list (Q * Q)).
Variable str_float : Q -> string.
Variables user_lat user_lon : Q.

(** X4. Without routes [create_map] never contacts the routing service: the
    map holds the marker of the user followed by one marker per store, in
    the order of the list, none with a route. *)
Theorem create_map_without_routes :
  forall (stores : list store) (zoom : Z) (log : list request),
    create_map ask_db http_get polyline_decode str_float user_lat user_lon
      (Some stores) zoom false log
    = (Ret {| map_location := (user_lat, user_lon);
              zoom_start := zoom;
              children := user_marker user_lat user_lon
                          :: plain_markers 0 stores |},
       log).
Proof.
  intros stores zoom log.
  destruct (@create_map_returns ask_db http_get polyline_decode str_float
              user_lat user_lon stores zoom false log (or_introl eq_refl))
    as [drawn [Hrun [_ [_ [_ [_ [_ [Hoff _]]]]]]]].
  rewrite (Hoff eq_refl) in Hrun. cbn [routed firstn map] in Hrun.
  rewrite app_nil_r in Hrun. exact Hrun.
Qed.

(** X5. A routing service that gives no usable route never aborts or
    changes the map: with routes requested, [create_map] returns the same
    map as without routes, after one request for each of the first three
    stores. *)
Theorem create_map_service_unavailable :
  forall (stores : list store) (zoom : Z) (log : list request),
    (forall l r, route_unavailable (http_get l r) = true) ->
    exists reqs,
      create_map ask_db http_get polyline_decode str_float user_lat user_lon
        (Some stores) zoom true log
      = (fst (create_map ask_db http_get polyline_decode str_float
                user_lat user_lon (Some stores) zoom false log),
         (log ++ reqs)%list)
      /\ List.length reqs = Nat.min 3 (List.length stores).
Proof.
  intros stores zoom log Hall.
  destruct (@create_map_returns ask_db http_get polyline_decode str_float
              user_lat user_lon stores zoom true log
              (or_intror (@unavailable_routes_have_points http_get
                            polyline_decode Hall)))
    as [drawn [Hrun [_ [_ [_ [_ [_ [_ Hdown]]]]]]]].
  destruct (@create_map_returns ask_db http_get polyline_decode str_float
              user_lat user_lon stores zoom false log (or_introl eq_refl))
    as [drawn' [Hrun' [_ [_ [_ [_ [_ [Hoff _]]]]]]]].
  eexists. rewrite Hrun, Hrun', (Hdown Hall), (Hoff eq_refl).
  split; [reflexivity|]. apply (routed_requests_length _ true).
Qed.

(** X6. [create_map] either returns a map with the marker of the user and
    exactly one marker per store, in which a route line is drawn exactly for
    the popups that show a route, at most three of them; or, with routes
    shown, the service answers the request for one of the first three stores
    with a route whose path decodes to no point, and [ValueError] of
    [folium.PolyLine] leaves [create_map] right after that request. When no
    route is asked for, or when the routes of the service have points, it
    returns. *)
Theorem create_map_markers_and_lines :
  forall (stores : list store) (zoom : Z) (show_routes : bool)
         (log : list request),
    ((exists m log',
         create_map ask_db http_get polyline_decode str_float
           user_lat user_lon (Some stores) zoom show_routes log
         = (Ret m, log')
         /\ marker_count (children m) = S (List.length stores)
         /\ polyline_count (children m)
            = routes_shown (marker_routes (children m))
         /\ (polyline_count (children m) <= 3)%nat)
     \/ (exists (k : nat) (s : store),
            show_routes = true /\ (k < 3)%nat
            /\ nth_error stores k = Some s
            /\ create_map ask_db http_get polyline_decode str_float
                 user_lat user_lon (Some stores) zoom show_routes log
               = (Raise ValueError,
                  (log ++ map (route_request str_float user_lat user_lon)
                            (firstn (S k) stores))%list)
            /\ empty_route http_get polyline_decode
                 (log ++ map (route_request str_float user_lat user_lon)
                           (firstn k stores))%list
                 (route_request str_float user_lat user_lon s)))
    /\ (show_routes = false \/ routes_have_points http_get polyline_decode ->
        exists m log',
          create_map ask_db http_get polyline_decode str_float
            user_lat user_lon (Some stores) zoom show_routes log
          = (Ret m, log')
          /\ marker_count (children m) = S (List.length stores)
          /\ polyline_count (children m)
             = routes_shown (marker_routes (children m))
          /\ (polyline_count (children m) <= 3)%nat).
Proof.
  intros stores zoom show_routes log.
  assert (Hret :
    forall drawn log',
      create_map ask_db http_get polyline_decode str_float
        user_lat user_lon (Some stores) zoom show_routes log
      = (Ret {| map_location := (user_lat, user_lon);
                zoom_start := zoom;
                children := user_marker user_lat user_lon :: drawn |}, log') ->
      marker_count drawn = List.length stores ->
      polyline_count drawn = routes_shown (marker_routes drawn) ->
      (routes_shown (marker_routes drawn) <= 3)%nat ->
      exists m log',
        create_map ask_db http_get polyline_decode str_float
          user_lat user_lon (Some stores) zoom show_routes log
        = (Ret m, log')
        /\ marker_count (children m) = S (List.length stores)
        /\ polyline_count (children m)
           = routes_shown (marker_routes (children m))
        /\ (polyline_count (children m) <= 3)%nat).
  { intros drawn log' Hrun Hmk Hpl Hle.
    eexists. eexists. split; [exact Hrun|].
    cbn [children]. unfold user_marker.
    cbn [marker_count polyline_count marker_routes].
    rewrite Hmk, Hpl. repeat split; try reflexivity. exact Hle. }
  split.
  - destruct (create_map_run ask_db http_get polyline_decode str_float
                user_lat user_lon stores zoom show_routes log)
      as [[drawn [Hrun [Hmk [Hpl [_ [_ [Hle _]]]]]]] | Hraise].
    + left. exact (Hret _ _ Hrun Hmk Hpl Hle).
    + right. exact Hraise.
  - intros H.
    destruct (@create_map_returns ask_db http_get polyline_decode str_float
                user_lat user_lon stores zoom show_routes log H)
      as [drawn [Hrun [Hmk [Hpl [_ [_ [Hle _]]]]]]].
    exact (Hret _ _ Hrun Hmk Hpl Hle).
Qed.

End MapClaims.

Lemma create_map_service_unavailable_witness :
  exists reqs,
    create_map silent_agent service_down empty_polyline fixed_text
      (185581 # 10000) (737934 # 10000) (Some ten_stores) 12 true []
    = (fst (create_map silent_agent service_down empty_polyline fixed_text
              (185581 # 10000) (737934 # 10000) (Some ten_stores) 12
              false []),
       ([] ++ reqs)%list)
    /\ List.length reqs = Nat.min 3 (List.length ten_stores).
Proof.
  apply (@create_map_service_unavailable silent_agent service_down
           empty_polyline fixed_text (185581 # 10000) (737934 # 10000)
           ten_stores 12 []).
  intros l r. reflexivity.
Defined.

Lemma create_map_markers_and_lines_witness :
  exists m log',
    create_map silent_agent service_up two_point_polyline fixed_text
      (185581 # 10000) (737934 # 10000) (Some ten_stores) 12 true []
    = (Ret m, log')
    /\ marker_count (children m) = S (List.length ten_stores)
    /\ polyline_count (children m)
       = routes_shown (marker_routes (children m))
    /\ (polyline_count (children m) <= 3)%nat.
Proof.
  apply (proj2 (@create_map_markers_and_lines silent_agent service_up
                  two_point_polyline fixed_text (185581 # 10000)
                  (737934 # 10000) ten_stores 12 true [])).
  right. intros l r [data [minutes [route_km [Hget Hread]]]].
  inversion Hget; subst data. vm_compute in Hread. discriminate.
Defined.

(** The run of [create_map] that the second case of X6 describes: the path
    of the first route decodes to no point. *)
Example create_map_stops_on_empty_path :
  create_map silent_agent service_up empty_polyline fixed_text
    (185581 # 10000) (737934 # 10000) (Some ten_stores) 12 true []
  = (Raise ValueError,
     map (route_request fixed_text (185581 # 10000) (737934 # 10000))
       (firstn 1 ten_stores)).
Proof. vm_compute. reflexivity. Qed.

(** ** The list of nearest stores and one run of [main] *)

Section ListingFacts.

Variable http_get : list request -> request -> http_outcome.
Variable polyline_decode : json -> outcome (list (Q * Q)).
Variable str_float : Q -> string.
Variables user_lat user_lon : Q.

Lemma nearest_listing_entries :
  forall (stores : list store) (i : nat) (log log' : list request)
         (entries : list listing_entry),
    nearest_listing http_get polyline_decode str_float user_lat user_lon
      i stores log = (Ret entries, log') ->
    map entry_index entries = seq i (List.length stores)
    /\ Forall (fun e => distance_km (entry_store e) = Some (entry_distance e))
         entries.
Proof.
  induction stores as [|store rest IH]; intros i log log' entries.
  - simpl. unfold mret. intros H. inversion H; subst.
    split; [reflexivity | constructor].
  - cbn [nearest_listing]. unfold mbind at 1. rewrite get_route_info_run.
    unfold mbind at 1, lift. unfold get_distance_km.
    destruct (distance_km store) as [d|] eqn:Hd; [|discriminate].
    unfold mbind at 1.
    match goal with
    | |- context [nearest_listing _ _ _ _ _ (S i) rest ?l] =>
        destruct (nearest_listing http_get polyline_decode str_float
                    user_lat user_lon (S i) rest l)
          as [[rest_entries|e] l'] eqn:Hrest
    end; [|discriminate].
    unfold mret. intros H. inversion H; subst.
    destruct (IH _ _ _ _ Hrest) as [Hidx Hkm].
    split.
    + simpl. rewrite Hidx. reflexivity.
    + constructor; [exact Hd | exact Hkm].
Qed.

End ListingFacts.

(** X7. The list of nearest stores of [main] never fails on a missing
    ['distance_km']: every store that [find_nearest_stores] returns carries
    its distance, so the loop over that result returns one entry per store,
    in the order of the ranking and numbered from 1, each with the distance
    of its store, after exactly one route request per store. *)
Theorem nearest_listing_on_ranking :
  forall (ask_db : string -> outcome string)
         (geodesic : Q * Q -> Q * Q -> outcome Q)
         (http_get : list request -> request -> http_outcome)
         (polyline_decode : json -> outcome (list (Q * Q)))
         (str_float : Q -> string) (user_lat user_lon : Q)
         (nearest_count : Z) (nearest_stores : list store)
         (log : list request),
    find_nearest_stores ask_db geodesic user_lat user_lon nearest_count
    = Ret nearest_stores ->
    Forall (fun s => exists d, distance_km s = Some d) nearest_stores
    /\ exists entries,
        nearest_listing http_get polyline_decode str_float
          user_lat user_lon 1 nearest_stores log
        = (Ret entries,
           (log ++ map (route_request str_float user_lat user_lon)
                     nearest_stores)%list)
        /\ map entry_store entries = nearest_stores
        /\ map entry_index entries = seq 1 (List.length nearest_stores)
        /\ Forall (fun e => distance_km (entry_store e)
                            = Some (entry_distance e)) entries.
Proof.
  intros ask_db geodesic http_get polyline_decode str_float
    user_lat user_lon nearest_count nearest_stores log Hfind.
  destruct (find_nearest_stores_listed _ _ _ _ _ Hfind) as [_ Hdist].
  split; [exact Hdist|].
  destruct (nearest_listing_spec http_get polyline_decode str_float
              user_lat user_lon 1 log Hdist) as [entries [Hrun Hst]].
  destruct (nearest_listing_entries _ _ _ _ _ _ _ _ Hrun) as [Hidx Hkm].
  exists entries. repeat split; assumption.
Qed.

Lemma nearest_listing_on_ranking_witness :
  exists nearest_stores,
    find_nearest_stores silent_agent flat_geodesic
      (185581 # 10000) (737934 # 10000) 5 = Ret nearest_stores
    /\ Forall (fun s => exists d, distance_km s = Some d) nearest_stores
    /\ exists entries,
        nearest_listing service_up two_point_polyline fixed_text
          (185581 # 10000) (737934 # 10000) 1 nearest_stores []
        = (Ret entries,
           ([] ++ map (route_request fixed_text (185581 # 10000)
                         (737934 # 10000)) nearest_stores)%list)
        /\ map entry_store entries = nearest_stores
        /\ map entry_index entries = seq 1 (List.length nearest_stores)
        /\ Forall (fun e => distance_km (entry_store e)
                            = Some (entry_distance e)) entries.
Proof.
  eexists. split; [vm_compute; reflexivity|].
  apply (@nearest_listing_on_ranking silent_agent flat_geodesic service_up
           two_point_polyline fixed_text (185581 # 10000) (737934 # 10000)
           5).
  vm_compute. reflexivity.
Defined.

(** X8. One run of [main] with a known location, when the agent answers,
    the distances of the catalog can be computed, the slider is at 1 or
    more and, if routes are shown, the routes of the service have points:
    the run completes; the list shows the ranking for the slider
    value, numbered from 1, each store with its own distance; and the run
    issues one route request per listed store, plus, when routes are shown,
    one per store on the map up to three. *)
Theorem main_run :
  forall (ask_db : string -> outcome string) (response : string)
         (geodesic : Q * Q -> Q * Q -> outcome Q)
         (http_get : list request -> request -> http_outcome)
         (polyline_decode : json -> outcome (list (Q * Q)))
         (str_float : Q -> string) (user_lat user_lon : Q)
         (show_all show_routes : bool) (nearest_count : Z)
         (log : list request),
    ask_db stores_query = Ret response ->
    distances_defined geodesic user_lat user_lon sample_stores ->
    1 <= nearest_count ->
    show_routes = false \/ routes_have_points http_get polyline_decode ->
    exists map_obj entries reqs,
      main ask_db geodesic http_get polyline_decode str_float
        user_lat user_lon show_all show_routes nearest_count log
      = (Ret (map_obj, entries), (log ++ reqs)%list)
      /\ find_nearest_stores ask_db geodesic user_lat user_lon nearest_count
         = Ret (map entry_store entries)
      /\ List.length entries = Nat.min (Z.to_nat nearest_count) 2
      /\ map entry_index entries = seq 1 (List.length entries)
      /\ Forall (fun e => distance_km (entry_store e)
                          = Some (entry_distance e)) entries
      /\ marker_count (children map_obj)
         = S (if show_all then 2 else List.length entries)
      /\ List.length reqs
         = ((if show_routes
             then Nat.min 3 (if show_all then 2 else List.length entries)
             else 0)
            + List.length entries)%nat.
Proof.
  intros ask_db response geodesic http_get polyline_decode str_float
    user_lat user_lon show_all show_routes nearest_count log Hdb Hdef Hcount
    Hpoints.
  destruct (rank_stores_ranked Hcount Hdef sample_stores_distinct)
    as [ranked [Hrank [_ [Hlen [_ [Hpre _]]]]]].
  assert (Hfind : find_nearest_stores ask_db geodesic user_lat user_lon
                    nearest_count = Ret ranked).
  { unfold find_nearest_stores, get_stores_with_location.
    rewrite Hdb. simpl. exact Hrank. }
  assert (Hdist : Forall (fun s => exists d, distance_km s = Some d) ranked).
  { eapply Forall_impl; [|exact Hpre].
    intros r [s [_ [d [_ ->]]]]. eexists. reflexivity. }
  destruct (add_distances_spec Hdef) as [stores1 [H1 Hann]].
  destruct (py_sort_distance_spec (annotated_has_distance Hann))
    as [sorted [Hsort [Hperm _]]].
  assert (Hsorted_len : List.length sorted = 2%nat).
  { rewrite <- (Permutation_length Hperm).
    rewrite <- (Forall2_length Hann). reflexivity. }
  assert (Hmap : exists map_obj reqs1,
             (if show_all
              then mbind (lift (get_stores_with_location ask_db))
                     (fun stores =>
                        mbind (lift (add_distances geodesic user_lat user_lon
                                       stores))
                          (fun stores1 =>
                             mbind (lift (py_sort get_distance_km stores1))
                               (fun stores2 =>
                                  create_map ask_db http_get polyline_decode
                                    str_float user_lat user_lon (Some stores2)
                                    12 show_routes)))
              else mbind (lift (find_nearest_stores ask_db geodesic
                                  user_lat user_lon nearest_count))
                     (fun nearest_stores =>
                        create_map ask_db http_get polyline_decode str_float
                          user_lat user_lon (Some nearest_stores) 12
                          show_routes)) log
             = (Ret map_obj, (log ++ reqs1)%list)
             /\ marker_count (children map_obj)
                = S (if show_all then 2 else List.length ranked)
             /\ List.length reqs1
                = (if show_routes
                   then Nat.min 3 (if show_all then 2 else List.length ranked)
                   else 0%nat)).
  { destruct show_all.
    - destruct (@create_map_returns ask_db http_get polyline_decode str_float
                  user_lat user_lon sorted 12 show_routes log Hpoints)
        as [drawn [Hrun [Hmk _]]].
      pose proof (routed_requests_length
                    (route_request str_float user_lat user_lon)
                    show_routes sorted) as Hreqs.
      eexists. eexists.
      unfold mbind at 1, lift at 1, get_stores_with_location.
      rewrite Hdb. cbn [obind]. cbv beta iota.
      unfold mbind at 1, lift at 1. rewrite H1. cbv beta iota.
      unfold mbind at 1, lift at 1. rewrite Hsort. cbv beta iota.
      rewrite Hrun.
      split; [reflexivity|]. cbn [children]. unfold user_marker. simpl.
      rewrite Hmk, Hreqs, Hsorted_len. split; reflexivity.
    - destruct (@create_map_returns ask_db http_get polyline_decode str_float
                  user_lat user_lon ranked 12 show_routes log Hpoints)
        as [drawn [Hrun [Hmk _]]].
      pose proof (routed_requests_length
                    (route_request str_float user_lat user_lon)
                    show_routes ranked) as Hreqs.
      eexists. eexists.
      unfold mbind at 1, lift at 1. rewrite Hfind. cbv beta iota.
      rewrite Hrun.
      split; [reflexivity|]. cbn [children]. unfold user_marker. simpl.
      rewrite Hmk, Hreqs. split; reflexivity. }
  destruct Hmap as [map_obj [reqs1 [Hrun1 [Hmk Hreqs1]]]].
  destruct (nearest_listing_spec http_get polyline_decode str_float
              user_lat user_lon 1 (log ++ reqs1)%list Hdist)
    as [entries [Hrun2 Hstores]].
  destruct (nearest_listing_entries _ _ _ _ _ _ _ _ Hrun2) as [Hidx Hkm].
  assert (Hentries : List.length entries = List.length ranked).
  { rewrite <- Hstores. rewrite length_map. reflexivity. }
  exists map_obj, entries,
    (reqs1 ++ map (route_request str_float user_lat user_lon) ranked)%list.
  split.
  { unfold main. unfold mbind at 1. rewrite Hrun1.
    unfold mbind at 1, lift at 1. rewrite Hfind.
    unfold mbind at 1. rewrite Hrun2. unfold mret.
    rewrite app_assoc. reflexivity. }
  split; [rewrite Hstores; exact Hfind|].
  split; [rewrite Hentries; exact Hlen|].
  split; [rewrite Hidx, Hentries; reflexivity|].
  split; [exact Hkm|].
  split; [rewrite Hentries; exact Hmk|].
  rewrite length_app, Hreqs1, length_map, Hentries. reflexivity.
Qed.

Lemma main_run_witness :
  exists map_obj entries reqs,
    main silent_agent flat_geodesic service_up two_point_polyline fixed_text
      (185581 # 10000) (737934 # 10000) false true 1 []
    = (Ret (map_obj, entries), ([] ++ reqs)%list)
    /\ find_nearest_stores silent_agent flat_geodesic
         (185581 # 10000) (737934 # 10000) 1
       = Ret (map entry_store entries)
    /\ List.length entries = Nat.min (Z.to_nat 1) 2
    /\ map entry_index entries = seq 1 (List.length entries)
    /\ Forall (fun e => distance_km (entry_store e)
                        = Some (entry_distance e)) entries
    /\ marker_count (children map_obj) = S (List.length entries)
    /\ List.length reqs
       = (Nat.min 3 (List.length entries) + List.length entries)%nat.
Proof.
  apply (@main_run silent_agent "" flat_geodesic service_up
           two_point_polyline fixed_text (185581 # 10000) (737934 # 10000)
           false true 1 []).
  - reflexivity.
  - repeat constructor; eexists; vm_compute; reflexivity.
  - lia.
  - right. intros l r [data [minutes [route_km [Hget Hread]]]].
    inversion Hget; subst data. vm_compute in Hread. discriminate.
Defined.

(** ** More on [get_route_info] *)

(** X9. An incomplete first route is a failure, not an exception: when the
    first element of ["routes"] is an object that lacks ["duration"],
    ["distance"] or ["geometry"], or whose geometry [polyline.decode]
    rejects, [get_route_info] returns [{"success": False}]. *)
Theorem get_route_info_incomplete_route :
  forall (http_get : list request -> request -> http_outcome)
         (polyline_decode : json -> outcome (list (Q * Q)))
         (str_float : Q -> string)
         (user_lat user_lon store_lat store_lon : Q) (mode : option string)
         (log : list request)
         (fields route_fields : list (string * json)) (rest : list json),
    (forall req, http_get log req = Response (Some (JObj fields))) ->
    lookup_field "routes" fields = Some (JArr (JObj route_fields :: rest)) ->
    (lookup_field "duration" route_fields = None
     \/ lookup_field "distance" route_fields = None
     \/ lookup_field "geometry" route_fields = None
     \/ (exists g e, lookup_field "geometry" route_fields = Some g
                     /\ polyline_decode g = Raise e)) ->
    fst (get_route_info http_get polyline_decode str_float
           user_lat user_lon store_lat store_lon mode log)
    = Ret RouteFailure.
Proof.
  intros http_get polyline_decode str_float user_lat user_lon
    store_lat store_lon mode log fields route_fields rest Hget Hroutes Hbad.
  rewrite get_route_info_run. cbn [fst]. rewrite Hget.
  assert (Hraise : exists e, read_route polyline_decode (JObj fields)
                             = Raise e).
  { unfold read_route. simpl. rewrite Hroutes. simpl.
    replace (0 <? Z.pos (Pos.of_succ_nat (List.length rest))) with true
      by (symmetry; apply Z.ltb_lt; lia).
    destruct (lookup_field "duration" route_fields) as [dur|] eqn:Hd;
      simpl; [|eexists; reflexivity].
    destruct (lookup_field "distance" route_fields) as [dist|] eqn:Hm;
      simpl; [|eexists; reflexivity].
    destruct (lookup_field "geometry" route_fields) as [g|] eqn:Hg;
      simpl; [|eexists; reflexivity].
    destruct (py_truediv dur 60) as [minutes|e1]; simpl;
      [|eexists; reflexivity].
    destruct (py_int_float minutes) as [duration_minutes|e0]; simpl;
      [|eexists; reflexivity].
    destruct (py_truediv dist 1000) as [kilometers|e2]; simpl;
      [|eexists; reflexivity].
    destruct Hbad as [H|[H|[H|[g' [e [Hg' He]]]]]]; try discriminate.
    inversion Hg'; subst g'. rewrite He. simpl. eexists. reflexivity. }
  destruct Hraise as [e ->]. reflexivity.
Qed.

Lemma get_route_info_incomplete_route_witness :
  fst (get_route_info
         (fun _ _ => Response (Some (JObj [("code", JStr "Ok");
            ("routes", JArr [JObj [("duration", JInt 600);
                                   ("distance", JInt 5000)]])])))
         empty_polyline fixed_text
         (185581 # 10000) (737934 # 10000)
         (18558091 # 1000000) (73793439 # 1000000) None [])
  = Ret RouteFailure.
Proof.
  apply (@get_route_info_incomplete_route
           (fun _ _ => Response (Some (JObj [("code", JStr "Ok");
              ("routes", JArr [JObj [("duration", JInt 600);
                                     ("distance", JInt 5000)]])])))
           empty_polyline fixed_text
           (185581 # 10000) (737934 # 10000)
           (18558091 # 1000000) (73793439 # 1000000) None []
           [("code", JStr "Ok");
            ("routes", JArr [JObj [("duration", JInt 600);
                                   ("distance", JInt 5000)]])]
           [("duration", JInt 600); ("distance", JInt 5000)] []).
  - intros req. reflexivity.
  - reflexivity.
  - right. right. left. reflexivity.
Defined.

(** X10. Of the body of the response only the first element of ["routes"]
    is read: two bodies whose ["routes"] lists start with the same route
    give the same result, whatever else they hold. *)
Theorem get_route_info_reads_first_route :
  forall (http_get http_get' : list request -> request -> http_outcome)
         (polyline_decode : json -> outcome (list (Q * Q)))
         (str_float : Q -> string)
         (user_lat user_lon store_lat store_lon : Q) (mode : option string)
         (log : list request)
         (fields fields' : list (string * json)) (first : json)
         (rest rest' : list json),
    (forall req, http_get log req = Response (Some (JObj fields))) ->
    (forall req, http_get' log req = Response (Some (JObj fields'))) ->
    lookup_field "routes" fields = Some (JArr (first :: rest)) ->
    lookup_field "routes" fields' = Some (JArr (first :: rest')) ->
    get_route_info http_get polyline_decode str_float
      user_lat user_lon store_lat store_lon mode log
    = get_route_info http_get' polyline_decode str_float
        user_lat user_lon store_lat store_lon mode log.
Proof.
  intros http_get http_get' polyline_decode str_float user_lat user_lon
    store_lat store_lon mode log fields fields' first rest rest'
    Hget Hget' Hr Hr'.
  rewrite !get_route_info_run. rewrite Hget, Hget'.
  assert (Hsame : read_route polyline_decode (JObj fields)
                  = read_route polyline_decode (JObj fields')).
  { unfold read_route. simpl. rewrite Hr, Hr'. simpl.
    replace (0 <? Z.pos (Pos.of_succ_nat (List.length rest))) with true
      by (symmetry; apply Z.ltb_lt; lia).
    replace (0 <? Z.pos (Pos.of_succ_nat (List.length rest'))) with true
      by (symmetry; apply Z.ltb_lt; lia).
    reflexivity. }
  rewrite Hsame. reflexivity.
Qed.

Lemma get_route_info_reads_first_route_witness :
  get_route_info service_up empty_polyline fixed_text
    (185581 # 10000) (737934 # 10000)
    (18558091 # 1000000) (73793439 # 1000000) None []
  = get_route_info
      (fun _ _ => Response (Some (JObj [("code", JStr "Ok");
         ("routes",
          JArr [JObj [("duration", JInt 600); ("distance", JInt 5000);
                      ("geometry", JStr "_p~iF~ps|U_ulLnnqC_mqNvxq`@")];
                JObj [("duration", JInt 1)]])])))
      empty_polyline fixed_text
      (185581 # 10000) (737934 # 10000)
      (18558091 # 1000000) (73793439 # 1000000) None [].
Proof.
  eapply (@get_route_info_reads_first_route service_up
            (fun _ _ => Response (Some (JObj [("code", JStr "Ok");
               ("routes",
                JArr [JObj [("duration", JInt 600); ("distance", JInt 5000);
                            ("geometry", JStr "_p~iF~ps|U_ulLnnqC_mqNvxq`@")];
                      JObj [("duration", JInt 1)]])])))).
  - intros req. reflexivity.
  - intros req. reflexivity.
  - reflexivity.
  - reflexivity.
Defined.

(* ================================================================== *)
(** * Properties of [sql_tool.py] *)

(** X11. [sql_query] raises only what lies outside the [Exception]
    hierarchy; otherwise its text tells the outcome apart: it starts with
    ["["] exactly when the rows were fetched, and with ["SQL Error: "]
    exactly when the database raised an exception. *)
Theorem sql_query_text_tells_outcome :
  forall (row : Type) (repr_row : row -> string)
         (fetch_rows : string -> db_outcome (list row)) (query : string),
    (forall e, fetch_rows query <> Aborted e) ->
    exists s,
      sql_query repr_row fetch_rows query = Ret s
      /\ (String.prefix "[" s = true
          <-> exists rows, fetch_rows query = Completed rows)
      /\ (String.prefix "SQL Error: " s = true
          <-> exists message, fetch_rows query = Failed message).
Proof.
  intros row repr_row fetch_rows query Hno. unfold sql_query.
  destruct (fetch_rows query) as [rows | message | e] eqn:Hq.
  - eexists. split; [reflexivity|]. unfold py_str_list. split; split.
    + intros _. exists rows. reflexivity.
    + intros _. simpl. destruct (String.concat _ _ ++ "]"); reflexivity.
    + simpl. discriminate.
    + intros [m Hm]. discriminate.
  - eexists. split; [reflexivity|]. split; split.
    + simpl. discriminate.
    + intros [r Hr]. discriminate.
    + intros _. exists message. reflexivity.
    + intros _. simpl. destruct message; reflexivity.
  - exfalso. exact (Hno e eq_refl).
Qed.

Lemma sql_query_text_tells_outcome_witness :
  exists s,
    sql_query repr_Z number_table "SELECT price FROM medicines" = Ret s
    /\ (String.prefix "[" s = true
        <-> exists rows,
              number_table "SELECT price FROM medicines" = Completed rows)
    /\ (String.prefix "SQL Error: " s = true
        <-> exists message,
              number_table "SELECT price FROM medicines" = Failed message).
Proof.
  apply (@sql_query_text_tells_outcome Z repr_Z number_table
           "SELECT price FROM medicines").
  intros e. vm_compute. discriminate.
Defined.

(** X12. [sql_execute] raises only what lies outside the [Exception]
    hierarchy; otherwise it answers ["Query executed successfully."]
    exactly when the statement completed, and a text that starts with
    ["Execution Error: "] exactly when the database raised an exception. *)
Theorem sql_execute_text_tells_outcome :
  forall (execute_in_transaction : string -> db_outcome unit)
         (query : string),
    (forall e, execute_in_transaction query <> Aborted e) ->
    exists s,
      sql_execute execute_in_transaction query = Ret s
      /\ (s = "Query executed successfully."
          <-> execute_in_transaction query = Completed tt)
      /\ (String.prefix "Execution Error: " s = true
          <-> exists message, execute_in_transaction query = Failed message).
Proof.
  intros execute_in_transaction query Hno. unfold sql_execute.
  destruct (execute_in_transaction query) as [[] | message | e] eqn:Hq.
  - eexists. split; [reflexivity|]. split; split.
    + reflexivity.
    + reflexivity.
    + simpl. discriminate.
    + intros [m Hm]. discriminate.
  - eexists. split; [reflexivity|]. split; split.
    + simpl. discriminate.
    + discriminate.
    + intros _. exists message. reflexivity.
    + intros _. simpl. destruct message; reflexivity.
  - exfalso. exact (Hno e eq_refl).
Qed.

Lemma sql_execute_text_tells_outcome_witness :
  exists s,
    sql_execute read_only_database "INSERT INTO medicines VALUES (1)" = Ret s
    /\ (s = "Query executed successfully."
        <-> read_only_database "INSERT INTO medicines VALUES (1)"
            = Completed tt)
    /\ (String.prefix "Execution Error: " s = true
        <-> exists message,
              read_only_database "INSERT INTO medicines VALUES (1)"
              = Failed message).
Proof.
  apply (@sql_execute_text_tells_outcome read_only_database
           "INSERT INTO medicines VALUES (1)").
  intros e. discriminate.
Defined.

(* ================================================================== *)
(** * Properties of [medicalbot.py] *)

(** ** The base64 text of an image *)

Lemma sextet_in (k : N) : (k < 64)%N -> In k sextets.
Proof.
  intros H. unfold sextets. rewrite <- (N2Nat.id k). apply in_map.
  apply in_seq. lia.
Qed.

Lemma sextet_char_inv (k : N) :
  (k < 64)%N ->
  char_sextet (sextet_char k) = Some k
  /\ Ascii.eqb (sextet_char k) pad_char = false
  /\ (N_of_ascii (sextet_char k) < 128)%N.
Proof.
  intros H.
  assert (Hall : forallb (fun k =>
                    match char_sextet (sextet_char k) with
                    | Some k' => N.eqb k' k
                    | None => false
                    end
                    && negb (Ascii.eqb (sextet_char k) pad_char)
                    && N.ltb (N_of_ascii (sextet_char k)) 128) sextets = true)
    by (vm_compute; reflexivity).
  rewrite forallb_forall in Hall. specialize (Hall k (@sextet_in k H)).
  apply andb_true_iff in Hall. destruct Hall as [Hall H3].
  apply andb_true_iff in Hall. destruct Hall as [H1 H2].
  destruct (char_sextet (sextet_char k)) as [k'|]; [|discriminate].
  apply N.eqb_eq in H1. subst k'.
  apply negb_true_iff in H2. apply N.ltb_lt in H3.
  repeat split; assumption.
Qed.

Lemma byte_bound (b : byte) : (Byte.to_N b < 256)%N.
Proof. pose proof (Byte.to_N_bounded b). lia. Qed.

Lemma list_ind3 {A} (P : list A -> Prop) :
  P [] -> (forall a, P [a]) -> (forall a b, P [a; b]) ->
  (forall a b c l, P l -> P (a :: b :: c :: l)) ->
  forall l, P l.
Proof.
  intros H0 H1 H2 H3.
  assert (H : forall l, P l /\ (forall a, P (a :: l))
                        /\ (forall a b, P (a :: b :: l))).
  { induction l as [|x l [IH0 [IH1 IH2]]].
    - repeat split; auto.
    - repeat split; auto. }
  intros l. apply H.
Qed.

Ltac byte_lia := zify; Z.to_euclidean_division_equations; lia.

Lemma b64decode_b64encode (data : list byte) :
  b64decode (b64encode data) = Some data.
Proof.
  induction data as [|b0|b0 b1|b0 b1 b2 rest IH] using list_ind3.
  - reflexivity.
  - pose proof (byte_bound b0) as H0.
    cbn [b64encode b64decode].
    set (n0 := Byte.to_N b0) in *.
    destruct (@sextet_char_inv (n0 / 4)) as [-> _]; [byte_lia|].
    destruct (@sextet_char_inv (n0 mod 4 * 16)) as [-> _]; [byte_lia|].
    replace (n0 / 4 * 4 + n0 mod 4 * 16 / 16)%N with n0 by byte_lia.
    unfold n0. rewrite Byte.of_to_N. rewrite Ascii.eqb_refl. reflexivity.
  - pose proof (byte_bound b0) as H0. pose proof (byte_bound b1) as H1.
    cbn [b64encode b64decode].
    set (n0 := Byte.to_N b0) in *. set (n1 := Byte.to_N b1) in *.
    destruct (@sextet_char_inv (n0 / 4)) as [-> _]; [byte_lia|].
    destruct (@sextet_char_inv (n0 mod 4 * 16 + n1 / 16)) as [-> _]; [byte_lia|].
    destruct (@sextet_char_inv (n1 mod 16 * 4)) as [-> [-> _]]; [byte_lia|].
    replace (n0 / 4 * 4 + (n0 mod 4 * 16 + n1 / 16) / 16)%N with n0 by byte_lia.
    replace ((n0 mod 4 * 16 + n1 / 16) mod 16 * 16 + n1 mod 16 * 4 / 4)%N
      with n1 by byte_lia.
    unfold n0, n1. rewrite !Byte.of_to_N. rewrite Ascii.eqb_refl. reflexivity.
  - pose proof (byte_bound b0) as H0. pose proof (byte_bound b1) as H1.
    pose proof (byte_bound b2) as H2.
    cbn [b64encode b64decode]. rewrite IH.
    set (n0 := Byte.to_N b0) in *. set (n1 := Byte.to_N b1) in *.
    set (n2 := Byte.to_N b2) in *.
    destruct (@sextet_char_inv (n0 / 4)) as [-> _]; [byte_lia|].
    destruct (@sextet_char_inv (n0 mod 4 * 16 + n1 / 16)) as [-> _]; [byte_lia|].
    destruct (@sextet_char_inv (n1 mod 16 * 4 + n2 / 64)) as [-> [-> _]]; [byte_lia|].
    destruct (@sextet_char_inv (n2 mod 64)) as [-> [-> _]]; [byte_lia|].
    replace (n0 / 4 * 4 + (n0 mod 4 * 16 + n1 / 16) / 16)%N with n0 by byte_lia.
    replace ((n0 mod 4 * 16 + n1 / 16) mod 16 * 16
             + (n1 mod 16 * 4 + n2 / 64) / 4)%N with n1 by byte_lia.
    replace ((n1 mod 16 * 4 + n2 / 64) mod 4 * 64 + n2 mod 64)%N
      with n2 by byte_lia.
    unfold n0, n1, n2. rewrite !Byte.of_to_N. reflexivity.
Qed.

Lemma b64encode_shape (data : list byte) :
  String.length (b64encode data) = (4 * ((List.length data + 2) / 3))%nat
  /\ is_ascii_text (b64encode data) = true.
Proof.
  induction data as [|b0|b0 b1|b0 b1 b2 rest [IHl IHa]] using list_ind3.
  - split; reflexivity.
  - split; [reflexivity|].
    pose proof (byte_bound b0) as H0.
    unfold is_ascii_text. cbn [b64encode string_forallb]. unfold is_ascii_char at 1 2.
    set (n0 := Byte.to_N b0) in *.
    destruct (@sextet_char_inv (n0 / 4)) as [_ [_ Ha]]; [byte_lia|].
    destruct (@sextet_char_inv (n0 mod 4 * 16)) as [_ [_ Hb]]; [byte_lia|].
    apply N.ltb_lt in Ha, Hb. rewrite Ha, Hb. reflexivity.
  - split; [reflexivity|].
    pose proof (byte_bound b0) as H0. pose proof (byte_bound b1) as H1.
    unfold is_ascii_text. cbn [b64encode string_forallb]. unfold is_ascii_char at 1 2 3.
    set (n0 := Byte.to_N b0) in *. set (n1 := Byte.to_N b1) in *.
    destruct (@sextet_char_inv (n0 / 4)) as [_ [_ Ha]]; [byte_lia|].
    destruct (@sextet_char_inv (n0 mod 4 * 16 + n1 / 16)) as [_ [_ Hb]]; [byte_lia|].
    destruct (@sextet_char_inv (n1 mod 16 * 4)) as [_ [_ Hc]]; [byte_lia|].
    apply N.ltb_lt in Ha, Hb, Hc. rewrite Ha, Hb, Hc. reflexivity.
  - split.
    + cbn [b64encode String.length List.length]. rewrite IHl.
      replace (S (S (S (List.length rest))) + 2)%nat
        with (1 * 3 + (List.length rest + 2))%nat by lia.
      rewrite Nat.div_add_l by lia. lia.
    + pose proof (byte_bound b0) as H0. pose proof (byte_bound b1) as H1.
      pose proof (byte_bound b2) as H2.
      unfold is_ascii_text. cbn [b64encode string_forallb]. unfold is_ascii_text in IHa. rewrite IHa.
      unfold is_ascii_char at 1 2 3 4.
      set (n0 := Byte.to_N b0) in *. set (n1 := Byte.to_N b1) in *.
      set (n2 := Byte.to_N b2) in *.
      destruct (@sextet_char_inv (n0 / 4)) as [_ [_ Ha]]; [byte_lia|].
      destruct (@sextet_char_inv (n0 mod 4 * 16 + n1 / 16)) as [_ [_ Hb]]; [byte_lia|].
      destruct (@sextet_char_inv (n1 mod 16 * 4 + n2 / 64)) as [_ [_ Hc]]; [byte_lia|].
      destruct (@sextet_char_inv (n2 mod 64)) as [_ [_ Hd]]; [byte_lia|].
      apply N.ltb_lt in Ha, Hb, Hc, Hd. rewrite Ha, Hb, Hc, Hd. reflexivity.
Qed.

(** X13. [image_to_base64] gives [None] for no upload and, for an upload of
    [n] bytes, a text of [4 * ceil(n / 3)] characters, all of them 7-bit;
    so the decoding of that text as UTF-8 cannot fail and the function
    raises nothing. *)
Theorem image_to_base64_text :
  forall (decode_utf8 : string -> outcome string) (data : list byte),
    (forall s, is_ascii_text s = true -> decode_utf8 s = Ret s) ->
    image_to_base64 decode_utf8 None = Ret None
    /\ exists text,
         image_to_base64 decode_utf8 (Some data) = Ret (Some text)
         /\ String.length text = (4 * ((List.length data + 2) / 3))%nat
         /\ is_ascii_text text = true.
Proof.
  intros decode_utf8 data Hdec. split; [reflexivity|].
  destruct (b64encode_shape data) as [Hlen Hascii].
  exists (b64encode data). unfold image_to_base64.
  rewrite (Hdec _ Hascii). simpl. repeat split; assumption.
Qed.

Lemma image_to_base64_text_witness :
  image_to_base64 ascii_decoder None = Ret None
  /\ exists text,
       image_to_base64 ascii_decoder (Some [x4d; x61; x6e; x00]%byte)
       = Ret (Some text)
       /\ String.length text
          = (4 * ((List.length [x4d; x61; x6e; x00]%byte + 2) / 3))%nat
       /\ is_ascii_text text = true.
Proof.
  apply (@image_to_base64_text ascii_decoder [x4d; x61; x6e; x00]%byte).
  intros s H. unfold ascii_decoder. rewrite H. reflexivity.
Defined.

(** X14. The base64 text determines the image: decoding the text that
    [image_to_base64] builds gives back the uploaded bytes, so two different
    uploads never get the same text. *)
Theorem image_to_base64_round_trip :
  forall (decode_utf8 : string -> outcome string) (data data' : list byte)
         (text : string),
    (forall s, is_ascii_text s = true -> decode_utf8 s = Ret s) ->
    image_to_base64 decode_utf8 (Some data) = Ret (Some text) ->
    b64decode text = Some data
    /\ (image_to_base64 decode_utf8 (Some data') = Ret (Some text) ->
        data' = data).
Proof.
  intros decode_utf8 data data' text Hdec.
  assert (Himg : forall d,
             image_to_base64 decode_utf8 (Some d) = Ret (Some (b64encode d))).
  { intros d. unfold image_to_base64.
    rewrite (Hdec _ (proj2 (b64encode_shape d))). reflexivity. }
  rewrite Himg. intros Ht. inversion Ht; subst text.
  split; [apply b64decode_b64encode|].
  rewrite Himg. intros Ht'. inversion Ht' as [He].
  pose proof (b64decode_b64encode data') as Hd'.
  rewrite He, b64decode_b64encode in Hd'. inversion Hd'. reflexivity.
Qed.

Lemma image_to_base64_round_trip_witness :
  b64decode "TWFuAA==" = Some [x4d; x61; x6e; x00]%byte
  /\ (image_to_base64 ascii_decoder (Some [x4d; x61; x6e; x00]%byte)
      = Ret (Some "TWFuAA==") ->
      [x4d; x61; x6e; x00]%byte = [x4d; x61; x6e; x00]%byte).
Proof.
  apply (@image_to_base64_round_trip ascii_decoder
           [x4d; x61; x6e; x00]%byte [x4d; x61; x6e; x00]%byte "TWFuAA==").
  - intros s H. unfold ascii_decoder. rewrite H. reflexivity.
  - vm_compute. reflexivity.
Defined.

(** ** The session *)

Lemma py_last_snoc {A} (l : list A) (a : A) : py_last (l ++ [a]) = Ret a.
Proof.
  unfold py_last. rewrite rev_app_distr. reflexivity.
Qed.

Lemma turns_length (pairs : list (string * string)) :
  List.length (turns pairs) = (2 * List.length pairs)%nat.
Proof.
  induction pairs as [|[p a] pairs IH]; simpl; [reflexivity | lia].
Qed.

Lemma turns_app (pairs pairs' : list (string * string)) :
  turns (pairs ++ pairs') = (turns pairs ++ turns pairs')%list.
Proof.
  induction pairs as [|[p a] pairs IH]; simpl; [reflexivity|].
  rewrite IH. reflexivity.
Qed.

Section ChatbotFacts.

Variable decode_utf8 : string -> outcome string.
Variable agent_invoke : list (list message) -> list message
                        -> outcome (list string).

(** The image part of a run leaves the history alone, and leaves everything
    alone once a text has been extracted. *)
Lemma process_upload_effect (uploaded_img : option (list byte))
  (w : session) :
  messages (snd (process_upload decode_utf8 agent_invoke uploaded_img w))
  = messages w
  /\ (forall t, extracted_text w = Some t ->
        snd (process_upload decode_utf8 agent_invoke uploaded_img w) = w).
Proof.
  unfold process_upload, agent_reply.
  destruct uploaded_img as [data|]; [|split; reflexivity].
  destruct (image_to_base64 decode_utf8 (Some data)) as [img|e];
    [|split; reflexivity].
  destruct (extracted_text w) as [t|] eqn:Ht; [split; reflexivity|].
  destruct (agent_invoke _ _) as [replies|e]; simpl.
  - destruct (py_last replies); simpl; split; try reflexivity; discriminate.
  - split; [reflexivity | discriminate].
Qed.

Lemma stored_by_chat_is_chat_message (prompts : list string) (m : message) :
  stored_by_chat prompts m -> chat_message m.
Proof.
  intros [[p [_ ->]] | [answer ->]].
  - split; [left; reflexivity | eexists; reflexivity].
  - split; [right; reflexivity | eexists; reflexivity].
Qed.

Lemma stored_by_chat_more (prompts prompts' : list string) (m : message) :
  (forall p, In p prompts -> In p prompts') ->
  stored_by_chat prompts m -> stored_by_chat prompts' m.
Proof.
  intros Hsub [[p [Hin ->]] | [answer ->]].
  - left. exists p. split; [apply Hsub; assumption | reflexivity].
  - right. exists answer. reflexivity.
Qed.

Lemma prompts_of_cons (ev : option (list byte) * option string)
  (events : list (option (list byte) * option string)) :
  prompts_of (ev :: events) = (prompts_of [ev] ++ prompts_of events)%list.
Proof.
  destruct ev as [u [p|]]; cbn [prompts_of]; [|reflexivity].
  destruct (truthy p); reflexivity.
Qed.

(** The chat part of a run leaves the extracted text alone and only appends
    to the history: the prompt of the run, then the answer. *)
Lemma process_prompt_effect (uploaded_img : option (list byte))
  (prompt : option string) (w : session) :
  extracted_text (snd (process_prompt agent_invoke prompt w))
  = extracted_text w
  /\ exists added,
       messages (snd (process_prompt agent_invoke prompt w))
       = (messages w ++ added)%list
       /\ Forall (stored_by_chat (prompts_of [(uploaded_img, prompt)])) added.
Proof.
  unfold process_prompt, agent_reply. cbn [prompts_of].
  destruct prompt as [p|];
    [|split; [reflexivity | exists []; rewrite app_nil_r; split; auto]].
  destruct (truthy p);
    [|split; [reflexivity | exists []; rewrite app_nil_r; split; auto]].
  assert (Huser : stored_by_chat [p] (user_message p)).
  { left. exists p. split; [left; reflexivity | reflexivity]. }
  destruct (agent_invoke _ _) as [replies|e]; simpl.
  - destruct (py_last replies) as [answer|e]; simpl.
    + split; [reflexivity|].
      exists [user_message p; assistant_message answer].
      rewrite <- app_assoc. split; [reflexivity|].
      constructor; [assumption|]. constructor; [|constructor].
      right. exists answer. reflexivity.
    + split; [reflexivity|]. exists [user_message p].
      split; [reflexivity | constructor; [assumption | constructor]].
  - split; [reflexivity|]. exists [user_message p].
    split; [reflexivity | constructor; [assumption | constructor]].
Qed.

Lemma script_snd (uploaded_img : option (list byte)) (prompt : option string)
  (w : session) :
  snd (script decode_utf8 agent_invoke uploaded_img prompt w)
  = snd (process_prompt agent_invoke prompt
           (snd (process_upload decode_utf8 agent_invoke uploaded_img w)))
  \/ snd (script decode_utf8 agent_invoke uploaded_img prompt w)
     = snd (process_upload decode_utf8 agent_invoke uploaded_img w).
Proof.
  unfold script.
  destruct (process_upload decode_utf8 agent_invoke uploaded_img w)
    as [[u|e] w1]; [left | right]; reflexivity.
Qed.

Lemma script_effect (uploaded_img : option (list byte))
  (prompt : option string) (w : session) :
  (forall t, extracted_text w = Some t ->
     extracted_text (snd (script decode_utf8 agent_invoke uploaded_img
                            prompt w)) = Some t)
  /\ exists added,
       messages (snd (script decode_utf8 agent_invoke uploaded_img prompt w))
       = (messages w ++ added)%list
       /\ Forall (stored_by_chat (prompts_of [(uploaded_img, prompt)])) added.
Proof.
  destruct (process_upload_effect uploaded_img w) as [Hm Hkeep].
  destruct (script_snd uploaded_img prompt w) as [-> | ->].
  - destruct (process_prompt_effect uploaded_img prompt
                (snd (process_upload decode_utf8 agent_invoke
                        uploaded_img w))) as [He [added [Ha Hc]]].
    split.
    + intros t Ht. rewrite He, (Hkeep t Ht). exact Ht.
    + exists added. rewrite Ha, Hm. split; [reflexivity | assumption].
  - split.
    + intros t Ht. rewrite (Hkeep t Ht). exact Ht.
    + exists []. rewrite Hm, app_nil_r. split; [reflexivity | constructor].
Qed.

(** X15. The image is analysed once per session: once a text has been
    extracted, no sequence of runs changes it, whatever images are uploaded
    later, and a run with an image and no prompt changes nothing at all
    and does not invoke the agent. *)
Theorem extraction_happens_once :
  forall (events : list (option (list byte) * option string)) (w : session)
         (t : string),
    extracted_text w = Some t ->
    extracted_text (run_session decode_utf8 agent_invoke events w) = Some t
    /\ (forall data,
          snd (script decode_utf8 agent_invoke (Some data) None w) = w).
Proof.
  intros events w t Ht. split.
  - revert w Ht. induction events as [|[u p] events IH]; intros w Ht.
    + exact Ht.
    + simpl. apply IH. apply (proj1 (script_effect u p w)). exact Ht.
  - intros data.
    destruct (script_snd (Some data) None w) as [-> | ->].
    + simpl. apply (proj2 (process_upload_effect (Some data) w) t Ht).
    + apply (proj2 (process_upload_effect (Some data) w) t Ht).
Qed.

(** X16. The chat history is append-only and holds the chat only: after
    any sequence of runs, failed ones included, the stored messages are the
    earlier ones followed by messages that are each a prompt typed in one
    of these runs, stored with role [user], or an answer, stored with role
    [assistant], all with a text. So the system message with the extracted
    text is never stored, the image part of the image prompt is never
    stored, and the text part of the image prompt is stored only when the
    user typed that very text as a prompt. *)
Theorem history_is_append_only :
  forall (events : list (option (list byte) * option string)) (w : session),
  exists added,
    messages (run_session decode_utf8 agent_invoke events w)
    = (messages w ++ added)%list
    /\ Forall chat_message added
    /\ Forall (stored_by_chat (prompts_of events)) added
    /\ (forall extracted, ~ In (system_message extracted) added)
    /\ (forall img_b64 m,
           In m (vision_prompt img_b64) -> In m added ->
           m = user_message "Extract and understand this medical image."
           /\ In "Extract and understand this medical image."
                (prompts_of events)).
Proof.
  assert (Hrun : forall events w,
             exists added,
               messages (run_session decode_utf8 agent_invoke events w)
               = (messages w ++ added)%list
               /\ Forall (stored_by_chat (prompts_of events)) added).
  { induction events as [|[u p] events IH]; intros w.
    - exists []. simpl. rewrite app_nil_r. split; [reflexivity | constructor].
    - destruct (proj2 (script_effect u p w)) as [added1 [H1 Hc1]].
      destruct (IH (snd (script decode_utf8 agent_invoke u p w)))
        as [added2 [H2 Hc2]].
      exists (added1 ++ added2)%list.
      change (run_session decode_utf8 agent_invoke ((u, p) :: events) w)
        with (run_session decode_utf8 agent_invoke events
                (snd (script decode_utf8 agent_invoke u p w))).
      rewrite H2, H1, <- app_assoc. split; [reflexivity|].
      rewrite prompts_of_cons.
      apply Forall_app; split;
        (eapply Forall_impl; [|eassumption]); intros m;
        apply stored_by_chat_more; intros q Hq; apply in_or_app;
        [left | right]; exact Hq. }
  intros events w. destruct (Hrun events w) as [added [Hm Hstored]].
  exists added. split; [exact Hm|]. split; [|split; [exact Hstored|split]].
  - eapply Forall_impl; [|exact Hstored].
    intros m. apply stored_by_chat_is_chat_message.
  - intros extracted Hin.
    rewrite Forall_forall in Hstored.
    destruct (Hstored _ Hin) as [[p [_ H]] | [answer H]]; discriminate H.
  - intros img_b64 m Hprompt Hin.
    rewrite Forall_forall in Hstored.
    destruct Hprompt as [<- | [<- | []]].
    + destruct (Hstored _ Hin) as [[p [Hp H]] | [answer H]];
        [|discriminate H].
      inversion H; subst p. split; [reflexivity | exact Hp].
    + destruct (Hstored _ Hin) as [[p [_ H]] | [answer H]]; discriminate H.
Qed.

End ChatbotFacts.

Lemma extraction_happens_once_witness :
  extracted_text
    (run_session ascii_decoder echo_agent
       [(Some [x00]%byte, Some "What is this?"); (None, Some "And the dose?")]
       (mkSession [] (Some "Aspirin 75 mg") []))
  = Some "Aspirin 75 mg"
  /\ (forall data,
        snd (script ascii_decoder echo_agent (Some data) None
               (mkSession [] (Some "Aspirin 75 mg") []))
        = mkSession [] (Some "Aspirin 75 mg") []).
Proof.
  apply (@extraction_happens_once ascii_decoder echo_agent
           [(Some [x00]%byte, Some "What is this?");
            (None, Some "And the dose?")]
           (mkSession [] (Some "Aspirin 75 mg") []) "Aspirin 75 mg").
  reflexivity.
Defined.

Section ChatbotTurns.

Variable decode_utf8 : string -> outcome string.
Variable agent_invoke : list (list message) -> list message
                        -> outcome (list string).

(** X17. The first run with an image, when the agent answers: the agent is
    invoked once, with the two-message image prompt whose image URL is
    [data:image/jpeg;base64,] followed by a base64 text that decodes to the
    uploaded bytes; the last text of the result becomes the extracted text,
    and the chat history is untouched. *)
Theorem first_image_is_analysed :
  forall (data : list byte) (w : session) (replies : list string)
         (text : string),
    (forall s, is_ascii_text s = true -> decode_utf8 s = Ret s) ->
    extracted_text w = None ->
    agent_invoke (invocations w) (vision_prompt (Some (b64encode data)))
    = Ret (replies ++ [text])%list ->
    exists encoded,
      script decode_utf8 agent_invoke (Some data) None w
      = (Ret tt,
         {| messages := messages w;
            extracted_text := Some text;
            invocations :=
              (invocations w ++
                 [[user_message "Extract and understand this medical image.";
                   {| role := "user";
                      content :=
                        Parts [InputText "Analyze this image.";
                               InputImage ("data:image/jpeg;base64,"
                                             ++ encoded)] |}]])%list |})
      /\ b64decode encoded = Some data.
Proof.
  intros data w replies text Hdec Hnone Hagent.
  exists (b64encode data). split; [|apply b64decode_b64encode].
  unfold script, process_upload, image_to_base64.
  rewrite (Hdec _ (proj2 (b64encode_shape data))). simpl obind.
  rewrite Hnone. unfold agent_reply. rewrite Hagent. simpl obind.
  rewrite py_last_snoc. reflexivity.
Qed.

(** X18. When the agent always answers, every prompt gets its answer: from
    a history of complete turns, any sequence of runs leaves a history of
    complete turns, the earlier ones followed by one turn per non-empty
    prompt, in order. *)
Theorem history_of_complete_turns :
  (forall s, is_ascii_text s = true -> decode_utf8 s = Ret s) ->
  (forall history input, exists replies answer,
      agent_invoke history input = Ret (replies ++ [answer])%list) ->
  forall (events : list (option (list byte) * option string))
         (w : session) (pairs : list (string * string)),
    messages w = turns pairs ->
    exists answers,
      List.length answers = List.length (prompts_of events)
      /\ messages (run_session decode_utf8 agent_invoke events w)
         = turns (pairs ++ combine (prompts_of events) answers).
Proof.
  intros Hdec Hagent.
  assert (Hupload : forall u w, exists w1,
             process_upload decode_utf8 agent_invoke u w = (Ret tt, w1)
             /\ messages w1 = messages w).
  { intros u w. unfold process_upload, image_to_base64, agent_reply.
    destruct u as [data|]; [|exists w; split; reflexivity].
    rewrite (Hdec _ (proj2 (b64encode_shape data))). simpl obind.
    destruct (extracted_text w); [exists w; split; reflexivity|].
    destruct (Hagent (invocations w)
                (vision_prompt (Some (b64encode data))))
      as [replies [answer ->]].
    simpl obind. rewrite py_last_snoc. eexists. split; reflexivity. }
  induction events as [|[u p] events IH]; intros w pairs Hw.
  - exists []. simpl. rewrite app_nil_r. split; [reflexivity | exact Hw].
  - change (run_session decode_utf8 agent_invoke ((u, p) :: events) w)
      with (run_session decode_utf8 agent_invoke events
              (snd (script decode_utf8 agent_invoke u p w))).
    unfold script. destruct (Hupload u w) as [w1 [-> Hm1]].
    unfold process_prompt. destruct p as [p|].
    + destruct (truthy p) eqn:Hp.
      * unfold agent_reply. cbn [messages extracted_text invocations].
        match goal with
        | |- context [agent_invoke ?h ?i] =>
            destruct (Hagent h i) as [replies [answer ->]]
        end.
        simpl obind. rewrite py_last_snoc. cbn [snd].
        destruct (IH {| messages := ((messages w1 ++ [user_message p])
                                       ++ [assistant_message answer])%list;
                        extracted_text := extracted_text w1;
                        invocations := (invocations w1 ++
                          [final_input
                             {| messages := (messages w1 ++ [user_message p])%list;
                                extracted_text := extracted_text w1;
                                invocations := invocations w1 |}])%list |}
                    (pairs ++ [(p, answer)])%list) as [answers [Hlen Hrun]].
        { cbn [messages]. rewrite Hm1, Hw, turns_app, <- app_assoc.
          reflexivity. }
        exists (answer :: answers). simpl prompts_of. rewrite Hp.
        split; [simpl; rewrite Hlen; reflexivity|].
        cbn [messages extracted_text invocations] in Hrun |- *.
        rewrite Hrun, <- app_assoc. reflexivity.
      * cbn [snd]. destruct (IH w1 pairs) as [answers [Hlen Hrun]];
          [rewrite Hm1; exact Hw|].
        exists answers. simpl prompts_of. rewrite Hp.
        split; assumption.
    + cbn [snd]. destruct (IH w1 pairs) as [answers [Hlen Hrun]];
        [rewrite Hm1; exact Hw|].
      exists answers. split; assumption.
Qed.

(** X19. A prompt whose invocation fails stays in the history without an
    answer: the run ends in the exception of the agent, the prompt has
    already been stored, and the history is no longer a sequence of
    complete turns. *)
Theorem failed_turn_keeps_prompt :
  forall (w : session) (p : string) (e : exn) (pairs : list (string * string)),
    truthy p = true ->
    messages w = turns pairs ->
    agent_invoke (invocations w)
      (final_input {| messages := (messages w ++ [user_message p])%list;
                      extracted_text := extracted_text w;
                      invocations := invocations w |})
    = Raise e ->
    exists w',
      script decode_utf8 agent_invoke None (Some p) w = (Raise e, w')
      /\ messages w' = (turns pairs ++ [user_message p])%list
      /\ extracted_text w' = extracted_text w
      /\ (forall pairs', messages w' <> turns pairs').
Proof.
  intros w p e pairs Hp Hw Hagent.
  unfold script, process_upload, process_prompt. rewrite Hp.
  unfold agent_reply. cbn [messages extracted_text invocations].
  rewrite Hagent. simpl obind.
  eexists. split; [reflexivity|]. cbn [messages extracted_text].
  rewrite Hw. split; [reflexivity|]. split; [reflexivity|].
  intros pairs' H. apply (f_equal (@List.length message)) in H.
  rewrite length_app, !turns_length in H. simpl in H. lia.
Qed.

(** X20. A prompt that the agent answers: the agent receives the whole
    stored history followed by the prompt, preceded by the system message
    with the extracted text when that text is not empty; the prompt and the
    answer are appended to the history, and the system message is not. *)
Theorem answered_turn :
  forall (w : session) (p answer : string) (replies : list string),
    truthy p = true ->
    agent_invoke (invocations w)
      (final_input {| messages := (messages w ++ [user_message p])%list;
                      extracted_text := extracted_text w;
                      invocations := invocations w |})
    = Ret (replies ++ [answer])%list ->
    script decode_utf8 agent_invoke None (Some p) w
    = (Ret tt,
       {| messages := (messages w ++ [user_message p;
                                      assistant_message answer])%list;
          extracted_text := extracted_text w;
          invocations :=
            (invocations w ++
               [((match extracted_text w with
                  | Some extracted =>
                      if String.eqb extracted "" then []
                      else [system_message extracted]
                  | None => []
                  end) ++ messages w ++ [user_message p])%list])%list |}).
Proof.
  intros w p answer replies Hp Hagent.
  unfold script, process_upload, process_prompt. rewrite Hp.
  unfold agent_reply. cbn [messages extracted_text invocations].
  rewrite Hagent. simpl obind. rewrite py_last_snoc.
  cbn [messages extracted_text invocations].
  rewrite <- app_assoc. unfold final_input, truthy.
  cbn [messages extracted_text].
  destruct (extracted_text w) as [t|]; [destruct (String.eqb t "")|];
    reflexivity.
Qed.

End ChatbotTurns.

Lemma first_image_is_analysed_witness :
  exists encoded,
    script ascii_decoder echo_agent (Some [x4d; x61; x6e]%byte) None
      initial_session
    = (Ret tt,
       {| messages := messages initial_session;
          extracted_text := Some "Paracetamol 500 mg";
          invocations :=
            (invocations initial_session ++
               [[user_message "Extract and understand this medical image.";
                 {| role := "user";
                    content :=
                      Parts [InputText "Analyze this image.";
                             InputImage ("data:image/jpeg;base64,"
                                           ++ encoded)] |}]])%list |})
    /\ b64decode encoded = Some [x4d; x61; x6e]%byte.
Proof.
  apply (@first_image_is_analysed ascii_decoder echo_agent
           [x4d; x61; x6e]%byte initial_session [] "Paracetamol 500 mg").
  - intros s H. unfold ascii_decoder. rewrite H. reflexivity.
  - reflexivity.
  - reflexivity.
Defined.

Lemma history_of_complete_turns_witness :
  exists answers,
    List.length answers
    = List.length (prompts_of [(Some [x00]%byte, Some "What is this?");
                               (None, Some ""); (None, Some "And the dose?")])
    /\ messages
         (run_session ascii_decoder echo_agent
            [(Some [x00]%byte, Some "What is this?");
             (None, Some ""); (None, Some "And the dose?")]
            initial_session)
       = turns ([] ++ combine
                        (prompts_of [(Some [x00]%byte, Some "What is this?");
                                     (None, Some "");
                                     (None, Some "And the dose?")])
                        answers).
Proof.
  apply (@history_of_complete_turns ascii_decoder echo_agent).
  - intros s H. unfold ascii_decoder. rewrite H. reflexivity.
  - intros history input. exists [], "Paracetamol 500 mg". reflexivity.
  - reflexivity.
Defined.

Lemma failed_turn_keeps_prompt_witness :
  exists w',
    script ascii_decoder failing_agent None (Some "What is this?")
      initial_session
    = (Raise (OtherError "APIConnectionError"), w')
    /\ messages w' = (turns [] ++ [user_message "What is this?"])%list
    /\ extracted_text w' = extracted_text initial_session
    /\ (forall pairs', messages w' <> turns pairs').
Proof.
  apply (@failed_turn_keeps_prompt ascii_decoder failing_agent
           initial_session "What is this?"
           (OtherError "APIConnectionError") []).
  - reflexivity.
  - reflexivity.
  - reflexivity.
Defined.

Lemma answered_turn_witness :
  script ascii_decoder echo_agent None (Some "And the dose?")
    (mkSession (turns [("What is this?", "Paracetamol 500 mg")])
       (Some "Paracetamol 500 mg") [])
  = (Ret tt,
     {| messages :=
          (turns [("What is this?", "Paracetamol 500 mg")]
             ++ [user_message "And the dose?";
                 assistant_message "Paracetamol 500 mg"])%list;
        extracted_text := Some "Paracetamol 500 mg";
        invocations :=
          [(system_message "Paracetamol 500 mg"
              :: turns [("What is this?", "Paracetamol 500 mg")]
              ++ [user_message "And the dose?"])%list] |}).
Proof.
  apply (@answered_turn ascii_decoder echo_agent
           (mkSession (turns [("What is this?", "Paracetamol 500 mg")])
              (Some "Paracetamol 500 mg") [])
           "And the dose?" "Paracetamol 500 mg" []).
  - reflexivity.
  - reflexivity.
Defined.
